(** * content-scraper: fetch gateway and authenticity scorer

    A shallow embedding of
      - [utils/rate_limiter.py]             (classes [RateLimiter] and
                                             [AdaptiveRateLimiter]),
      - [scrapers/base_scraper.py]          (class [BaseScraper]: robots.txt
                                             cache, [fetch_url] and its retry
                                             decorator, content objects),
      - [validators/authenticity_validator.py] (class [AuthenticityValidator]),
    together with the properties of the specification that concern them.

    Python objects are modelled by values: dictionaries are finite maps,
    exceptions are an explicit [Raise] result, mutation is state passing.

    The limiter is embedded twice: on a clock that reads whole seconds,
    where the arithmetic of the code is exact and the invariants are
    proved, and on double-precision time, as [time.time()] gives it. *)

From Stdlib Require Import ZArith Ascii String.
From Stdlib Require Floats.SpecFloat.
From stdpp Require Import gmap strings list fin_maps.

#[local] Open Scope Z_scope.
#[local] Set Warnings "-register-all".

(** ** Exceptions and results *)

(** Subclasses of [requests.RequestException] that the fetch path meets. *)
Inductive request_error :=
| HTTPError (status : Z)        (* raised by [Response.raise_for_status] *)
| RequestsConnectionError       (* requests.ConnectionError *)
| Timeout                       (* requests.Timeout *)
| RequestsRetryError            (* requests.RetryError: adapter retries exhausted *)
| OtherRequestException.

Inductive exn :=
| KeyError (key : string)
| TypeError
| AttributeError
| IndexError
| ValueError (msg : string)
| RequestException (k : request_error)
| ConnectionError               (* the builtin, an OSError *)
| RetryError                    (* tenacity.RetryError *)
| OtherError.

Inductive result (A : Type) :=
| Ok (a : A)
| Raise (e : exn).
Arguments Ok {A} a.
Arguments Raise {A} e.

#[global] Instance result_ret : MRet result := fun A a => Ok a.
#[global] Instance result_bind : MBind result := fun A B k r =>
  match r with
  | Ok a => k a
  | Raise e => Raise e
  end.

Definition is_Ok {A} (r : result A) : bool :=
  match r with Ok _ => true | Raise _ => false end.

(** ** utils/rate_limiter.py *)

Module RateLimiter.

(** [self.calls], [self.period], [self.timestamps] (the deque, oldest first).
    Time is counted in clock ticks, an integer; [period] is in the same unit.
    The source computes on the doubles of [time.time()]: this embedding
    agrees with it on a clock whose readings are whole numbers (below
    [2 ^ 53]), where double arithmetic is exact; [RateLimiterOnDoubles]
    below embeds the same code on doubles. *)
Record t := mk {
  calls : Z;
  period : Z;
  timestamps : list Z
}.

(** [RateLimiter.__init__] *)
Definition init (calls period : Z) : t := mk calls period [].

(** [while self.timestamps and self.timestamps[0] <= now - self.period:
       self.timestamps.popleft()] *)
Fixpoint evict (now period : Z) (ts : list Z) : list Z :=
  match ts with
  | t0 :: rest => if t0 <=? now - period then evict now period rest else ts
  | [] => []
  end.

(** What the environment contributes to one call: [gap] is the time that
    went by since the clock was last observed, [over] is by how much
    [time.sleep] overshoots the requested duration. *)
Record elapse := Elapse { gap : Z; over : Z }.

(** [RateLimiter.wait_if_needed], run under [self.lock], so calls are
    sequential.  Takes the clock and gives it back.  The Python method
    returns [None]; the model returns the timestamp it appended.
    [self.timestamps[0]] on an empty deque is an [IndexError]. *)
Definition wait_if_needed (e : elapse) (clock : Z) (rl : t)
  : result Z * Z * t :=
  let now := clock + gap e in
  let ts := evict now (period rl) (timestamps rl) in
  if calls rl <=? Z.of_nat (length ts) then
    match ts with
    | [] => (Raise IndexError, now, mk (calls rl) (period rl) ts)
    | t0 :: _ =>
        let sleep_time := period rl - (now - t0) in
        if 0 <? sleep_time then
          let now' := now + sleep_time + over e in
          let ts' := evict now' (period rl) ts in
          (Ok now', now', mk (calls rl) (period rl) (ts' ++ [now']))
        else
          (Ok now, now, mk (calls rl) (period rl) (ts ++ [now]))
    end
  else
    (Ok now, now, mk (calls rl) (period rl) (ts ++ [now])).

(** A sequence of acquisitions on one limiter; the first component collects
    the timestamps recorded, in order. *)
Fixpoint acquire_all (es : list elapse) (clock : Z) (rl : t)
  : list Z * Z * t :=
  match es with
  | [] => ([], clock, rl)
  | e :: es' =>
      let '(r, clock1, rl1) := wait_if_needed e clock rl in
      let '(h, clock2, rl2) := acquire_all es' clock1 rl1 in
      (match r with Ok now => now :: h | Raise _ => h end, clock2, rl2)
  end.

(** Time does not run backwards and [time.sleep] does not return early. *)
Definition honest (e : elapse) : Prop := 0 <= gap e /\ 0 <= over e.

(** Number of recorded timestamps in the trailing window [(t - P, t]]. *)
Definition window_count (P t : Z) (hist : list Z) : nat :=
  length (filter (fun x => t - P < x <= t) hist).

(** The loop invariant of a limiter with capacity [N] and period [P]:
    the deque is what is left of the history after dropping timestamps
    that have left the window for good. *)
Record inv (N P clock : Z) (rl : t) (hist : list Z) : Prop := Inv {
  inv_calls : calls rl = N;
  inv_period : period rl = P;
  inv_old : exists old,
      hist = old ++ timestamps rl /\ Forall (fun x => x <= clock - P) old;
  inv_past : Forall (fun x => x <= clock) hist;
  inv_len : Z.of_nat (length (timestamps rl)) <= N;
  inv_window : forall t, Z.of_nat (window_count P t hist) <= N
}.

End RateLimiter.

(** ** Python floats *)

Module Double.

(** A Python float is an IEEE 754 binary64 number; the operations round
    to nearest, ties to even. *)
Definition float : Type := SpecFloat.spec_float.

(** [float(n)] for an int [n] *)
Definition of_int (n : Z) : float := SpecFloat.binary_normalize 53 1024 n 0 false.

Definition add : float -> float -> float := SpecFloat.SFadd 53 1024.
Definition sub : float -> float -> float := SpecFloat.SFsub 53 1024.
Definition div : float -> float -> float := SpecFloat.SFdiv 53 1024.
Definition leb : float -> float -> bool := SpecFloat.SFleb.
Definition ltb : float -> float -> bool := SpecFloat.SFltb.


End Double.

(** ** utils/rate_limiter.py on double-precision time *)

Module RateLimiterOnDoubles.

Import Double.

(** [self.calls] and [self.period] are ints, the timestamps are the
    doubles that [time.time()] returned. *)
Record t := mk {
  calls : Z;
  period : Z;
  timestamps : list float
}.

(** [RateLimiter.__init__] *)
Definition init (calls period : Z) : t := mk calls period [].

(** [while self.timestamps and self.timestamps[0] <= now - self.period:
       self.timestamps.popleft()] *)
Fixpoint evict (now : float) (period : Z) (ts : list float) : list float :=
  match ts with
  | t0 :: rest =>
      if leb t0 (sub now (of_int period)) then evict now period rest else ts
  | [] => []
  end.

(** What [time.time()] reads during one call: [entry] when the call
    starts, [wake d] after [time.sleep(d)]. *)
Record readings := Readings { entry : float; wake : float -> float }.

(** [RateLimiter.wait_if_needed]; the model returns the timestamp it
    appended. *)
Definition wait_if_needed (e : readings) (rl : t) : result float * t :=
  let now := entry e in
  let ts := evict now (period rl) (timestamps rl) in
  if calls rl <=? Z.of_nat (length ts) then
    match ts with
    | [] => (Raise IndexError, mk (calls rl) (period rl) ts)
    | t0 :: _ =>
        let sleep_time := sub (of_int (period rl)) (sub now t0) in
        if ltb (of_int 0) sleep_time then
          let now' := wake e sleep_time in
          let ts' := evict now' (period rl) ts in
          (Ok now', mk (calls rl) (period rl) (ts' ++ [now']))
        else
          (Ok now, mk (calls rl) (period rl) (ts ++ [now]))
    end
  else
    (Ok now, mk (calls rl) (period rl) (ts ++ [now])).

End RateLimiterOnDoubles.

(** ** Python values *)

(** The values a JSON-like content record holds.  A dictionary with string
    keys is a finite map. *)
Inductive pyval :=
| PNone
| PBool (b : bool)
| PInt (z : Z)
| PStr (s : string)
| PList (l : list pyval)
| PDict (d : gmap string pyval).

(** [bool(v)] *)
Definition truthy (v : pyval) : bool :=
  match v with
  | PNone => false
  | PBool b => b
  | PInt z => negb (z =? 0)
  | PStr s => negb (String.eqb s "")
  | PList l => negb (Nat.eqb (length l) 0)
  | PDict d => negb (Nat.eqb (size d) 0)
  end.

Definition int_of_bool (b : bool) : Z := if b then 1 else 0.

(** [v > n] and [v >= n] for an int [n]: defined on int and bool, a
    [TypeError] on everything else. *)
Definition py_gt (v : pyval) (n : Z) : result bool :=
  match v with
  | PInt z => Ok (n <? z)
  | PBool b => Ok (n <? int_of_bool b)
  | _ => Raise TypeError
  end.

Definition py_ge (v : pyval) (n : Z) : result bool :=
  match v with
  | PInt z => Ok (n <=? z)
  | PBool b => Ok (n <=? int_of_bool b)
  | _ => Raise TypeError
  end.

(** [v == s] for a str [s] *)
Definition str_eq (v : pyval) (s : string) : bool :=
  match v with
  | PStr s' => String.eqb s' s
  | _ => false
  end.

(** [o == v] where [o] is a str or [None] *)
Definition opt_str_eq (o : option string) (v : pyval) : bool :=
  match o, v with
  | Some s, _ => str_eq v s
  | None, PNone => true
  | None, _ => false
  end.

(** [m.get(k, dflt)]: an [AttributeError] unless [m] is a dict. *)
Definition py_get (m : pyval) (k : string) (dflt : pyval) : result pyval :=
  match m with
  | PDict d => Ok (default dflt (d !! k))
  | _ => Raise AttributeError
  end.

(** [len(m)] for the metadata dict *)
Definition py_len (m : pyval) : result Z :=
  match m with
  | PDict d => Ok (Z.of_nat (size d))
  | PList l => Ok (Z.of_nat (length l))
  | PStr s => Ok (Z.of_nat (String.length s))
  | _ => Raise TypeError
  end.

(** [table.get(k, dflt)] on a table with str keys, for an arbitrary key
    value: lists and dicts are unhashable, other non-str keys are never
    found. *)
Definition get_by_key {V} (table : gmap string V) (k : pyval) (dflt : V)
  : result V :=
  match k with
  | PStr s => Ok (default dflt (table !! s))
  | PList _ | PDict _ => Raise TypeError
  | _ => Ok dflt
  end.

(** A [for] loop whose body may [return]: [Some r] leaves the loop with
    [r], [None] goes on with the next element. *)
Fixpoint for_return {A R} (l : list A) (body : A -> result (option R))
  : result (option R) :=
  match l with
  | [] => Ok None
  | x :: rest =>
      r ← body x;
      match r with
      | Some v => Ok (Some v)
      | None => for_return rest body
      end
  end.

(** ** Strings *)

(** [s.replace('www.', '')]: every occurrence, left to right. *)
Fixpoint replace_www (s : string) : string :=
  match s with
  | String "w"%char (String "w"%char (String "w"%char (String "."%char rest))) =>
      replace_www rest
  | String c rest => String c (replace_www rest)
  | EmptyString => EmptyString
  end.

(** [s.endswith(suffix)] *)
Definition endswith (s suffix : string) : bool :=
  let n := String.length s in
  let m := String.length suffix in
  (m <=? n)%nat && String.eqb (substring (n - m) m s) suffix.

(** The two fields of [urllib.parse.urlparse(url)] that the program reads. *)
Record ParseResult := { scheme : string; netloc : string }.

(** [urlparse] on plain ASCII URLs: an optional scheme up to the first
    colon, then the authority between // and the first of / ? #.
    An unbalanced bracket in the authority is a [ValueError].
    Used to run the model on concrete inputs; the theorems below hold for
    any [urlparse]. *)
Module UrlparseAscii.

Definition is_alpha (c : ascii) : bool :=
  let n := nat_of_ascii c in
  ((65 <=? n) && (n <=? 90) || (97 <=? n) && (n <=? 122))%nat.

Definition is_scheme_char (c : ascii) : bool :=
  let n := nat_of_ascii c in
  (is_alpha c || (48 <=? n) && (n <=? 57)
   || (n =? 43) || (n =? 45) || (n =? 46))%nat.

Definition lower (c : ascii) : ascii :=
  let n := nat_of_ascii c in
  if ((65 <=? n) && (n <=? 90))%nat then ascii_of_nat (n + 32) else c.

Fixpoint string_map (f : ascii -> ascii) (s : string) : string :=
  match s with
  | EmptyString => EmptyString
  | String c r => String (f c) (string_map f r)
  end.

Fixpoint string_forall (f : ascii -> bool) (s : string) : bool :=
  match s with
  | EmptyString => true
  | String c r => f c && string_forall f r
  end.

Fixpoint string_mem (c : ascii) (s : string) : bool :=
  match s with
  | EmptyString => false
  | String c' r => Ascii.eqb c c' || string_mem c r
  end.

Definition split_scheme (url : string) : string * string :=
  match index 0 ":" url, url with
  | Some (S i), String c0 _ =>
      let sch := substring 0 (S i) url in
      if is_alpha c0 && string_forall is_scheme_char sch
      then (string_map lower sch,
            substring (S (S i)) (String.length url - S (S i)) url)
      else (EmptyString, url)
  | _, _ => (EmptyString, url)
  end.

Fixpoint take_netloc (s : string) : string :=
  match s with
  | EmptyString => EmptyString
  | String c r =>
      if string_mem c "/?#" then EmptyString else String c (take_netloc r)
  end.

Definition urlparse (url : string) : result ParseResult :=
  let '(sch, rest) := split_scheme url in
  match rest with
  | String "/"%char (String "/"%char r) =>
      let nl := take_netloc r in
      if xorb (string_mem "["%char nl) (string_mem "]"%char nl)
      then Raise (ValueError "Invalid IPv6 URL")
      else Ok {| scheme := sch; netloc := nl |}
  | _ => Ok {| scheme := sch; netloc := EmptyString |}
  end.

End UrlparseAscii.

(** ** validators/authenticity_validator.py *)

Module Validator.

(** The authors configuration, as far as the validator reads it.  A field
    read with [.get(key)] is an [option]; one read with [.get(key, dflt)]
    holds the default when the key is missing. *)
Record Blog := { blog_name : option string; blog_url : string }.
Record Channel := { channel_name : option string }.
Record Podcast := { podcast_name : option string }.
Record Book := { book_title : option string }.

Record AuthorConfig := {
  author_name : string;
  official_domains_cfg : list string;
  blogs : list Blog;
  youtube_channels : list Channel;
  podcasts : list Podcast;
  books : list Book;
  twitter_handle : string
}.

(** [{}], the default of [self.authors_config.get(author_id, {})] *)
Definition no_config : AuthorConfig :=
  {| author_name := ""; official_domains_cfg := []; blogs := [];
     youtube_channels := []; podcasts := []; books := [];
     twitter_handle := "" |}.

(** [self.authors_config] and [self.official_domains] *)
Record AuthenticityValidator := {
  authors_config : gmap string AuthorConfig;
  official_domains : gmap string (list string)
}.

Section WithEnvironment.

(** [urllib.parse.urlparse] and the setting [MIN_AUTHENTICITY_SCORE]
    (75 unless the environment says otherwise). *)
Variable urlparse : string -> result ParseResult.
Variable MIN_AUTHENTICITY_SCORE : Z.

(** [urlparse(url).netloc.replace('www.', '')] *)
Definition netloc_domain (url : string) : result string :=
  pr ← urlparse url;
  Ok (replace_www (netloc pr)).

(** The body of the outer loop of [_build_domain_whitelist], for one
    author: the configured official domains, then the domain of every
    blog url that is not there yet. *)
Fixpoint add_blog_domains (bs : list Blog) (domains : list string)
  : result (list string) :=
  match bs with
  | [] => Ok domains
  | blog :: rest =>
      let url := blog_url blog in
      if negb (String.eqb url "") then
        domain ← netloc_domain url;
        if negb (String.eqb domain "") && negb (bool_decide (domain ∈ domains))
        then add_blog_domains rest (domains ++ [domain])
        else add_blog_domains rest domains
      else add_blog_domains rest domains
  end.

Definition author_whitelist (config : AuthorConfig) : result (list string) :=
  add_blog_domains (blogs config) (official_domains_cfg config).

(** [_build_domain_whitelist] *)
Definition _build_domain_whitelist (cfg : gmap string AuthorConfig)
  : result (gmap string (list string)) :=
  map_fold (fun author_id config acc =>
              whitelist ← acc;
              domains ← author_whitelist config;
              Ok (<[author_id := domains]> whitelist))
           (Ok ∅) cfg.

(** [AuthenticityValidator.__init__], given the loaded configuration *)
Definition new (cfg : gmap string AuthorConfig) : result AuthenticityValidator :=
  whitelist ← _build_domain_whitelist cfg;
  Ok {| authors_config := cfg; official_domains := whitelist |}.

Variable self : AuthenticityValidator.

(** [_verify_domain] *)
Definition _verify_domain (author_id url : pyval) : result Z :=
  if negb (truthy url) then Ok 0 else
  official ← get_by_key (official_domains self) author_id [];
  if bool_decide (official = []) then Ok 20 else
  (* try: *)
  match (match url with
         | PStr u => netloc_domain u
         | _ => Raise AttributeError
         end) with
  | Ok domain =>
      if bool_decide (domain ∈ official) then Ok 40 else
      r ← for_return official (fun official_domain =>
             if endswith domain ("." +:+ official_domain)
                || String.eqb domain official_domain
             then Ok (Some 35) else Ok None);
      Ok (default 0 r)
  | Raise _ => Ok 0              (* except Exception *)
  end.

(** [_verify_twitter]: the handle is read and not used. *)
Definition _verify_twitter (author_config : AuthorConfig) (metadata : pyval)
  : result Z :=
  Ok 40.

(** [_verify_youtube] *)
Definition _verify_youtube (author_config : AuthorConfig) (metadata : pyval)
  : result Z :=
  channel ← py_get metadata "channel_name" (PStr "");
  let channels := youtube_channels author_config in
  r ← for_return channels (fun ch =>
         if opt_str_eq (channel_name ch) channel then Ok (Some 40) else Ok None);
  match r with
  | Some score => Ok score
  | None => if bool_decide (channels = []) then Ok 30 else Ok 15
  end.

(** [_verify_blog] *)
Definition _verify_blog (author_config : AuthorConfig) (metadata : pyval)
  : result Z :=
  name ← py_get metadata "blog_name" (PStr "");
  domain ← py_get metadata "domain" (PStr "");
  r ← for_return (blogs author_config) (fun blog =>
         if opt_str_eq (blog_name blog) name then Ok (Some 40) else
         blog_domain ← netloc_domain (blog_url blog);
         if str_eq domain blog_domain then Ok (Some 40) else Ok None);
  Ok (default 15 r).

(** [_verify_podcast] *)
Definition _verify_podcast (author_config : AuthorConfig) (metadata : pyval)
  : result Z :=
  name ← py_get metadata "podcast_name" (PStr "");
  r ← for_return (podcasts author_config) (fun podcast =>
         if opt_str_eq (podcast_name podcast) name then Ok (Some 40) else Ok None);
  Ok (default 25 r).

(** [_verify_book] *)
Definition _verify_book (author_config : AuthorConfig) (metadata : pyval)
  : result Z :=
  title ← py_get metadata "book_title" (PStr "");
  r ← for_return (books author_config) (fun book =>
         if opt_str_eq (book_title book) title then Ok (Some 40) else Ok None);
  Ok (default 10 r).

(** [_verify_platform] *)
Definition _verify_platform (author_id platform metadata : pyval) : result Z :=
  if negb (truthy platform) then Ok 0 else
  author_config ← get_by_key (authors_config self) author_id no_config;
  if str_eq platform "twitter" then _verify_twitter author_config metadata
  else if str_eq platform "youtube" then _verify_youtube author_config metadata
  else if str_eq platform "blog" then _verify_blog author_config metadata
  else if str_eq platform "podcast" then _verify_podcast author_config metadata
  else if str_eq platform "book" then _verify_book author_config metadata
  else Ok 20.

(** [_verify_metadata] *)
Definition _verify_metadata (author_id metadata : pyval) : result Z :=
  let score := 0 in
  author_config ← get_by_key (authors_config self) author_id no_config;
  word_count ← py_get metadata "word_count" (PInt 0);
  long ← py_gt word_count 50;
  let score := if (long : bool) then score + 5 else score in
  metrics ← py_get metadata "metrics" PNone;
  let score := if truthy metrics then score + 5 else score in
  processed ← py_get metadata "word_count" PNone;
  let score := if truthy processed then score + 5 else score in
  n ← py_len metadata;
  let score := if 2 <? n then score + 5 else score in
  Ok (Z.min 20 score).

(** [_calculate_authenticity_score] *)
Definition _calculate_authenticity_score (author_id platform url metadata : pyval)
  : result Z :=
  let score := 0 in
  domain_score ← _verify_domain author_id url;
  let score := score + domain_score in
  platform_score ← _verify_platform author_id platform metadata;
  let score := score + platform_score in
  metadata_score ← _verify_metadata author_id metadata;
  let score := score + metadata_score in
  Ok (Z.min 100 (Z.max 0 score)).

(** [validate].  The record is mutated in place: the second component is
    the record as the call leaves it, also when it raises.  The local
    [metadata] is the very dict stored under the key, so the annotation
    written at the end lands in it. *)
Definition validate (content : gmap string pyval)
  : result unit * gmap string pyval :=
  let author_id := default PNone (content !! "author") in
  if negb (truthy author_id) then
    (Ok (), <["authenticity_score" := PInt 0]> content)
  else
    let platform := default (PStr "") (content !! "platform") in
    let url := default (PStr "") (content !! "url") in
    let metadata := default (PDict ∅) (content !! "metadata") in
    match _calculate_authenticity_score author_id platform url metadata with
    | Raise e => (Raise e, content)
    | Ok score =>
        let content := <["authenticity_score" := PInt score]> content in
        match content !! "metadata" with
        | None => (Raise (KeyError "metadata"), content)
        | Some (PDict md) =>
            let md :=
              match md !! "validation" with
              | None => <["validation" := PDict ∅]> md
              | Some _ => md
              end in
            match md !! "validation" with
            | Some (PDict validation) =>
                let validation :=
                  <["authenticity_score" := PInt score]> validation in
                let validation :=
                  <["passed" := PBool (MIN_AUTHENTICITY_SCORE <=? score)]>
                    validation in
                (Ok (),
                 <["metadata" := PDict (<["validation" := PDict validation]> md)]>
                   content)
            | _ => (Raise TypeError, content)
            end
        | Some _ => (Raise TypeError, content)
        end
    end.

(** [filter_by_score]; [min_score] is [None] or an int. *)
Fixpoint keep_scored (contents : list (gmap string pyval)) (min_score : Z)
  : result (list (gmap string pyval)) :=
  match contents with
  | [] => Ok []
  | content :: rest =>
      keep ← py_ge (default (PInt 0) (content !! "authenticity_score")) min_score;
      filtered ← keep_scored rest min_score;
      Ok (if (keep : bool) then content :: filtered else filtered)
  end.

Definition filter_by_score (contents : list (gmap string pyval))
    (min_score : option Z) : result (list (gmap string pyval)) :=
  let min_score :=
    match min_score with
    | Some m => if m =? 0 then MIN_AUTHENTICITY_SCORE else m
    | None => MIN_AUTHENTICITY_SCORE
    end in
  keep_scored contents min_score.

(** [validate_batch] *)
Fixpoint validate_batch_from (validated contents : list (gmap string pyval))
  : list (gmap string pyval) :=
  match contents with
  | [] => validated
  | content :: rest =>
      match validate content with
      | (Ok _, validated_content) =>
          validate_batch_from (validated ++ [validated_content]) rest
      | (Raise _, content) =>
          validate_batch_from
            (validated ++ [<["authenticity_score" := PInt 0]> content]) rest
      end
  end.

Definition validate_batch (contents : list (gmap string pyval))
  : list (gmap string pyval) :=
  validate_batch_from [] contents.

End WithEnvironment.

End Validator.

(** ** scrapers/base_scraper.py *)

Module BaseScraper.

(** A [RobotFileParser] after [read()]: its verdict for a user agent and a
    url. *)
Record RobotFileParser := { rp_can_fetch : string -> string -> bool }.

(** [self.stats] *)
Record Stats := {
  total_requests : Z;
  successful_requests : Z;
  failed_requests : Z;
  items_scraped : Z;
  items_filtered : Z
}.

Record Response := { status_code : Z }.

(** The scraper ([rate_limiter], [robot_parsers], [stats]) and what can be
    observed of the world around it: the clock, the robots.txt files
    loaded, the requests sent through [self.session], and the waits of the
    retry decorator. *)
Record State := {
  rate_limiter : RateLimiter.t;
  robot_parsers : gmap string (option RobotFileParser);
  stats : Stats;
  clock : Z;
  robots_loaded : list string;
  requests_sent : list (string * string);
  slept : list Z
}.

(** What [self.session.request] does on one call: a response comes back or
    an exception is raised.  The retries that the mounted [HTTPAdapter]
    makes on its own happen inside this call. *)
Inductive session_outcome :=
| Responds (r : Response)
| Raises (e : exn).

(** What the environment contributes to one attempt of [fetch_url]. *)
Record attempt_env := {
  tick : RateLimiter.elapse;
  outcome : session_outcome
}.

(** State and exceptions: a computation takes the state and gives back a
    result or an exception together with the state it left. *)
Definition M (A : Type) : Type := State -> result A * State.

Definition ret {A} (a : A) : M A := fun s => (Ok a, s).
Definition raise {A} (e : exn) : M A := fun s => (Raise e, s).
Definition gets {A} (f : State -> A) : M A := fun s => (Ok (f s), s).
Definition modify (f : State -> State) : M unit := fun s => (Ok (), f s).
Definition lift {A} (r : result A) : M A := fun s => (r, s).

#[local] Instance M_bind : MBind M := fun A B k m s =>
  match m s with
  | (Ok a, s') => k a s'
  | (Raise e, s') => (Raise e, s')
  end.

(** [try: m except Exception as e: handler e] *)
Definition try_except {A} (m : M A) (handler : exn -> M A) : M A := fun s =>
  match m s with
  | (Ok a, s') => (Ok a, s')
  | (Raise e, s') => handler e s'
  end.

Definition set_rate_limiter (rl : RateLimiter.t) (now : Z) (s : State) : State :=
  {| rate_limiter := rl; robot_parsers := robot_parsers s; stats := stats s;
     clock := now; robots_loaded := robots_loaded s;
     requests_sent := requests_sent s; slept := slept s |}.

Definition set_robot_parser (base_url : string) (rp : option RobotFileParser)
    (s : State) : State :=
  {| rate_limiter := rate_limiter s;
     robot_parsers := <[base_url := rp]> (robot_parsers s);
     stats := stats s; clock := clock s; robots_loaded := robots_loaded s;
     requests_sent := requests_sent s; slept := slept s |}.

Definition log_robots (robots_url : string) (s : State) : State :=
  {| rate_limiter := rate_limiter s; robot_parsers := robot_parsers s;
     stats := stats s; clock := clock s;
     robots_loaded := robots_loaded s ++ [robots_url];
     requests_sent := requests_sent s; slept := slept s |}.

Definition log_request (method url : string) (s : State) : State :=
  {| rate_limiter := rate_limiter s; robot_parsers := robot_parsers s;
     stats := stats s; clock := clock s; robots_loaded := robots_loaded s;
     requests_sent := requests_sent s ++ [(method, url)]; slept := slept s |}.

Definition set_stats (f : Stats -> Stats) (s : State) : State :=
  {| rate_limiter := rate_limiter s; robot_parsers := robot_parsers s;
     stats := f (stats s); clock := clock s; robots_loaded := robots_loaded s;
     requests_sent := requests_sent s; slept := slept s |}.

Definition sleep (seconds : Z) (s : State) : State :=
  {| rate_limiter := rate_limiter s; robot_parsers := robot_parsers s;
     stats := stats s; clock := clock s + seconds;
     robots_loaded := robots_loaded s;
     requests_sent := requests_sent s; slept := slept s ++ [seconds] |}.

Definition incr_total (st : Stats) : Stats :=
  {| total_requests := total_requests st + 1;
     successful_requests := successful_requests st;
     failed_requests := failed_requests st;
     items_scraped := items_scraped st; items_filtered := items_filtered st |}.

Definition incr_successful (st : Stats) : Stats :=
  {| total_requests := total_requests st;
     successful_requests := successful_requests st + 1;
     failed_requests := failed_requests st;
     items_scraped := items_scraped st; items_filtered := items_filtered st |}.

Definition incr_failed (st : Stats) : Stats :=
  {| total_requests := total_requests st;
     successful_requests := successful_requests st;
     failed_requests := failed_requests st + 1;
     items_scraped := items_scraped st; items_filtered := items_filtered st |}.

(** [isinstance(e, requests.RequestException)] *)
Definition is_RequestException (e : exn) : bool :=
  match e with
  | RequestException _ => true
  | _ => false
  end.

(** [response.raise_for_status()] *)
Definition raise_for_status (r : Response) : result unit :=
  if (400 <=? status_code r) && (status_code r <? 600)
  then Raise (RequestException (HTTPError (status_code r)))
  else Ok ().

(** The arguments of the [@retry] decorator of [fetch_url], as tenacity
    defines them. *)

(** [stop_after_attempt(max_attempt_number)] *)
Definition stop_after_attempt (max_attempt_number attempt_number : Z) : bool :=
  max_attempt_number <=? attempt_number.

(** [wait_exponential(multiplier, min, max)], with [exp_base = 2] *)
Definition wait_exponential (multiplier min max attempt_number : Z) : Z :=
  let exp := 2 ^ (attempt_number - 1) in
  let result := multiplier * exp in
  Z.max (Z.max 0 min) (Z.min result max).

(** [retry_if_exception_type((requests.RequestException, ConnectionError))] *)
Definition retry_if_exception_type (e : exn) : bool :=
  match e with
  | RequestException _ | ConnectionError => true
  | _ => false
  end.

Section WithEnvironment.

(** [urllib.parse.urlparse]; what [RobotFileParser.read()] obtains for a
    robots.txt url (or the exception it ends with); the settings
    [MAX_RETRIES] and [DEFAULT_HEADERS['User-Agent']]. *)
Variable urlparse : string -> result ParseResult.
Variable read_robots : string -> result RobotFileParser.
Variable MAX_RETRIES : Z.
Variable USER_AGENT : string.

(** [_get_robot_parser] *)
Definition _get_robot_parser (url : string) : M (option RobotFileParser) :=
  parsed_url ← lift (urlparse url);
  let base_url := scheme parsed_url +:+ "://" +:+ netloc parsed_url in
  cached ← gets (fun s => robot_parsers s !! base_url);
  match cached with
  | Some rp => ret rp
  | None =>
      let robots_url := base_url +:+ "/robots.txt" in
      try_except
        (_ ← modify (log_robots robots_url);
         rp ← lift (read_robots robots_url);
         _ ← modify (set_robot_parser base_url (Some rp));
         ret (Some rp))
        (fun _ =>
         _ ← modify (set_robot_parser base_url None);
         ret None)
  end.

(** [can_fetch] *)
Definition can_fetch (url : string) : M bool :=
  rp ← _get_robot_parser url;
  match rp with
  | None => ret true
  | Some rp => ret (rp_can_fetch rp USER_AGENT url)
  end.

(** [self.rate_limiter.wait_if_needed()] *)
Definition rate_limiter_wait (e : RateLimiter.elapse) : M unit := fun s =>
  let '(r, now, rl) := RateLimiter.wait_if_needed e (clock s) (rate_limiter s) in
  (match r with Ok _ => Ok () | Raise ex => Raise ex end,
   set_rate_limiter rl now s).

(** [self.session.request(method, url, **kwargs)] *)
Definition session_request (o : session_outcome) (method url : string)
  : M Response :=
  _ ← modify (log_request method url);
  match o with
  | Responds r => ret r
  | Raises e => raise e
  end.

(** The body of [fetch_url]: one attempt. *)
Definition fetch_url_body (env : attempt_env) (url method : string)
  : M Response :=
  allowed ← can_fetch url;
  if negb allowed then
    raise (ValueError ("URL blocked by robots.txt: " +:+ url))
  else
    _ ← rate_limiter_wait (tick env);
    try_except
      (_ ← modify (set_stats incr_total);
       response ← session_request (outcome env) method url;
       _ ← lift (raise_for_status response);
       _ ← modify (set_stats incr_successful);
       ret response)
      (fun e =>
         if is_RequestException e then
           _ ← modify (set_stats incr_failed);
           raise e
         else raise e).

(** The loop of the [@retry] decorator around the body, counting attempts
    from 1.  [None] means the fuel ran out before the loop ended. *)
Fixpoint retrying (fuel : nat) (attempt_number : Z) (env : Z -> attempt_env)
    (url method : string) (s : State) : option (result Response * State) :=
  match fetch_url_body (env attempt_number) url method s with
  | (Ok response, s') => Some (Ok response, s')
  | (Raise e, s') =>
      if retry_if_exception_type e then
        if stop_after_attempt MAX_RETRIES attempt_number then
          Some (Raise RetryError, s')
        else
          match fuel with
          | O => None
          | S fuel' =>
              let seconds := wait_exponential 1 4 10 attempt_number in
              retrying fuel' (attempt_number + 1) env url method
                       (sleep seconds s')
          end
      else Some (Raise e, s')
  end.

(** [fetch_url] as callers see it. *)
Definition fetch_url (env : Z -> attempt_env) (url method : string) (s : State)
  : option (result Response * State) :=
  retrying (Z.to_nat MAX_RETRIES) 1 env url method s.

(** Several calls of [fetch_url] one after the other. *)
Fixpoint fetch_each (calls : list (string * (Z -> attempt_env)))
    (method : string) (s : State)
  : option (list (result Response) * State) :=
  match calls with
  | [] => Some ([], s)
  | (url, env) :: rest =>
      match fetch_url env url method s with
      | None => None
      | Some (r, s') =>
          match fetch_each rest method s' with
          | None => None
          | Some (rs, s'') => Some (r :: rs, s'')
          end
      end
  end.

End WithEnvironment.

(** [BaseScraper.__init__] *)
Definition init (RATE_LIMIT_CALLS RATE_LIMIT_PERIOD : Z) (now : Z) : State :=
  {| rate_limiter := RateLimiter.init RATE_LIMIT_CALLS RATE_LIMIT_PERIOD;
     robot_parsers := ∅;
     stats := {| total_requests := 0; successful_requests := 0;
                 failed_requests := 0; items_scraped := 0;
                 items_filtered := 0 |};
     clock := now; robots_loaded := []; requests_sent := []; slept := [] |}.

End BaseScraper.

(** ** Notions used in the statements *)

Module Scoring.

Import Validator.

(** One +5 check of the metadata sub-score. *)
Definition check (b : bool) : Z := if b then 5 else 0.

(** [metadata.get(key, '')] *)
Definition field (md : gmap string pyval) (key : string) : pyval :=
  default (PStr "") (md !! key).

Definition channel_matches (md : gmap string pyval) (ch : Channel) : bool :=
  opt_str_eq (channel_name ch) (field md "channel_name").

(** A configured blog matches by its name, or by the domain of its url. *)
Definition blog_matches (urlparse : string -> result ParseResult)
    (md : gmap string pyval) (b : Blog) : bool :=
  opt_str_eq (blog_name b) (field md "blog_name")
  || match netloc_domain urlparse (blog_url b) with
     | Ok blog_domain => str_eq (field md "domain") blog_domain
     | Raise _ => false
     end.

Definition podcast_matches (md : gmap string pyval) (p : Podcast) : bool :=
  opt_str_eq (podcast_name p) (field md "podcast_name").

Definition book_matches (md : gmap string pyval) (b : Book) : bool :=
  opt_str_eq (book_title b) (field md "book_title").

(** ["www."] occurs somewhere in [s]. *)
Fixpoint occurs_www (s : string) : bool :=
  match s with
  | String "w"%char (String "w"%char (String "w"%char (String "."%char _))) =>
      true
  | String _ rest => occurs_www rest
  | EmptyString => false
  end.

(** A plain host name: lower-case letters, digits, hyphens and dots, and
    at least one of them.  No port, no user information, no brackets. *)
Definition is_host_char (c : ascii) : bool :=
  let n := nat_of_ascii c in
  ((97 <=? n) && (n <=? 122) || (48 <=? n) && (n <=? 57)
   || (n =? 45) || (n =? 46))%nat.

Definition plain_host (s : string) : bool :=
  negb (String.eqb s "") && UrlparseAscii.string_forall is_host_char s.

(** What the whitelist of an author holds: the official domains of the
    configuration and, for every configured blog with a url, the network
    location of that url with ["www."] removed, when it is not empty. *)
Definition whitelisted (urlparse : string -> result ParseResult)
    (config : AuthorConfig) (d : string) : Prop :=
  d ∈ official_domains_cfg config \/
  exists blog,
    blog ∈ blogs config /\ blog_url blog <> "" /\
    netloc_domain urlparse (blog_url blog) = Ok d /\ d <> "".

(** Every configured blog url can be parsed. *)
Definition blogs_parse (urlparse : string -> result ParseResult)
    (cfg : AuthorConfig) : Prop :=
  Forall (fun b => is_Ok (urlparse (blog_url b)) = true) (blogs cfg).

(** [content['metadata']['validation']]: the score and the verdict that
    [validate] wrote. *)
Definition verdict (content : gmap string pyval) : option (pyval * pyval) :=
  match content !! "metadata" with
  | Some (PDict md) =>
      match md !! "validation" with
      | Some (PDict validation) =>
          match validation !! "authenticity_score", validation !! "passed" with
          | Some score, Some passed => Some (score, passed)
          | _, _ => None
          end
      | _ => None
      end
  | _ => None
  end.

(** The threshold [filter_by_score] applies: [min_score or
    MIN_AUTHENTICITY_SCORE]. *)
Definition effective_min (MIN_AUTHENTICITY_SCORE : Z) (min_score : option Z) : Z :=
  match min_score with
  | Some m => if m =? 0 then MIN_AUTHENTICITY_SCORE else m
  | None => MIN_AUTHENTICITY_SCORE
  end.

(** What [validate_batch] makes of one record. *)
Definition validated_alone (urlparse : string -> result ParseResult)
    (MIN_AUTHENTICITY_SCORE : Z) (self : AuthenticityValidator)
    (content : gmap string pyval) : gmap string pyval :=
  match validate urlparse MIN_AUTHENTICITY_SCORE self content with
  | (Ok _, content') => content'
  | (Raise _, content') => <["authenticity_score" := PInt 0]> content'
  end.

End Scoring.


(** ** Notions used in the statements about the fetch gateway *)

Module Gateway.

Import BaseScraper.

(** The key under which [_get_robot_parser] caches a host. *)
Definition base_url_of (parsed_url : ParseResult) : string :=
  scheme parsed_url +:+ "://" +:+ netloc parsed_url.

(** What [_get_robot_parser] caches for a host it has not seen. *)
Definition loaded (read_robots : string -> result RobotFileParser)
    (base_url : string) : option RobotFileParser :=
  match read_robots (base_url +:+ "/robots.txt") with
  | Ok rp => Some rp
  | Raise _ => None
  end.

(** The answer of [can_fetch] from a cache entry. *)
Definition allows (USER_AGENT : string) (rp : option RobotFileParser)
    (url : string) : bool :=
  match rp with
  | None => true
  | Some rp => rp_can_fetch rp USER_AGENT url
  end.

(** The attempt ends with an exception that the decorator retries: the
    session raised one, or [raise_for_status] did. *)
Definition retried (o : session_outcome) : bool :=
  match o with
  | Responds r => (400 <=? status_code r) && (status_code r <? 600)
  | Raises e => retry_if_exception_type e
  end.

(** The wait before the retry that follows attempt [n], as the
    specification writes it. *)
Definition backoff (n : Z) : Z := Z.min (Z.max (2 ^ (n - 1)) 4) 10.

(** What one attempt that reaches the session ends with. *)
Definition attempt_result (o : session_outcome) : result Response :=
  match o with
  | Responds r =>
      if (400 <=? status_code r) && (status_code r <? 600)
      then Raise (RequestException (HTTPError (status_code r)))
      else Ok r
  | Raises e => Raise e
  end.

(** The robots cache of [s'] is that of [s], but for hosts loaded since. *)
Definition cache_extends (read_robots : string -> result RobotFileParser)
    (s s' : State) : Prop :=
  forall base_url,
    robot_parsers s' !! base_url = robot_parsers s !! base_url \/
    (robot_parsers s !! base_url = None /\
     robot_parsers s' !! base_url = Some (loaded read_robots base_url)).

(** Nothing but the robots cache and the list of robots files loaded
    differs between [s] and [s']. *)
Definition robots_only (s s' : State) : Prop :=
  rate_limiter s' = rate_limiter s /\
  stats s' = stats s /\
  clock s' = clock s /\
  requests_sent s' = requests_sent s /\
  slept s' = slept s.

(** What a test observes of a call: the result, the counters
    [total_requests], [successful_requests] and [failed_requests], the
    retry waits, the requests sent and the limiter's timestamps. *)
Definition observe (run : option (result Response * State))
  : option (result Response * (Z * Z * Z) * list Z * list (string * string)
            * list Z) :=
  match run with
  | Some (r, s) =>
      Some (r,
            (total_requests (stats s), successful_requests (stats s),
             failed_requests (stats s)),
            slept s, requests_sent s,
            RateLimiter.timestamps (rate_limiter s))
  | None => None
  end.

(** The message of the error raised for a blocked url. *)
Definition blocked (url : string) : exn :=
  ValueError ("URL blocked by robots.txt: " +:+ url).

End Gateway.

(** ** Notions used in the statements about batches and filtering *)

Module Pipeline.

(** [content.get('authenticity_score', 0)] can be compared with an int. *)
Definition comparable (content : gmap string pyval) : bool :=
  match default (PInt 0) (content !! "authenticity_score") with
  | PInt _ | PBool _ => true
  | _ => false
  end.

(** The score a record is filtered by, when it is comparable. *)
Definition score_of (content : gmap string pyval) : Z :=
  match default (PInt 0) (content !! "authenticity_score") with
  | PInt z => z
  | PBool b => int_of_bool b
  | _ => 0
  end.

(** The record holds an int score between 0 and 100. *)
Definition scored_in_range (content : gmap string pyval) : Prop :=
  exists score,
    content !! "authenticity_score" = Some (PInt score) /\ 0 <= score <= 100.

End Pipeline.

(** ** Concrete inputs *)

Module Examples.

Import Validator.

(** The record of the worked example of the specification. *)
Definition example_metadata : gmap string pyval :=
  <["blog_name" := PStr "Tim's Blog"]>
    (<["word_count" := PInt 500]> (<["metrics" := PDict ∅]> ∅)).

Definition example_record (author_id : string) : gmap string pyval :=
  <["author" := PStr author_id]>
    (<["platform" := PStr "blog"]>
       (<["url" := PStr "https://tim.blog/x"]>
          (<["metadata" := PDict example_metadata]> ∅))).

(** A profile with the official domain tim.blog and a blog named
    "Tim's Blog". *)
Definition tim : AuthorConfig :=
  {| author_name := "Tim Ferriss";
     official_domains_cfg := ["tim.blog"];
     blogs := [ {| blog_name := Some "Tim's Blog";
                   blog_url := "https://tim.blog" |} ];
     youtube_channels := [ {| channel_name := Some "Tim Ferriss" |} ];
     podcasts := [ {| podcast_name := Some "The Tim Ferriss Show" |} ];
     books := [ {| book_title := Some "The 4-Hour Workweek" |} ];
     twitter_handle := "@tferriss" |}.

Definition tim_config : gmap string AuthorConfig := {[ "tim_ferriss" := tim ]}.

Definition tim_validator : AuthenticityValidator :=
  {| authors_config := tim_config;
     official_domains := {[ "tim_ferriss" := ["tim.blog"] ]} |}.

(** A validator with nothing configured. *)
Definition bare_validator : AuthenticityValidator :=
  {| authors_config := ∅; official_domains := ∅ |}.

(** A tweet with two metadata keys, by an author without configuration. *)
Definition tweet : gmap string pyval :=
  <["author" := PStr "naval"]>
    (<["platform" := PStr "twitter"]>
       (<["url" := PStr "https://twitter.com/naval/status/1"]>
          (<["metadata" :=
               PDict (<["word_count" := PInt 100]>
                        (<["tweet_id" := PStr "1"]> ∅))]> ∅))).

(** The tweet after one call of [validate], and after a second one. *)
Definition annotated (score : Z) (passed : bool) (content : gmap string pyval)
    (md : gmap string pyval) : gmap string pyval :=
  <["metadata" :=
      PDict (<["validation" :=
                 PDict (<["passed" := PBool passed]>
                          (<["authenticity_score" := PInt score]> ∅))]> md)]>
    (<["authenticity_score" := PInt score]> content).

Definition tweet_once : gmap string pyval :=
  annotated 70 false tweet
    (<["word_count" := PInt 100]> (<["tweet_id" := PStr "1"]> ∅)).

Definition tweet_twice : gmap string pyval :=
  annotated 75 true tweet
    (<["word_count" := PInt 100]> (<["tweet_id" := PStr "1"]> ∅)).

(** A record without the [metadata] key. *)
Definition no_metadata : gmap string pyval :=
  <["author" := PStr "naval"]> (<["platform" := PStr "twitter"]> ∅).

Definition scored (score : Z) : gmap string pyval :=
  <["authenticity_score" := PInt score]> ∅.

(** A host whose robots.txt disallows everything, one that has none. *)
Definition robots_disallow (robots_url : string)
  : result BaseScraper.RobotFileParser :=
  Ok {| BaseScraper.rp_can_fetch := fun _ _ => false |}.

Definition robots_missing (robots_url : string)
  : result BaseScraper.RobotFileParser :=
  Raise OtherError.

(** A server that answers every attempt with the same status, and one
    that answers 503 twice and then 200. *)
Definition always (status : Z) (attempt_number : Z) : BaseScraper.attempt_env :=
  {| BaseScraper.tick := RateLimiter.Elapse 0 0;
     BaseScraper.outcome :=
       BaseScraper.Responds {| BaseScraper.status_code := status |} |}.

Definition recovering (attempt_number : Z) : BaseScraper.attempt_env :=
  {| BaseScraper.tick := RateLimiter.Elapse 0 0;
     BaseScraper.outcome :=
       BaseScraper.Responds
         {| BaseScraper.status_code := if attempt_number <? 3 then 503 else 200 |} |}.

(** A scraper as [__init__] leaves it, with the default settings. *)
Definition fresh_scraper : BaseScraper.State := BaseScraper.init 10 60 0.

End Examples.


(** ** utils/rate_limiter.py: the adaptive limiter *)

Module AdaptiveRateLimiter.

(** The fields of an [AdaptiveRateLimiter]; time as for [RateLimiter]. *)
Record t := mk {
  calls : Z;
  initial_calls : Z;
  period : Z;
  min_calls : Z;
  timestamps : list Z;
  consecutive_rate_limits : Z
}.

(** [AdaptiveRateLimiter.__init__] *)
Definition init (initial_calls period min_calls : Z) : t :=
  mk initial_calls initial_calls period min_calls [] 0.

Definition set_calls (n : Z) (rl : t) : t :=
  mk n (initial_calls rl) (period rl) (min_calls rl) (timestamps rl)
    (consecutive_rate_limits rl).

Definition set_timestamps (ts : list Z) (rl : t) : t :=
  mk (calls rl) (initial_calls rl) (period rl) (min_calls rl) ts
    (consecutive_rate_limits rl).

Definition set_consecutive_rate_limits (n : Z) (rl : t) : t :=
  mk (calls rl) (initial_calls rl) (period rl) (min_calls rl) (timestamps rl) n.

(** [throttle_down]; [//] on ints is floor division. *)
Definition throttle_down (rl : t) : t :=
  let rl := set_consecutive_rate_limits (consecutive_rate_limits rl + 1) rl in
  if min_calls rl <? calls rl then
    set_calls (Z.max (min_calls rl) (calls rl / 2)) rl
  else rl.

(** [throttle_up].  [self.calls * 1.5] is a float product and [int]
    truncates it toward zero; the product is exact in double precision
    while [calls] is at most [2 ^ 51] in absolute value, where
    [int(self.calls * 1.5)] is [3 * calls] divided by 2, rounded toward
    zero. *)
Definition throttle_up (rl : t) : t :=
  if 0 <? consecutive_rate_limits rl then
    set_consecutive_rate_limits (consecutive_rate_limits rl - 1) rl
  else if calls rl <? initial_calls rl then
    set_calls (Z.min (initial_calls rl) (Z.quot (3 * calls rl) 2)) rl
  else rl.

(** [AdaptiveRateLimiter.wait_if_needed]: the body of
    [RateLimiter.wait_if_needed], on the current value of [self.calls]. *)
Definition wait_if_needed (e : RateLimiter.elapse) (clock : Z) (rl : t)
  : result Z * Z * t :=
  let now := clock + RateLimiter.gap e in
  let ts := RateLimiter.evict now (period rl) (timestamps rl) in
  if calls rl <=? Z.of_nat (length ts) then
    match ts with
    | [] => (Raise IndexError, now, set_timestamps ts rl)
    | t0 :: _ =>
        let sleep_time := period rl - (now - t0) in
        if 0 <? sleep_time then
          let now' := now + sleep_time + RateLimiter.over e in
          let ts' := RateLimiter.evict now' (period rl) ts in
          (Ok now', now', set_timestamps (ts' ++ [now']) rl)
        else
          (Ok now, now, set_timestamps (ts ++ [now]) rl)
    end
  else
    (Ok now, now, set_timestamps (ts ++ [now]) rl).

(** What a client does with the limiter, one method call at a time. *)
Inductive op :=
| WaitIfNeeded (e : RateLimiter.elapse)
| ThrottleDown
| ThrottleUp.

(** A sequence of method calls on one limiter; the first component
    collects the timestamps recorded, in order. *)
Fixpoint run (ops : list op) (clock : Z) (rl : t) : list Z * Z * t :=
  match ops with
  | [] => ([], clock, rl)
  | WaitIfNeeded e :: ops' =>
      let '(r, clock1, rl1) := wait_if_needed e clock rl in
      let '(h, clock2, rl2) := run ops' clock1 rl1 in
      (match r with Ok now => now :: h | Raise _ => h end, clock2, rl2)
  | ThrottleDown :: ops' => run ops' clock (throttle_down rl)
  | ThrottleUp :: ops' => run ops' clock (throttle_up rl)
  end.

Definition honest_op (o : op) : Prop :=
  match o with
  | WaitIfNeeded e => RateLimiter.honest e
  | ThrottleDown | ThrottleUp => True
  end.

(** The calls to [wait_if_needed] among [ops]. *)
Fixpoint waits (ops : list op) : nat :=
  match ops with
  | [] => 0
  | WaitIfNeeded _ :: ops' => S (waits ops')
  | _ :: ops' => waits ops'
  end.

End AdaptiveRateLimiter.

(** ** scrapers/base_scraper.py: content objects *)

Module ContentObjects.

(** [c.isspace()] for a character below 256. *)
Definition is_space (c : ascii) : bool :=
  let n := nat_of_ascii c in
  ((9 <=? n) && (n <=? 13) || (28 <=? n) && (n <=? 32)
   || (n =? 133) || (n =? 160))%nat.

(** [s.split()]: the maximal runs of characters that are not whitespace;
    [word] is the run being read. *)
Fixpoint split_from (word s : string) : list string :=
  match s with
  | EmptyString => if String.eqb word "" then [] else [word]
  | String c rest =>
      if is_space c then
        if String.eqb word "" then split_from "" rest
        else word :: split_from "" rest
      else split_from (word +:+ String c "") rest
  end.

Definition split (s : string) : list string := split_from "" s.

Section WithEnvironment.

(** [hashlib.sha256(s.encode()).hexdigest()] *)
Variable sha256_hexdigest : string -> string.

(** [self.author_id], [self.author_name] *)
Variable author_id author_name : string.

(** [config.settings.MIN_CONTENT_LENGTH] *)
Variable MIN_CONTENT_LENGTH : Z.

(** [metadata or {}] *)
Definition or_empty (metadata : option (gmap string pyval))
  : gmap string pyval :=
  match metadata with
  | Some md => if truthy (PDict md) then md else ∅
  | None => ∅
  end.

(** [generate_content_id] *)
Definition generate_content_id (content url : string) : string :=
  let combined := url +:+ ":" +:+ substring 0 1000 content in
  sha256_hexdigest combined.

(** [create_content_object].  [date_published] is the [isoformat()] of the
    date when there is one, [date_scraped] that of [datetime.now()]. *)
Definition create_content_object (title content url : string)
    (date_published : option string) (platform content_type : string)
    (metadata : option (gmap string pyval)) (date_scraped : string)
  : gmap string pyval :=
  let content_id := generate_content_id content url in
  let metadata := or_empty metadata in
  let content_obj : gmap string pyval :=
    <["id" := PStr content_id]> (
    <["author" := PStr author_id]> (
    <["author_name" := PStr author_name]> (
    <["platform" := PStr platform]> (
    <["content_type" := PStr content_type]> (
    <["title" := PStr title]> (
    <["content" := PStr content]> (
    <["url" := PStr url]> (
    <["date_published" :=
        match date_published with Some d => PStr d | None => PNone end]> (
    <["date_scraped" := PStr date_scraped]> (
    <["authenticity_score" := PNone]> (
    <["metadata" := PDict metadata]> (
    <["embeddings" := PList []]> (
    <["processed" := PBool false]> ∅))))))))))))) in
  let word_count := Z.of_nat (length (split content)) in
  <["metadata" := PDict (<["word_count" := PInt word_count]> metadata)]>
    content_obj.

(** [validate_content] *)
Definition validate_content (content_obj : gmap string pyval) : result bool :=
  let required_fields := ["title"; "content"; "url"] in
  missing ← for_return required_fields (fun field =>
    if negb (truthy (default PNone (content_obj !! field)))
    then Ok (Some false) else Ok None);
  match missing with
  | Some answer => Ok answer
  | None =>
      match content_obj !! "content" with
      | None => Raise (KeyError "content")
      | Some content =>
          n ← py_len content;
          if n <? MIN_CONTENT_LENGTH then Ok false else Ok true
      end
  end.

End WithEnvironment.

End ContentObjects.

(** ** Notions used in the statements about the limiters *)

Module Limiter.

(** Oldest first: no timestamp is later than one that follows it. *)
Fixpoint ascending (ts : list Z) : Prop :=
  match ts with
  | [] => True
  | t0 :: rest => Forall (fun t => t0 <= t) rest /\ ascending rest
  end.

(** The recorded timestamps that are still inside the window at [now]. *)
Definition in_window (P now : Z) (hist : list Z) : list Z :=
  filter (fun t => now - P < t) hist.

(** The invariant of a deque [ts] that serves a limit of at most [N] calls
    per period [P]: it is what is left of the history after dropping
    timestamps that have left the window for good. *)
Record tracks (N P clock : Z) (ts hist : list Z) : Prop := Tracks {
  tracks_old : exists old,
      hist = old ++ ts /\ Forall (fun x => x <= clock - P) old;
  tracks_past : Forall (fun x => x <= clock) hist;
  tracks_len : Z.of_nat (length ts) <= N;
  tracks_window :
    forall t, Z.of_nat (RateLimiter.window_count P t hist) <= N
}.

(** An adaptive limiter constructed with [initial_calls = I], [period = P]
    and [min_calls = m], with its limit between the two bounds. *)
Record configured (I P m : Z) (rl : AdaptiveRateLimiter.t) : Prop := Configured {
  configured_initial : AdaptiveRateLimiter.initial_calls rl = I;
  configured_period : AdaptiveRateLimiter.period rl = P;
  configured_min : AdaptiveRateLimiter.min_calls rl = m;
  configured_calls : m <= AdaptiveRateLimiter.calls rl <= I;
  configured_counter : 0 <= AdaptiveRateLimiter.consecutive_rate_limits rl
}.

End Limiter.

(** ** More concrete inputs *)

Module MoreExamples.

Import Validator Examples.

(** An author with a blog and no official domain listed. *)
Definition blogger : AuthorConfig :=
  {| author_name := "Naval";
     official_domains_cfg := [];
     blogs := [ {| blog_name := Some "Naval"; blog_url := "https://www.nav.al/" |} ];
     youtube_channels := []; podcasts := []; books := [];
     twitter_handle := "naval" |}.

Definition blogger_config : gmap string AuthorConfig := {[ "naval" := blogger ]}.

Definition blogger_validator : AuthenticityValidator :=
  {| authors_config := blogger_config;
     official_domains := {[ "naval" := ["nav.al"] ]} |}.

(** The metadata of the tweet once it is annotated. *)
Definition tweet_metadata_once : gmap string pyval :=
  <["validation" :=
      PDict (<["passed" := PBool false]>
               (<["authenticity_score" := PInt 70]> ∅))]>
    (<["word_count" := PInt 100]> (<["tweet_id" := PStr "1"]> ∅)).

(** A record as [create_content_object] leaves it: the score is [None]. *)
Definition unscored : gmap string pyval :=
  <["authenticity_score" := PNone]> ∅.

(** The scraper after the call that answered 404 three times. *)
Definition after_404 : BaseScraper.State :=
  {| BaseScraper.rate_limiter := RateLimiter.mk 10 60 [0; 4; 8];
     BaseScraper.robot_parsers := {[ "https://tim.blog" := None ]};
     BaseScraper.stats :=
       {| BaseScraper.total_requests := 3;
          BaseScraper.successful_requests := 0;
          BaseScraper.failed_requests := 3;
          BaseScraper.items_scraped := 0;
          BaseScraper.items_filtered := 0 |};
     BaseScraper.clock := 8;
     BaseScraper.robots_loaded := ["https://tim.blog/robots.txt"];
     BaseScraper.requests_sent :=
       [("GET", "https://tim.blog/x"); ("GET", "https://tim.blog/x");
        ("GET", "https://tim.blog/x")];
     BaseScraper.slept := [4; 4] |}.

(** The doubles 0.1, 0.3 and 60.099999999999994. *)
Definition tenth : Double.float := Double.div (Double.of_int 1) (Double.of_int 10).

Definition three_tenths : Double.float :=
  Double.div (Double.of_int 3) (Double.of_int 10).

Definition just_under_a_minute_later : Double.float :=
  SpecFloat.S754_finite false 8458323050155212 (-47).

(** A clock that reads [now] when the call starts and on which
    [time.sleep(d)] returns on time: the next reading is [now + d]. *)
Definition punctual (now : Double.float) : RateLimiterOnDoubles.readings :=
  {| RateLimiterOnDoubles.entry := now;
     RateLimiterOnDoubles.wake := fun d => Double.add now d |}.

(** A limiter throttled down to one call per minute by four rate-limit
    signals. *)
Definition throttled : AdaptiveRateLimiter.t :=
  AdaptiveRateLimiter.mk 1 10 60 1 [] 4.

(** A stand-in for the digest, to run [generate_content_id] on concrete
    inputs. *)
Definition plain_digest (s : string) : string := s.

Fixpoint repeat_string (n : nat) (s : string) : string :=
  match n with
  | O => ""
  | S n' => s +:+ repeat_string n' s
  end.

Definition thousand_chars : string := repeat_string 1000 "a".

(** A blog post as [BlogScraper] builds it. *)
Definition post_metadata : gmap string pyval :=
  <["blog_name" := PStr "Tim's Blog"]> (<["domain" := PStr "tim.blog"]> ∅).

Definition post : gmap string pyval :=
  ContentObjects.create_content_object plain_digest "tim_ferriss" "Tim Ferriss"
    "On writing" "Write every day" "https://tim.blog/writing" None
    "blog" "article" (Some post_metadata) "2024-01-01T00:00:00".

End MoreExamples.

(** * Properties *)

(** Lookups in a map written with inserts under literal keys. *)
Ltac lookup_insert :=
  repeat first
    [ rewrite lookup_insert_eq
    | rewrite lookup_insert_ne by (intros ?; discriminate) ].

(** A closed equation, by evaluation of both sides. *)
Ltac by_vm :=
  match goal with
  | |- _ = ?rhs => vm_cast_no_check (@eq_refl _ rhs)
  end.

(** ** urlparse on plain URLs *)

Example urlparse_tim :
  UrlparseAscii.urlparse "https://tim.blog/post/1" = Ok {| scheme := "https"; netloc := "tim.blog" |}.
Proof. reflexivity. Qed.

Example urlparse_www :
  UrlparseAscii.urlparse "HTTP://www.example.com:80?q#f"
  = Ok {| scheme := "http"; netloc := "www.example.com:80" |}.
Proof. reflexivity. Qed.

Example urlparse_empty : UrlparseAscii.urlparse "" = Ok {| scheme := ""; netloc := "" |}.
Proof. reflexivity. Qed.

Example urlparse_bracket : is_Ok (UrlparseAscii.urlparse "http://[::1/x") = false.
Proof. reflexivity. Qed.

(** ** The rate limiter *)

Section RateLimiterProperties.

Import RateLimiter.

Lemma evict_split now P ts :
  exists dropped,
    ts = dropped ++ evict now P ts /\
    Forall (fun x => x <= now - P) dropped /\
    match evict now P ts with
    | [] => True
    | t0 :: _ => now - P < t0
    end.
Proof.
  induction ts as [|a ts IH]; simpl.
  - exists []. split; [done|]. split; [constructor | done].
  - destruct (Z.leb_spec a (now - P)) as [Hle|Hgt].
    + destruct IH as (d & Heq & Hd & Hhd).
      exists (a :: d). split; [simpl; congruence|].
      split; [by constructor | done].
    + exists []. split; [done|]. split; [constructor | done].
Qed.

Lemma evict_length now P ts : (length (evict now P ts) <= length ts)%nat.
Proof.
  destruct (evict_split now P ts) as (d & Heq & _).
  rewrite Heq at 2. rewrite length_app. lia.
Qed.

Lemma window_count_app P t l1 l2 :
  window_count P t (l1 ++ l2) = (window_count P t l1 + window_count P t l2)%nat.
Proof. unfold window_count. by rewrite filter_app, length_app. Qed.

Lemma window_count_old P t bound l :
  bound <= t ->
  Forall (fun x => x <= bound - P) l ->
  window_count P t l = 0%nat.
Proof.
  intros Hb Hl. unfold window_count.
  induction Hl as [|x l Hx _ IH]; [done|].
  rewrite filter_cons_False; [done | lia].
Qed.

Lemma window_count_future P t x :
  t < x -> window_count P t [x] = 0%nat.
Proof.
  intros Hx. unfold window_count.
  rewrite filter_cons_False; [done | lia].
Qed.

Lemma window_count_le_length P t l : (window_count P t l <= length l)%nat.
Proof. apply length_filter. Qed.

Lemma inv_init N P clock : 0 <= N -> inv N P clock (init N P) [].
Proof.
  intros HN. split; simpl.
  - done.
  - done.
  - exists []. split; [done | constructor].
  - constructor.
  - lia.
  - intros t. unfold window_count. simpl. lia.
Qed.

(** Appending a timestamp [now'] at or after the clock keeps the invariant,
    provided the deque it joins is short of the capacity. *)
Lemma inv_record N P clock now' old ts hist :
  0 <= N ->
  clock <= now' ->
  hist = old ++ ts ->
  Forall (fun x => x <= now' - P) old ->
  Forall (fun x => x <= clock) hist ->
  Z.of_nat (length ts) < N ->
  (forall t, Z.of_nat (window_count P t hist) <= N) ->
  inv N P now' (mk N P (ts ++ [now'])) (hist ++ [now']).
Proof.
  intros HN Hclk Hhist Hold Hpast Hlen Hwin. split; simpl.
  - done.
  - done.
  - exists old. split; [by rewrite Hhist, <- app_assoc | done].
  - apply Forall_app. split.
    + eapply Forall_impl; [exact Hpast | simpl; intros; lia].
    + by repeat constructor.
  - rewrite length_app. simpl. lia.
  - intros t. rewrite window_count_app.
    destruct (Z.lt_ge_cases t now') as [Hlt|Hge].
    + rewrite (window_count_future P t now' Hlt). specialize (Hwin t). lia.
    + rewrite Hhist, window_count_app.
      rewrite (window_count_old P t now' old Hge Hold).
      pose proof (window_count_le_length P t ts).
      pose proof (window_count_le_length P t [now']). simpl in *. lia.
Qed.

Lemma wait_if_needed_inv N P e clock rl hist r clock' rl' :
  0 <= N -> honest e ->
  inv N P clock rl hist ->
  wait_if_needed e clock rl = (r, clock', rl') ->
  clock <= clock' /\
  inv N P clock' rl' (match r with Ok now => hist ++ [now] | Raise _ => hist end) /\
  (1 <= N -> is_Ok r = true).
Proof.
  intros HN [Hgap Hover] [Hc Hp (old & Hhist & Hold) Hpast Hlen Hwin].
  unfold wait_if_needed. rewrite Hc, Hp.
  set (now := clock + gap e).
  destruct (evict_split now P (timestamps rl)) as (d & Hsplit & Hd & Hhd).
  pose proof (evict_length now P (timestamps rl)) as Hel.
  set (ts := evict now P (timestamps rl)) in *.
  assert (Hold' : Forall (fun x => x <= now - P) (old ++ d)).
  { apply Forall_app. split; [|done].
    eapply Forall_impl; [exact Hold | simpl; intros; lia]. }
  assert (Hhist' : hist = (old ++ d) ++ ts).
  { by rewrite Hhist, Hsplit at 1; rewrite app_assoc. }
  destruct (Z.leb_spec N (Z.of_nat (length ts))) as [Hfull|Hroom].
  - destruct ts as [|t0 ts0] eqn:Ets.
    + (* capacity 0 or less: IndexError *)
      intros [= <- <- <-]. simpl in Hfull.
      split; [lia|]. split; [|lia].
      split; simpl.
      * done.
      * done.
      * exists (old ++ d).
        split; [exact Hhist' | exact Hold'].
      * eapply Forall_impl; [exact Hpast | simpl; intros; lia].
      * lia.
      * done.
    + destruct (Z.ltb_spec 0 (P - (now - t0))) as [Hsleep|Hno]; [|lia].
      set (now' := now + (P - (now - t0)) + over e).
      assert (Hnow' : t0 <= now' - P) by (unfold now'; lia).
      assert (Hev : evict now' P (t0 :: ts0) = evict now' P ts0).
      { simpl. destruct (Z.leb_spec t0 (now' - P)); [done | lia]. }
      rewrite Hev. intros [= <- <- <-].
      destruct (evict_split now' P ts0) as (d' & Hsplit' & Hd' & _).
      pose proof (evict_length now' P ts0) as Hel'.
      split; [unfold now'; lia|]. split; [|done].
      apply (inv_record N P clock now' ((old ++ d) ++ t0 :: d')
               (evict now' P ts0) hist).
      * done.
      * unfold now'. lia.
      * rewrite Hhist'. rewrite Hsplit' at 1.
        by rewrite <- !app_assoc.
      * apply Forall_app. split.
        -- eapply Forall_impl; [exact Hold' | simpl; intros; unfold now'; lia].
        -- by constructor.
      * done.
      * simpl in Hel, Hfull. lia.
      * done.
  - intros [= <- <- <-].
    split; [lia|]. split; [|done].
    apply (inv_record N P clock now (old ++ d) ts hist); try done. lia.
Qed.

Lemma acquire_all_inv N P es : forall clock rl hist h clock' rl',
  0 <= N -> Forall honest es ->
  inv N P clock rl hist ->
  acquire_all es clock rl = (h, clock', rl') ->
  inv N P clock' rl' (hist ++ h) /\
  (1 <= N -> length h = length es).
Proof.
  induction es as [|e es IH]; intros clock rl hist h clock' rl' HN Hes Hinv; simpl.
  - intros [= <- <- <-]. by rewrite app_nil_r.
  - destruct (wait_if_needed e clock rl) as [[r clock1] rl1] eqn:Hstep.
    destruct (acquire_all es clock1 rl1) as [[h1 clock2] rl2] eqn:Hrest.
    intros [= <- <- <-].
    apply Forall_cons in Hes as [He Hes].
    destruct (wait_if_needed_inv N P e clock rl hist r clock1 rl1 HN He Hinv Hstep)
      as (_ & Hinv1 & Hok).
    destruct (IH _ _ _ _ _ _ HN Hes Hinv1 Hrest) as [Hinv2 Hlen].
    destruct r as [now|ex]; simpl.
    + rewrite <- app_assoc in Hinv2. split; [done|].
      intros H1. simpl. by rewrite Hlen.
    + split; [done|]. intros H1. by specialize (Hok H1).
Qed.

(** X24.  Sliding-window invariant, on a clock that reads whole seconds
    (where the double arithmetic of the code is exact).  On a limiter
    constructed with [calls = N] and [period = P], whatever the sequence of
    acquisitions (with a clock that does not run backwards and a sleep that
    does not return early), no trailing window [(t - P, t]] ever contains
    more than [N] recorded timestamps, and the deque never holds more than
    [N] entries; with a capacity of at least one, every call returns and
    records its timestamp, sleeping [period - (now - oldest)] and evicting
    again when the window is full. *)
Theorem sliding_window_invariant (N P c0 : Z) (es : list elapse) :
  0 <= N ->
  Forall honest es ->
  forall hist clock rl,
    acquire_all es c0 (init N P) = (hist, clock, rl) ->
    (forall t, Z.of_nat (window_count P t hist) <= N) /\
    Z.of_nat (length (timestamps rl)) <= N /\
    (1 <= N -> length hist = length es).
Proof.
  intros HN Hes hist clock rl Hrun.
  destruct (acquire_all_inv N P es c0 (init N P) [] hist clock rl HN Hes
              (inv_init N P c0 HN) Hrun) as [Hinv Hlen].
  simpl in Hinv. destruct Hinv. done.
Qed.

(** Three immediate acquisitions with [calls = 2], [period = 60]: the third
    one sleeps until the first timestamp leaves the window. *)
Example three_immediate_calls :
  acquire_all [Elapse 0 0; Elapse 0 0; Elapse 0 0] 0 (init 2 60)
  = ([0; 0; 60], 60, mk 2 60 [60]).
Proof. reflexivity. Qed.

Lemma sliding_window_invariant_witness :
  (forall t, Z.of_nat (window_count 60 t [0; 0; 60]) <= 2) /\
  Z.of_nat (length (timestamps (mk 2 60 [60]))) <= 2 /\
  (1 <= 2 -> length [0; 0; 60] = length [Elapse 0 0; Elapse 0 0; Elapse 0 0]).
Proof.
  apply (sliding_window_invariant 2 60 0 [Elapse 0 0; Elapse 0 0; Elapse 0 0])
    with (clock := 60).
  - lia.
  - repeat constructor; simpl; lia.
  - reflexivity.
Defined.

End RateLimiterProperties.

(** ** The authenticity validator *)

Section ValidatorProperties.

Import Validator Scoring Examples.

Variable urlparse : string -> result ParseResult.
Variable MIN_AUTHENTICITY_SCORE : Z.
Variable self : AuthenticityValidator.

(** A loop that only tests its elements returns at the first hit. *)
Lemma for_return_test {A R} (l : list A) (test : A -> bool) (r : R) :
  for_return l (fun x => if test x then Ok (Some r) else Ok None)
  = Ok (if existsb test l then Some r else None).
Proof.
  induction l as [|x l IH]; simpl; [done|].
  destruct (test x); simpl; [done | exact IH].
Qed.

Lemma existsb_true_iff {A} (test : A -> bool) (l : list A) :
  existsb test l = true <-> exists x, x ∈ l /\ test x = true.
Proof.
  rewrite existsb_exists. split; intros (x & Hx & Ht); exists x.
  - by rewrite list_elem_of_In.
  - by rewrite <- list_elem_of_In.
Qed.

Lemma existsb_false_iff {A} (test : A -> bool) (l : list A) :
  existsb test l = false <-> forall x, x ∈ l -> test x = false.
Proof.
  split.
  - intros H x Hx. destruct (test x) eqn:E; [|done].
    assert (existsb test l = true) by (apply existsb_true_iff; eauto).
    congruence.
  - intros H. destruct (existsb test l) eqn:E; [|done].
    apply existsb_true_iff in E as (x & Hx & Ht).
    rewrite (H x Hx) in Ht. done.
Qed.

Lemma truthy_str (s : string) : truthy (PStr s) = false <-> s = "".
Proof.
  simpl. destruct (String.eqb_spec s ""); simpl; split; congruence.
Qed.

Lemma bind_Ok {A B} (a : A) (k : A -> result B) : (Ok a ≫= k) = k a.
Proof. reflexivity. Qed.

(** The whitelist that [__init__] builds holds, for every configured
    author, the configured official domains followed by blog domains, and
    nothing for any other author. *)
Lemma add_blog_domains_keeps (bs : list Blog) :
  forall domains domains',
    add_blog_domains urlparse bs domains = Ok domains' ->
    forall d, d ∈ domains -> d ∈ domains'.
Proof.
  induction bs as [|blog rest IH]; intros domains domains'; simpl.
  - by intros [= <-].
  - destruct (negb (String.eqb (blog_url blog) "")); [|by apply IH].
    destruct (netloc_domain urlparse (blog_url blog)) as [domain|e]; [|done].
    rewrite bind_Ok.
    destruct (negb (String.eqb domain "")
              && negb (bool_decide (domain ∈ domains))).
    + intros Hrest d Hd. apply (IH _ _ Hrest). apply elem_of_app. by left.
    + by apply IH.
Qed.

Lemma whitelist_of_config (cfg : gmap string AuthorConfig)
    (whitelist : gmap string (list string)) :
  _build_domain_whitelist urlparse cfg = Ok whitelist ->
  forall author_id,
    match cfg !! author_id with
    | Some config =>
        exists domains,
          author_whitelist urlparse config = Ok domains /\
          whitelist !! author_id = Some domains /\
          forall d, d ∈ official_domains_cfg config -> d ∈ domains
    | None => whitelist !! author_id = None
    end.
Proof.
  unfold _build_domain_whitelist. revert whitelist.
  apply (map_fold_weak_ind (fun r m => forall whitelist, r = Ok whitelist ->
    forall author_id,
      match m !! author_id with
      | Some config =>
          exists domains,
            author_whitelist urlparse config = Ok domains /\
            whitelist !! author_id = Some domains /\
            forall d, d ∈ official_domains_cfg config -> d ∈ domains
      | None => whitelist !! author_id = None
      end)).
  - intros whitelist [= <-] author_id. by rewrite !lookup_empty.
  - intros i config m r Hfresh IH whitelist.
    destruct r as [acc|e]; [|done]. rewrite bind_Ok.
    destruct (author_whitelist urlparse config) as [domains|e] eqn:Hdomains;
      [|done].
    rewrite bind_Ok. intros [= <-] author_id.
    destruct (decide (author_id = i)) as [->|Hne].
    + rewrite !lookup_insert_eq. exists domains.
      split; [done|]. split; [done|].
      by apply (add_blog_domains_keeps (blogs config)).
    + rewrite !lookup_insert_ne by done. by apply IH.
Qed.

Lemma verify_domain_eq (author_id url : string) :
  url <> "" ->
  let official := default [] (official_domains self !! author_id) in
  _verify_domain urlparse self (PStr author_id) (PStr url)
  = if bool_decide (official = []) then Ok 20 else
    match netloc_domain urlparse url with
    | Ok domain =>
        if bool_decide (domain ∈ official) then Ok 40 else
        if existsb (fun d => endswith domain ("." +:+ d)
                             || String.eqb domain d) official
        then Ok 35 else Ok 0
    | Raise _ => Ok 0
    end.
Proof.
  intros Hurl official. unfold _verify_domain.
  destruct (truthy (PStr url)) eqn:Ht.
  2:{ apply truthy_str in Ht. done. }
  simpl. fold official.
  destruct (bool_decide (official = [])); [done|].
  destruct (netloc_domain urlparse url) as [domain|e]; [|done].
  destruct (bool_decide (domain ∈ official)); [done|].
  rewrite for_return_test. simpl.
  by destruct (existsb _ official).
Qed.

Lemma verify_blog_loop (md : gmap string pyval) (bs : list Blog) :
  Forall (fun b => is_Ok (urlparse (blog_url b)) = true) bs ->
  for_return bs (fun blog =>
    if opt_str_eq (blog_name blog) (field md "blog_name") then Ok (Some 40) else
    blog_domain ← netloc_domain urlparse (blog_url blog);
    if str_eq (field md "domain") blog_domain then Ok (Some 40) else Ok None)
  = Ok (if existsb (blog_matches urlparse md) bs then Some 40 else None).
Proof.
  induction 1 as [|b bs Hb _ IH]; simpl; [done|].
  unfold blog_matches at 1.
  destruct (opt_str_eq (blog_name b) (field md "blog_name")); simpl; [done|].
  unfold netloc_domain in *.
  destruct (urlparse (blog_url b)) as [pr|e]; simpl in *; [|done].
  destruct (str_eq (field md "domain") (replace_www (netloc pr))); simpl; [done|].
  exact IH.
Qed.

Lemma verify_platform_blog (author_id : string) (md : gmap string pyval) :
  let cfg := default no_config (authors_config self !! author_id) in
  blogs_parse urlparse cfg ->
  _verify_platform urlparse self (PStr author_id) (PStr "blog") (PDict md)
  = Ok (if existsb (blog_matches urlparse md) (blogs cfg) then 40 else 15).
Proof.
  intros cfg Hparse. unfold _verify_platform. simpl get_by_key. fold cfg.
  rewrite bind_Ok. simpl str_eq. simpl negb. cbv iota.
  unfold _verify_blog, py_get. rewrite !bind_Ok.
  pose proof (verify_blog_loop md (blogs cfg) Hparse) as Hloop.
  unfold field in Hloop. rewrite Hloop, bind_Ok.
  by destruct (existsb _ (blogs cfg)).
Qed.

(** C6, as amended.  Platform sub-score, by platform: 0 for the empty
    platform; twitter 40; youtube 40 on a channel-name match, else 30
    when the author has no channels configured, else 15; blog 40 on a
    blog-name or blog-domain match, else 15 (the configured blog urls being
    parsable); podcast 40 on a match, else 25; book 40 on a match, else 10;
    and 20 for every other, non-empty, platform. *)
Theorem platform_subscore (author_id platform : string) (md : gmap string pyval) :
  let cfg := default no_config (authors_config self !! author_id) in
  let score :=
    _verify_platform urlparse self (PStr author_id) (PStr platform) (PDict md) in
  (platform = "" -> score = Ok 0) /\
  (platform = "twitter" -> score = Ok 40) /\
  (platform = "youtube" ->
     score = Ok (if existsb (channel_matches md) (youtube_channels cfg) then 40
                 else if bool_decide (youtube_channels cfg = []) then 30
                 else 15)) /\
  (platform = "blog" -> blogs_parse urlparse cfg ->
     score = Ok (if existsb (blog_matches urlparse md) (blogs cfg) then 40
                 else 15)) /\
  (platform = "podcast" ->
     score = Ok (if existsb (podcast_matches md) (podcasts cfg) then 40
                 else 25)) /\
  (platform = "book" ->
     score = Ok (if existsb (book_matches md) (books cfg) then 40 else 10)) /\
  (platform ∉ [""; "twitter"; "youtube"; "blog"; "podcast"; "book"] ->
     score = Ok 20).
Proof.
  intros cfg score. unfold score, _verify_platform. simpl get_by_key.
  fold cfg. repeat split.
  - intros ->. done.
  - intros ->. done.
  - intros ->. simpl. unfold _verify_youtube. simpl.
    rewrite for_return_test. simpl.
    unfold channel_matches, field.
    destruct (existsb _ (youtube_channels cfg)); [done|].
    by destruct (bool_decide (youtube_channels cfg = [])).
  - intros -> Hparse. exact (verify_platform_blog author_id md Hparse).
  - intros ->. simpl. unfold _verify_podcast. simpl.
    rewrite for_return_test. simpl.
    unfold podcast_matches, field.
    by destruct (existsb _ (podcasts cfg)).
  - intros ->. simpl. unfold _verify_book. simpl.
    rewrite for_return_test. simpl.
    unfold book_matches, field.
    by destruct (existsb _ (books cfg)).
  - intros Hother.
    assert (Hne : forall lit,
               lit ∈ [""; "twitter"; "youtube"; "blog"; "podcast"; "book"] ->
               platform <> lit).
    { intros lit Hlit ->. done. }
    assert (truthy (PStr platform) = true) as ->.
    { destruct (truthy (PStr platform)) eqn:Ht; [done|].
      apply truthy_str in Ht. exfalso. apply (Hne ""); [set_solver | done]. }
    simpl negb. cbv iota. simpl mbind.
    assert (Heqb : forall lit,
               lit ∈ [""; "twitter"; "youtube"; "blog"; "podcast"; "book"] ->
               (platform =? lit)%string = false).
    { intros lit Hlit. apply String.eqb_neq. by apply Hne. }
    rewrite !Heqb; [done|..]; set_solver.
Qed.

Lemma verify_metadata_eq (author_id : string) (md : gmap string pyval) (n : Z) :
  default (PInt 0) (md !! "word_count") = PInt n ->
  _verify_metadata self (PStr author_id) (PDict md)
  = Ok (check (50 <? n)
        + check (truthy (default PNone (md !! "metrics")))
        + check (negb (n =? 0))
        + check (2 <? Z.of_nat (size md))).
Proof.
  intros Hwc.
  assert (Hthird : truthy (default PNone (md !! "word_count")) = negb (n =? 0)).
  { destruct (md !! "word_count") as [v|]; simpl in *.
    - by subst v.
    - by injection Hwc as <-. }
  unfold _verify_metadata. simpl. rewrite Hwc. simpl. rewrite Hthird.
  unfold check.
  by destruct (50 <? n), (truthy (default PNone (md !! "metrics"))),
    (negb (n =? 0)), (2 <? Z.of_nat (size md)).
Qed.

(** C7, as amended.  Metadata sub-score, for a metadata dict whose
    [word_count] is missing or an int [n] (0 when missing): the sum of four
    +5 checks, [n > 50], [metrics] truthy, [n] non-zero, more than two keys;
    hence one of 0, 5, 10, 15, 20. *)
Theorem metadata_subscore (author_id : string) (md : gmap string pyval) (n : Z) :
  default (PInt 0) (md !! "word_count") = PInt n ->
  let score :=
    check (50 <? n)
    + check (truthy (default PNone (md !! "metrics")))
    + check (negb (n =? 0))
    + check (2 <? Z.of_nat (size md)) in
  _verify_metadata self (PStr author_id) (PDict md) = Ok score /\
  score ∈ [0; 5; 10; 15; 20].
Proof.
  clear urlparse MIN_AUTHENTICITY_SCORE.
  intros Hwc score. split; [exact (verify_metadata_eq author_id md n Hwc)|].
  unfold score, check.
  destruct (50 <? n), (truthy (default PNone (md !! "metrics"))),
    (negb (n =? 0)), (2 <? Z.of_nat (size md)); simpl; set_solver.
Qed.

(** [validate] on a record with an author, and a metadata dict that has
    no [validation] entry yet. *)
Lemma validate_fresh (content md : gmap string pyval) (author_id : pyval)
    (score threshold : Z) :
  content !! "author" = Some author_id ->
  truthy author_id = true ->
  content !! "metadata" = Some (PDict md) ->
  md !! "validation" = None ->
  _calculate_authenticity_score urlparse self author_id
    (default (PStr "") (content !! "platform"))
    (default (PStr "") (content !! "url")) (PDict md) = Ok score ->
  validate urlparse threshold self content
  = (Ok (),
     <["metadata" :=
         PDict (<["validation" :=
                    PDict (<["passed" :=
                               PBool (threshold <=? score)]>
                             (<["authenticity_score" := PInt score]> ∅))]>
                  (<["validation" := PDict ∅]> md))]>
       (<["authenticity_score" := PInt score]> content)).
Proof.
  intros Hauthor Htruthy Hmd Hfresh Hscore.
  unfold validate. rewrite Hauthor, Hmd. simpl default.
  rewrite Htruthy. simpl negb. cbv iota. rewrite Hscore.
  rewrite lookup_insert_ne by done. rewrite Hmd, Hfresh.
  by rewrite lookup_insert_eq.
Qed.

(** C3, as amended.  The worked example: the blog record at
    [https://tim.blog/x] with metadata [blog_name], [word_count = 500] and
    an empty [metrics], against a profile whose official domains include
    tim.blog and whose blogs include one named "Tim's Blog", scores
    domain 40, platform 40, metadata 15 (the empty [metrics] earns
    nothing), total 95, and passes at the threshold 75. *)
Theorem worked_example (author_id : string) (cfg : AuthorConfig) :
  author_id <> "" ->
  authors_config self !! author_id = Some cfg ->
  "tim.blog" ∈ default [] (official_domains self !! author_id) ->
  (exists b, b ∈ blogs cfg /\ blog_name b = Some "Tim's Blog") ->
  blogs_parse urlparse cfg ->
  urlparse "https://tim.blog/x" = Ok {| scheme := "https"; netloc := "tim.blog" |} ->
  let author := PStr author_id in
  let metadata := PDict example_metadata in
  _verify_domain urlparse self author (PStr "https://tim.blog/x") = Ok 40 /\
  _verify_platform urlparse self author (PStr "blog") metadata = Ok 40 /\
  _verify_metadata self author metadata = Ok 15 /\
  _calculate_authenticity_score urlparse self author (PStr "blog")
    (PStr "https://tim.blog/x") metadata = Ok 95 /\
  exists content,
    validate urlparse 75 self (example_record author_id) = (Ok (), content) /\
    content !! "authenticity_score" = Some (PInt 95) /\
    verdict content = Some (PInt 95, PBool true).
Proof.
  intros Hauthor Hcfg Hdomain (b & Hb & Hname) Hparse Hurl author metadata.
  assert (Hd : _verify_domain urlparse self author (PStr "https://tim.blog/x")
               = Ok 40).
  { unfold author. rewrite verify_domain_eq by done.
    unfold netloc_domain. rewrite Hurl, bind_Ok.
    change (replace_www (netloc {| scheme := "https"; netloc := "tim.blog" |}))
      with "tim.blog".
    rewrite bool_decide_eq_false_2.
    2:{ intros Hnil. rewrite Hnil in Hdomain. by apply elem_of_nil in Hdomain. }
    by rewrite bool_decide_eq_true_2. }
  assert (Hp : _verify_platform urlparse self author (PStr "blog") metadata
               = Ok 40).
  { unfold author, metadata. rewrite verify_platform_blog.
    2:{ by rewrite Hcfg. }
    rewrite Hcfg. simpl default.
    assert (existsb (blog_matches urlparse example_metadata) (blogs cfg) = true)
      as ->; [|done].
    apply existsb_true_iff. exists b. split; [done|].
    unfold blog_matches. by rewrite Hname. }
  assert (Hm : _verify_metadata self author metadata = Ok 15).
  { unfold author, metadata.
    rewrite (verify_metadata_eq author_id example_metadata 500)
      by (vm_compute; reflexivity).
    vm_compute. reflexivity. }
  assert (Hs : _calculate_authenticity_score urlparse self author (PStr "blog")
                 (PStr "https://tim.blog/x") metadata = Ok 95).
  { unfold _calculate_authenticity_score. by rewrite Hd, Hp, Hm. }
  split; [done|]. split; [done|]. split; [done|]. split; [done|].
  eexists. split.
  - apply (validate_fresh (example_record author_id) example_metadata
             author 95 75).
    + unfold example_record. lookup_insert. reflexivity.
    + unfold author. simpl.
      destruct (String.eqb_spec author_id "") as [Hempty|_];
        [contradiction | reflexivity].
    + unfold example_record. lookup_insert. reflexivity.
    + vm_compute. reflexivity.
    + unfold example_record. lookup_insert. exact Hs.
  - split.
    + lookup_insert. reflexivity.
    + unfold verdict. lookup_insert. reflexivity.
Qed.

Lemma validate_batch_from_eq (validated contents : list (gmap string pyval)) :
  validate_batch_from urlparse MIN_AUTHENTICITY_SCORE self validated contents
  = validated
    ++ map (validated_alone urlparse MIN_AUTHENTICITY_SCORE self) contents.
Proof.
  revert validated.
  induction contents as [|content rest IH]; intros validated; simpl.
  - by rewrite app_nil_r.
  - unfold validated_alone at 1.
    destruct (validate urlparse MIN_AUTHENTICITY_SCORE self content)
      as [[[]|e] content']; rewrite IH; by rewrite <- app_assoc.
Qed.

(** C9.  Batch resilience.  [validate_batch] returns one record per input
    record, in the same order, each the outcome of validating that record
    alone: the validated record when [validate] returns, and the record
    with [authenticity_score] 0 when [validate] raises. *)
Theorem batch_resilience (contents : list (gmap string pyval)) :
  let validated := validate_batch urlparse MIN_AUTHENTICITY_SCORE self contents in
  length validated = length contents /\
  forall i content, contents !! i = Some content ->
    (forall content',
       validate urlparse MIN_AUTHENTICITY_SCORE self content = (Ok (), content') ->
       validated !! i = Some content') /\
    (forall e content',
       validate urlparse MIN_AUTHENTICITY_SCORE self content = (Raise e, content') ->
       validated !! i = Some (<["authenticity_score" := PInt 0]> content') /\
       (<["authenticity_score" := PInt 0]> content') !! "authenticity_score"
       = Some (PInt 0)).
Proof.
  intros validated. unfold validated, validate_batch.
  rewrite validate_batch_from_eq. simpl.
  split; [by rewrite length_map|].
  intros i content Hi.
  assert (Hout : map (validated_alone urlparse MIN_AUTHENTICITY_SCORE self)
                   contents !! i
                 = Some (validated_alone urlparse MIN_AUTHENTICITY_SCORE self
                           content)).
  { by rewrite list_lookup_fmap, Hi. }
  split.
  - intros content' Hv. rewrite Hout. unfold validated_alone. by rewrite Hv.
  - intros e content' Hv. rewrite Hout. unfold validated_alone. rewrite Hv.
    split; [done | by rewrite lookup_insert_eq].
Qed.

Lemma filter_by_score_eq (contents : list (gmap string pyval))
    (min_score : option Z) :
  filter_by_score MIN_AUTHENTICITY_SCORE contents min_score
  = keep_scored contents (effective_min MIN_AUTHENTICITY_SCORE min_score).
Proof. reflexivity. Qed.

Lemma keep_scored_kept (contents kept : list (gmap string pyval)) (m : Z) :
  keep_scored contents m = Ok kept ->
  forall content, content ∈ kept ->
    content ∈ contents /\
    py_ge (default (PInt 0) (content !! "authenticity_score")) m = Ok true.
Proof.
  revert kept. induction contents as [|c rest IH]; intros kept; simpl.
  - intros [= <-] content Hin. by apply elem_of_nil in Hin.
  - destruct (py_ge (default (PInt 0) (c !! "authenticity_score")) m)
      as [keep|e] eqn:Hge; [|done].
    rewrite bind_Ok.
    destruct (keep_scored rest m) as [filtered|e]; [|done].
    rewrite bind_Ok. intros [= <-] content Hin.
    destruct keep.
    + apply elem_of_cons in Hin as [->|Hin].
      * split; [left | done].
      * destruct (IH filtered eq_refl content Hin). split; [by right | done].
    + destruct (IH filtered eq_refl content Hin). split; [by right | done].
Qed.

End ValidatorProperties.

(** ** The validator on concrete inputs *)

Section ValidatorExamples.

Import Validator Scoring Examples.

#[local] Abbreviation urlparse := UrlparseAscii.urlparse.

(** The profile of the examples is what [__init__] builds from its
    configuration. *)
Example tim_validator_built : new urlparse tim_config = Ok tim_validator.
Proof. by_vm. Qed.

(** The domain examples of the specification. *)
Example domain_examples :
  _verify_domain urlparse tim_validator (PStr "tim_ferriss")
    (PStr "https://tim.blog/post/1") = Ok 40 /\
  _verify_domain urlparse tim_validator (PStr "tim_ferriss")
    (PStr "https://sub.tim.blog/x") = Ok 35 /\
  _verify_domain urlparse tim_validator (PStr "tim_ferriss")
    (PStr "https://evil.com/x") = Ok 0 /\
  _verify_domain urlparse tim_validator (PStr "tim_ferriss")
    (PStr "https://www.tim.blog/x") = Ok 40 /\
  _verify_domain urlparse bare_validator (PStr "naval")
    (PStr "https://evil.com/x") = Ok 20.
Proof. repeat split; by_vm. Qed.

(** C3, counterexample.  On the worked example the code gives the
    metadata sub-score 15 and the total 95, not 20 and 100: the empty
    [metrics] dict is falsy. *)
Lemma worked_example_counterexample :
  _verify_metadata tim_validator (PStr "tim_ferriss") (PDict example_metadata)
  = Ok 15 /\
  _calculate_authenticity_score urlparse tim_validator (PStr "tim_ferriss")
    (PStr "blog") (PStr "https://tim.blog/x") (PDict example_metadata)
  = Ok 95 /\
  ~ (_verify_metadata tim_validator (PStr "tim_ferriss")
       (PDict example_metadata) = Ok 20 /\
     _calculate_authenticity_score urlparse tim_validator (PStr "tim_ferriss")
       (PStr "blog") (PStr "https://tim.blog/x") (PDict example_metadata)
     = Ok 100).
Proof.
  vm_compute. split; [reflexivity|]. split; [reflexivity|].
  intros [H _]. discriminate H.
Qed.

Lemma worked_example_witness :
  exists content,
    validate urlparse 75 tim_validator (example_record "tim_ferriss")
    = (Ok (), content) /\
    content !! "authenticity_score" = Some (PInt 95) /\
    verdict content = Some (PInt 95, PBool true).
Proof.
  refine (proj2 (proj2 (proj2 (proj2
    (worked_example urlparse tim_validator "tim_ferriss" tim _ _ _ _ _ _))))).
  - discriminate.
  - reflexivity.
  - change (default [] (official_domains tim_validator !! "tim_ferriss"))
      with ["tim.blog"].
    apply list_elem_of_singleton. reflexivity.
  - exists {| blog_name := Some "Tim's Blog"; blog_url := "https://tim.blog" |}.
    split; [apply list_elem_of_singleton|]; reflexivity.
  - repeat constructor.
  - reflexivity.
Defined.

(** C6, counterexample.  The empty platform is none of the five, and
    scores 0, not 20. *)
Lemma platform_subscore_counterexample :
  ("" ∉ ["twitter"; "youtube"; "blog"; "podcast"; "book"]) /\
  _verify_platform urlparse tim_validator (PStr "tim_ferriss") (PStr "")
    (PDict example_metadata) = Ok 0 /\
  _verify_platform urlparse tim_validator (PStr "tim_ferriss") (PStr "")
    (PDict example_metadata) <> Ok 20.
Proof.
  split; [|split].
  - intros Hin. repeat (apply elem_of_cons in Hin as [Hin|Hin]; [discriminate|]).
    by apply elem_of_nil in Hin.
  - reflexivity.
  - discriminate.
Qed.

(** The platform examples, one per branch. *)
Example platform_examples :
  let score platform md :=
    _verify_platform urlparse tim_validator (PStr "tim_ferriss") (PStr platform)
      (PDict md) in
  score "twitter" ∅ = Ok 40 /\
  score "youtube" {[ "channel_name" := PStr "Tim Ferriss" ]} = Ok 40 /\
  score "youtube" {[ "channel_name" := PStr "Somebody" ]} = Ok 15 /\
  _verify_platform urlparse bare_validator (PStr "naval") (PStr "youtube")
    (PDict ∅) = Ok 30 /\
  score "blog" {[ "domain" := PStr "tim.blog" ]} = Ok 40 /\
  score "blog" {[ "blog_name" := PStr "Other" ]} = Ok 15 /\
  score "podcast" {[ "podcast_name" := PStr "The Tim Ferriss Show" ]} = Ok 40 /\
  score "podcast" ∅ = Ok 25 /\
  score "book" {[ "book_title" := PStr "Unknown Book" ]} = Ok 10 /\
  score "newsletter" ∅ = Ok 20.
Proof. repeat split; by_vm. Qed.

Lemma platform_subscore_witness :
  _verify_platform urlparse tim_validator (PStr "tim_ferriss") (PStr "blog")
    (PDict example_metadata) = Ok 40 /\
  _verify_platform urlparse tim_validator (PStr "tim_ferriss")
    (PStr "newsletter") (PDict example_metadata) = Ok 20.
Proof.
  split.
  - destruct (platform_subscore urlparse tim_validator "tim_ferriss" "blog"
                example_metadata) as (_ & _ & _ & H & _).
    apply (H eq_refl). repeat constructor.
  - destruct (platform_subscore urlparse tim_validator "tim_ferriss"
                "newsletter" example_metadata) as (_ & _ & _ & _ & _ & _ & H).
    apply H. intros Hin.
    repeat (apply elem_of_cons in Hin as [Hin|Hin]; [discriminate|]).
    apply elem_of_nil in Hin. exact Hin.
Defined.

(** C7, counterexample.  A [word_count] of 0 is present and earns
    nothing; a [word_count] that is not a number makes the check raise. *)
Lemma metadata_subscore_counterexample :
  let zero : gmap string pyval := {[ "word_count" := PInt 0 ]} in
  let text : gmap string pyval := {[ "word_count" := PStr "many" ]} in
  zero !! "word_count" <> None /\
  _verify_metadata tim_validator (PStr "tim_ferriss") (PDict zero) = Ok 0 /\
  text !! "word_count" <> None /\
  _verify_metadata tim_validator (PStr "tim_ferriss") (PDict text)
  = Raise TypeError.
Proof. vm_compute. repeat split; discriminate. Qed.

Lemma metadata_subscore_witness :
  _verify_metadata tim_validator (PStr "tim_ferriss") (PDict example_metadata)
  = Ok 15 /\
  (15 ∈ [0; 5; 10; 15; 20]).
Proof.
  exact (metadata_subscore tim_validator "tim_ferriss" example_metadata 500
           eq_refl).
Defined.

(** The book example of the specification: 40 + 10 + 5. *)
Example unverified_book :
  let md : gmap string pyval :=
    <["book_title" := PStr "Unknown Book"]> (<["word_count" := PInt 10]> ∅) in
  _calculate_authenticity_score urlparse tim_validator (PStr "tim_ferriss")
    (PStr "book") (PStr "https://tim.blog/excerpt") (PDict md) = Ok 55.
Proof. intros md. by_vm. Qed.

(** C4.  Scoring again the record that [validate] returned gives another
    score and another verdict: the [validation] entry that the first call
    added to the metadata is counted as a third metadata key. *)
Theorem rescoring_changes_verdict :
  validate urlparse 75 bare_validator tweet = (Ok (), tweet_once) /\
  validate urlparse 75 bare_validator tweet_once = (Ok (), tweet_twice) /\
  tweet_once !! "authenticity_score" = Some (PInt 70) /\
  verdict tweet_once = Some (PInt 70, PBool false) /\
  tweet_twice !! "authenticity_score" = Some (PInt 75) /\
  verdict tweet_twice = Some (PInt 75, PBool true).
Proof. repeat split; by_vm. Qed.

(** A record without metadata makes [validate] raise; the batch gives it
    the score 0 and validates the record after it. *)
Example batch_with_failure :
  validate urlparse 75 bare_validator no_metadata
  = (Raise (KeyError "metadata"),
     <["authenticity_score" := PInt 40]> no_metadata) /\
  validate_batch urlparse 75 bare_validator [no_metadata; tweet]
  = [<["authenticity_score" := PInt 0]> no_metadata; tweet_once].
Proof. split; by_vm. Qed.

Lemma batch_resilience_witness :
  validate_batch urlparse 75 bare_validator [no_metadata; tweet] !! 0%nat
  = Some (<["authenticity_score" := PInt 0]>
            (<["authenticity_score" := PInt 40]> no_metadata)).
Proof.
  destruct (batch_resilience urlparse 75 bare_validator [no_metadata; tweet])
    as [_ H].
  destruct (H 0%nat no_metadata eq_refl) as [_ Hraise].
  destruct (Hraise (KeyError "metadata")
              (<["authenticity_score" := PInt 40]> no_metadata)) as [Hout _].
  - by_vm.
  - exact Hout.
Defined.

(** With the default threshold 75, filtering at 0 drops a record that
    scores 50, and a record without a score. *)
Example filter_at_zero :
  filter_by_score 75 [scored 50; scored 80; ∅] (Some 0) = Ok [scored 80].
Proof. by_vm. Qed.

End ValidatorExamples.

(** ** The fetch gateway *)

Section ScraperProperties.

Import BaseScraper Gateway.

Variable urlparse : string -> result ParseResult.
Variable read_robots : string -> result RobotFileParser.
Variable MAX_RETRIES : Z.
Variable USER_AGENT : string.

Ltac run_M :=
  unfold mbind, M_bind, lift, gets, ret, raise, modify, try_except; simpl.

(** What [can_fetch] answers and what it leaves behind. *)
Lemma can_fetch_eq (url : string) (s : State) :
  can_fetch urlparse read_robots USER_AGENT url s
  = match urlparse url with
    | Raise e => (Raise e, s)
    | Ok parsed_url =>
        let base_url := base_url_of parsed_url in
        match robot_parsers s !! base_url with
        | Some rp => (Ok (allows USER_AGENT rp url), s)
        | None =>
            let rp := loaded read_robots base_url in
            (Ok (allows USER_AGENT rp url),
             set_robot_parser base_url rp
               (log_robots (base_url +:+ "/robots.txt") s))
        end
    end.
Proof.
  unfold can_fetch, _get_robot_parser, loaded, base_url_of. run_M.
  destruct (urlparse url) as [parsed_url|e]; [|done].
  destruct (robot_parsers s !! _) as [[rp|]|]; [done | done |].
  by destruct (read_robots _).
Qed.

Lemma cache_extends_refl (s : State) : cache_extends read_robots s s.
Proof. intros base_url. by left. Qed.

Lemma cache_extends_trans (s1 s2 s3 : State) :
  cache_extends read_robots s1 s2 -> cache_extends read_robots s2 s3 ->
  cache_extends read_robots s1 s3.
Proof.
  intros H12 H23 base_url.
  destruct (H12 base_url) as [E12|[N1 E2]], (H23 base_url) as [E23|[N2 E3]].
  - left. congruence.
  - right. split; congruence.
  - right. split; congruence.
  - congruence.
Qed.

Lemma can_fetch_frame (url : string) (s : State) :
  robots_only s (can_fetch urlparse read_robots USER_AGENT url s).2 /\
  cache_extends read_robots s
    (can_fetch urlparse read_robots USER_AGENT url s).2.
Proof.
  rewrite can_fetch_eq.
  destruct (urlparse url) as [parsed_url|e]; simpl.
  2:{ split; [done | apply cache_extends_refl]. }
  destruct (robot_parsers s !! base_url_of parsed_url) as [rp|] eqn:Hcache; simpl.
  { split; [done | apply cache_extends_refl]. }
  split; [done|].
  intros base_url. simpl.
  destruct (decide (base_url = base_url_of parsed_url)) as [->|Hne].
  - right. by rewrite lookup_insert_eq.
  - left. by rewrite lookup_insert_ne.
Qed.

(** Once a host has an answer, it keeps it. *)
Lemma can_fetch_stable (url : string) (s s' : State) (b : bool) :
  cache_extends read_robots s s' ->
  (can_fetch urlparse read_robots USER_AGENT url s).1 = Ok b ->
  (can_fetch urlparse read_robots USER_AGENT url s').1 = Ok b.
Proof.
  intros Hext. rewrite !can_fetch_eq.
  destruct (urlparse url) as [parsed_url|e]; simpl; [|done].
  destruct (Hext (base_url_of parsed_url)) as [->|[-> ->]].
  - by destruct (robot_parsers s !! base_url_of parsed_url).
  - done.
Qed.

Lemma wait_if_needed_returns (e : RateLimiter.elapse) (now0 : Z)
    (rl : RateLimiter.t) :
  1 <= RateLimiter.calls rl ->
  exists now rl',
    RateLimiter.wait_if_needed e now0 rl = (Ok now, now, rl') /\
    RateLimiter.calls rl' = RateLimiter.calls rl.
Proof.
  intros Hcalls. unfold RateLimiter.wait_if_needed.
  destruct (Z.leb_spec (RateLimiter.calls rl)
              (Z.of_nat (length (RateLimiter.evict (now0 + RateLimiter.gap e)
                                   (RateLimiter.period rl)
                                   (RateLimiter.timestamps rl)))))
    as [Hfull|Hroom].
  - destruct (RateLimiter.evict _ _ _) as [|t0 ts]; [simpl in Hfull; lia|].
    destruct (0 <? _); eauto.
  - eauto.
Qed.

Lemma fetch_url_body_eq (env : attempt_env) (url method : string) (s : State) :
  fetch_url_body urlparse read_robots USER_AGENT env url method s
  = match can_fetch urlparse read_robots USER_AGENT url s with
    | (Raise e, s1) => (Raise e, s1)
    | (Ok false, s1) => (Raise (blocked url), s1)
    | (Ok true, s1) =>
        let '(r, now, rl) :=
          RateLimiter.wait_if_needed (tick env) (clock s1) (rate_limiter s1) in
        let s2 := set_rate_limiter rl now s1 in
        match r with
        | Raise ex => (Raise ex, s2)
        | Ok _ =>
            let s3 := log_request method url (set_stats incr_total s2) in
            (attempt_result (outcome env),
             match attempt_result (outcome env) with
             | Ok _ => set_stats incr_successful s3
             | Raise e =>
                 if is_RequestException e then set_stats incr_failed s3 else s3
             end)
        end
    end.
Proof.
  unfold fetch_url_body, rate_limiter_wait, session_request, blocked.
  unfold mbind at 1. unfold M_bind at 1.
  destruct (can_fetch urlparse read_robots USER_AGENT url s) as [[[|]|e] s1];
    [|done|done].
  simpl negb. cbv iota. run_M.
  destruct (RateLimiter.wait_if_needed (tick env) (clock s1) (rate_limiter s1))
    as [[[now'|ex] now] rl]; simpl; [|done].
  unfold attempt_result, raise_for_status.
  destruct (outcome env) as [r|e]; simpl.
  - by destruct ((400 <=? status_code r) && (status_code r <? 600)).
  - by destruct (is_RequestException e).
Qed.

(** One attempt on an allowed url, with a limiter of capacity at least 1. *)
Lemma attempt_allowed (env : attempt_env) (url method : string) (s : State) :
  (can_fetch urlparse read_robots USER_AGENT url s).1 = Ok true ->
  1 <= RateLimiter.calls (rate_limiter s) ->
  exists s',
    fetch_url_body urlparse read_robots USER_AGENT env url method s
    = (attempt_result (outcome env), s') /\
    cache_extends read_robots s s' /\
    RateLimiter.calls (rate_limiter s') = RateLimiter.calls (rate_limiter s) /\
    total_requests (stats s') = total_requests (stats s) + 1 /\
    requests_sent s' = requests_sent s ++ [(method, url)] /\
    slept s' = slept s.
Proof.
  intros Hallowed Hcalls. rewrite fetch_url_body_eq.
  destruct (can_fetch_frame url s) as [(Hrl & Hstats & _ & Hsent & Hslept) Hext].
  destruct (can_fetch urlparse read_robots USER_AGENT url s) as [r s1].
  simpl in *. subst r.
  rewrite <- Hrl in Hcalls.
  destruct (wait_if_needed_returns (tick env) (clock s1) (rate_limiter s1) Hcalls)
    as (now & rl & -> & Hcalls').
  eexists. split; [reflexivity|].
  assert (Hframe : forall s3,
    robot_parsers s3 = robot_parsers s1 -> cache_extends read_robots s s3).
  { intros s3 H3 base_url. rewrite H3. apply Hext. }
  destruct (attempt_result (outcome env)) as [resp|e];
    [|destruct (is_RequestException e)]; simpl;
    (split; [by apply Hframe|]);
    (split; [congruence|]);
    (split; [by rewrite Hstats|]);
    (split; [by rewrite Hsent | done]).
Qed.

Lemma wait_exponential_backoff (n : Z) : wait_exponential 1 4 10 n = backoff n.
Proof. unfold wait_exponential, backoff. lia. Qed.

Lemma retried_attempt_result (o : session_outcome) :
  match attempt_result o with
  | Ok _ => retried o = false
  | Raise e => retry_if_exception_type e = retried o
  end.
Proof.
  destruct o as [r|e]; simpl; [|done].
  by destruct ((400 <=? status_code r) && (status_code r <? 600)).
Qed.

(** The decorator's loop ends within the fuel that [fetch_url] gives it. *)
Lemma retrying_spec (env : Z -> attempt_env) (url method : string) (fuel : nat) :
  forall (a : Z) (s : State),
    1 <= a ->
    MAX_RETRIES - a <= Z.of_nat fuel ->
    (can_fetch urlparse read_robots USER_AGENT url s).1 = Ok true ->
    1 <= RateLimiter.calls (rate_limiter s) ->
    exists n r s',
      retrying urlparse read_robots MAX_RETRIES USER_AGENT fuel a env url method s
      = Some (r, s') /\
      a <= n <= Z.max a MAX_RETRIES /\
      total_requests (stats s') = total_requests (stats s) + (n - a + 1) /\
      requests_sent s'
      = requests_sent s ++ replicate (Z.to_nat (n - a + 1)) (method, url) /\
      (forall i, a <= i < n -> retried (outcome (env i)) = true) /\
      slept s' = slept s ++ map backoff (seqZ a (n - a)) /\
      (if retried (outcome (env n))
       then n = Z.max a MAX_RETRIES /\ r = Raise RetryError
       else r = attempt_result (outcome (env n))).
Proof.
  induction fuel as [|fuel IH]; intros a s Ha Hfuel Hallowed Hcalls;
    destruct (attempt_allowed (env a) url method s Hallowed Hcalls)
      as (s1 & Hbody & Hext & Hcalls1 & Htotal & Hsent & Hslept);
    simpl; rewrite Hbody;
    pose proof (retried_attempt_result (outcome (env a))) as Hres;
    destruct (attempt_result (outcome (env a))) as [resp|e] eqn:Hattempt.
  1,3: exists a, (Ok resp), s1; rewrite Hres, Z.sub_diag;
       (split; [done|]); (split; [lia|]); (split; [lia|]);
       (split; [by rewrite Hsent|]); (split; [intros; lia|]);
       (split; [by rewrite app_nil_r | done]).
  - (* no fuel: the attempt was the last one *)
    rewrite Hres.
    destruct (retried (outcome (env a))) eqn:Hretried.
    + assert (stop_after_attempt MAX_RETRIES a = true) as ->.
      { apply Z.leb_le. simpl in Hfuel. lia. }
      exists a, (Raise RetryError), s1. rewrite Hretried, Z.sub_diag.
      split; [done|]. split; [lia|]. split; [lia|].
      split; [by rewrite Hsent|]. split; [intros; lia|].
      split; [by rewrite app_nil_r|]. split; [simpl in Hfuel; lia | done].
    + exists a, (Raise e), s1. rewrite Hretried, Z.sub_diag.
      split; [done|]. split; [lia|]. split; [lia|].
      split; [by rewrite Hsent|]. split; [intros; lia|].
      split; [by rewrite app_nil_r | done].
  - rewrite Hres.
    destruct (retried (outcome (env a))) eqn:Hretried.
    2:{ exists a, (Raise e), s1. rewrite Hretried, Z.sub_diag.
        split; [done|]. split; [lia|]. split; [lia|].
        split; [by rewrite Hsent|]. split; [intros; lia|].
        split; [by rewrite app_nil_r | done]. }
    unfold stop_after_attempt.
    destruct (Z.leb_spec MAX_RETRIES a) as [Hstop|Hgo].
    + exists a, (Raise RetryError), s1. rewrite Hretried, Z.sub_diag.
      split; [done|]. split; [lia|]. split; [lia|].
      split; [by rewrite Hsent|]. split; [intros; lia|].
      split; [by rewrite app_nil_r|]. split; [lia | done].
    + rewrite wait_exponential_backoff.
      destruct (IH (a + 1) (sleep (backoff a) s1)) as
        (n & r & s' & Hrun & Hn & Htotal' & Hsent' & Hretr & Hslept' & Hend).
      * lia.
      * lia.
      * apply (can_fetch_stable url s); [|done].
        intros base_url. apply Hext.
      * simpl. lia.
      * exists n, r, s'. split; [done|]. split; [lia|].
        split; [simpl in Htotal'; lia|].
        split.
        { rewrite Hsent'. simpl. rewrite Hsent, <- app_assoc. f_equal.
          replace (Z.to_nat (n - a + 1)) with (S (Z.to_nat (n - (a + 1) + 1)))
            by lia.
          done. }
        split.
        { intros i Hi. destruct (decide (i = a)) as [->|Hne]; [done|].
          apply Hretr. lia. }
        split.
        { rewrite Hslept'. simpl. rewrite Hslept, <- app_assoc. f_equal.
          rewrite (seqZ_cons a (n - a)) by lia. simpl. do 3 f_equal; lia. }
        replace (Z.max a MAX_RETRIES) with (Z.max (a + 1) MAX_RETRIES) by lia.
        done.
Qed.

(** C2, as amended.  Retry classification.  A call of [fetch_url] on a url
    that robots.txt allows (with a limiter of capacity at least 1) makes
    [n] attempts, between 1 and [MAX_RETRIES]; every attempt but the last
    ended with a [RequestException] or a [ConnectionError] (a transport
    error, or the [HTTPError] that [raise_for_status] raises on any status
    from 400 to 599), and attempt [i] was followed by a wait of
    [min(max(2^(i-1), 4), 10)] seconds; the last attempt either ends in
    such an exception too, and then all attempts are used up and the call
    fails, or its response or other exception goes to the caller as it
    is. *)
Theorem fetch_url_retries (env : Z -> attempt_env) (url method : string)
    (s : State) :
  (can_fetch urlparse read_robots USER_AGENT url s).1 = Ok true ->
  1 <= RateLimiter.calls (rate_limiter s) ->
  exists n r s',
    fetch_url urlparse read_robots MAX_RETRIES USER_AGENT env url method s
    = Some (r, s') /\
    1 <= n <= Z.max 1 MAX_RETRIES /\
    total_requests (stats s') = total_requests (stats s) + n /\
    requests_sent s' = requests_sent s ++ replicate (Z.to_nat n) (method, url) /\
    (forall i, 1 <= i < n -> retried (outcome (env i)) = true) /\
    slept s' = slept s ++ map backoff (seqZ 1 (n - 1)) /\
    (if retried (outcome (env n))
     then n = Z.max 1 MAX_RETRIES /\ is_Ok r = false
     else r = attempt_result (outcome (env n))).
Proof.
  intros Hallowed Hcalls. unfold fetch_url.
  destruct (retrying_spec env url method (Z.to_nat MAX_RETRIES) 1 s)
    as (n & r & s' & Hrun & Hn & Htotal & Hsent & Hretr & Hslept & Hend);
    [lia | lia | done | done |].
  exists n, r, s'. split; [done|]. split; [done|].
  split; [lia|].
  split; [by replace (n - 1 + 1) with n in Hsent by lia|].
  split; [done|]. split; [done|].
  destruct (retried (outcome (env n))); [|done].
  destruct Hend as [Hlast ->]. done.
Qed.

(** [fetch_url] always returns or raises: the fuel is enough. *)
Lemma retrying_total (env : Z -> attempt_env) (url method : string) (fuel : nat) :
  forall (a : Z) (s : State),
    MAX_RETRIES - a <= Z.of_nat fuel ->
    is_Some (retrying urlparse read_robots MAX_RETRIES USER_AGENT fuel a env
               url method s).
Proof.
  induction fuel as [|fuel IH]; intros a s Hfuel; simpl;
    destruct (fetch_url_body _ _ _ _ _ _ _) as [[resp|e] s1]; try done;
    destruct (retry_if_exception_type e); try done;
    unfold stop_after_attempt;
    destruct (Z.leb_spec MAX_RETRIES a); try done.
  - simpl in Hfuel. lia.
  - apply IH. lia.
Qed.

Lemma fetch_url_total (env : Z -> attempt_env) (url method : string) (s : State) :
  is_Some (fetch_url urlparse read_robots MAX_RETRIES USER_AGENT env url method s).
Proof. apply retrying_total. lia. Qed.

Lemma fetch_url_blocked (env : Z -> attempt_env) (url method : string)
    (s : State) :
  (can_fetch urlparse read_robots USER_AGENT url s).1 = Ok false ->
  fetch_url urlparse read_robots MAX_RETRIES USER_AGENT env url method s
  = Some (Raise (blocked url),
          (can_fetch urlparse read_robots USER_AGENT url s).2).
Proof.
  intros Hblocked. unfold fetch_url.
  destruct (Z.to_nat MAX_RETRIES); simpl; rewrite fetch_url_body_eq;
    destruct (can_fetch urlparse read_robots USER_AGENT url s) as [r s1];
    simpl in *; by subst r.
Qed.

(** C8.  A blocked url consumes nothing.  When robots.txt disallows each
    of the urls, every call of [fetch_url] raises the blocked-url error at
    once, and after all of them no request has gone through the session,
    the limiter and its timestamps are what they were, and so are the
    statistics, the retry waits and the clock; only the robots cache may
    have grown. *)
Theorem policy_blocked_consumes_nothing
    (calls : list (string * (Z -> attempt_env))) (method : string) (s : State) :
  Forall (fun call =>
            (can_fetch urlparse read_robots USER_AGENT call.1 s).1 = Ok false)
         calls ->
  exists s',
    fetch_each urlparse read_robots MAX_RETRIES USER_AGENT calls method s
    = Some (map (fun call => Raise (blocked call.1)) calls, s') /\
    requests_sent s' = requests_sent s /\
    rate_limiter s' = rate_limiter s /\
    length (RateLimiter.timestamps (rate_limiter s'))
    = length (RateLimiter.timestamps (rate_limiter s)) /\
    stats s' = stats s /\
    slept s' = slept s /\
    clock s' = clock s.
Proof.
  revert s. induction calls as [|[url env] calls IH]; intros s Hblocked; simpl.
  - by exists s.
  - apply Forall_cons in Hblocked as [Hurl Hrest]. simpl in Hurl.
    rewrite (fetch_url_blocked env url method s Hurl).
    destruct (can_fetch_frame url s)
      as [(Hrl & Hstats & Hclock & Hsent & Hslept) Hext].
    set (s1 := (can_fetch urlparse read_robots USER_AGENT url s).2) in *.
    destruct (IH s1) as (s' & -> & Hsent' & Hrl' & _ & Hstats' & Hslept' & Hclock').
    { eapply Forall_impl; [exact Hrest|]. simpl. intros call Hcall.
      by apply (can_fetch_stable call.1 s). }
    exists s'. split; [done|].
    repeat split; congruence.
Qed.

End ScraperProperties.

(** ** The fetch gateway on concrete inputs *)

Section ScraperExamples.

Import BaseScraper Gateway Examples.

#[local] Abbreviation urlparse := UrlparseAscii.urlparse.
#[local] Abbreviation UA := "ContentScraperBot/1.0".

(** C2, counterexample.  404 is none of 429, 500, 502, 503, 504, yet a
    url that answers 404 is fetched three times, with two waits of 4
    seconds, before the caller sees a [RetryError]. *)
Lemma fetch_url_retries_counterexample :
  (404 ∉ [429; 500; 502; 503; 504]) /\
  observe (fetch_url urlparse robots_missing 3 UA (always 404)
             "https://tim.blog/x" "GET" fresh_scraper)
  = Some (Raise RetryError, (3, 0, 3), [4; 4],
          [("GET", "https://tim.blog/x"); ("GET", "https://tim.blog/x");
           ("GET", "https://tim.blog/x")],
          [0; 4; 8]) /\
  observe (fetch_url urlparse robots_missing 3 UA (always 404)
             "https://tim.blog/x" "GET" fresh_scraper)
  <> Some (Raise (RequestException (HTTPError 404)), (1, 0, 1), [],
           [("GET", "https://tim.blog/x")], [0]).
Proof.
  split; [|split].
  - intros Hin.
    repeat (apply elem_of_cons in Hin as [Hin|Hin]; [discriminate|]).
    by apply elem_of_nil in Hin.
  - by_vm.
  - assert (observe (fetch_url urlparse robots_missing 3 UA (always 404)
                       "https://tim.blog/x" "GET" fresh_scraper)
            = Some (Raise RetryError, (3, 0, 3), [4; 4],
                    [("GET", "https://tim.blog/x"); ("GET", "https://tim.blog/x");
                     ("GET", "https://tim.blog/x")],
                    [0; 4; 8])) as -> by by_vm.
    discriminate.
Qed.

(** The retry example of the specification: 503, 503, then 200 gives the
    response after exactly two waits, each between 4 and 10 seconds. *)
Example fetch_url_recovers :
  observe (fetch_url urlparse robots_missing 3 UA recovering
             "https://tim.blog/x" "GET" fresh_scraper)
  = Some (Ok {| status_code := 200 |}, (3, 1, 2), [4; 4],
          [("GET", "https://tim.blog/x"); ("GET", "https://tim.blog/x");
           ("GET", "https://tim.blog/x")],
          [0; 4; 8]).
Proof. by_vm. Qed.

(** A 3xx status that reaches the caller is a response, not a failure. *)
Example fetch_url_not_modified :
  observe (fetch_url urlparse robots_missing 3 UA (always 304)
             "https://tim.blog/x" "GET" fresh_scraper)
  = Some (Ok {| status_code := 304 |}, (1, 1, 0), [],
          [("GET", "https://tim.blog/x")], [0]).
Proof. by_vm. Qed.

Lemma fetch_url_retries_witness :
  exists n r s',
    fetch_url urlparse robots_missing 3 UA (always 404)
      "https://tim.blog/x" "GET" fresh_scraper = Some (r, s') /\
    1 <= n <= Z.max 1 3 /\
    total_requests (stats s') = total_requests (stats fresh_scraper) + n /\
    requests_sent s'
    = requests_sent fresh_scraper
      ++ replicate (Z.to_nat n) ("GET", "https://tim.blog/x") /\
    (forall i, 1 <= i < n -> retried (outcome (always 404 i)) = true) /\
    slept s' = slept fresh_scraper ++ map backoff (seqZ 1 (n - 1)) /\
    (if retried (outcome (always 404 n))
     then n = Z.max 1 3 /\ is_Ok r = false
     else r = attempt_result (outcome (always 404 n))).
Proof.
  apply (fetch_url_retries urlparse robots_missing 3 UA (always 404)
           "https://tim.blog/x" "GET" fresh_scraper).
  - by_vm.
  - simpl. lia.
Defined.

(** Two blocked urls on a fresh scraper. *)
Example fetch_blocked :
  observe (fetch_url urlparse robots_disallow 3 UA (always 200)
             "https://tim.blog/private" "GET" fresh_scraper)
  = Some (Raise (blocked "https://tim.blog/private"), (0, 0, 0), [], [], []).
Proof. by_vm. Qed.

Lemma policy_blocked_consumes_nothing_witness :
  exists s',
    fetch_each urlparse robots_disallow 3 UA
      [("https://tim.blog/private", always 200);
       ("https://example.com/", always 200)] "GET" fresh_scraper
    = Some ([Raise (blocked "https://tim.blog/private");
             Raise (blocked "https://example.com/")], s') /\
    requests_sent s' = requests_sent fresh_scraper /\
    rate_limiter s' = rate_limiter fresh_scraper /\
    length (RateLimiter.timestamps (rate_limiter s'))
    = length (RateLimiter.timestamps (rate_limiter fresh_scraper)) /\
    stats s' = stats fresh_scraper /\
    slept s' = slept fresh_scraper /\
    clock s' = clock fresh_scraper.
Proof.
  apply (policy_blocked_consumes_nothing urlparse robots_disallow 3 UA
           [("https://tim.blog/private", always 200);
            ("https://example.com/", always 200)] "GET" fresh_scraper).
  repeat constructor; simpl; by_vm.
Defined.

End ScraperExamples.

(** * Further properties *)

(** ** The scorer: ranges, frame and repeated validation *)

Section ScorerProperties.

Import Validator Scoring Pipeline Examples.

Variable urlparse : string -> result ParseResult.
Variable MIN_AUTHENTICITY_SCORE : Z.
Variable self : AuthenticityValidator.

Lemma bind_Ok_inv {A B} (r : result A) (k : A -> result B) (b : B) :
  (r ≫= k) = Ok b -> exists a, r = Ok a /\ k a = Ok b.
Proof. destruct r as [a|e]; [eauto | done]. Qed.

(** A loop that returns does so from the body of one of its elements. *)
Lemma for_return_Some {A R} (l : list A) (body : A -> result (option R)) (v : R) :
  for_return l body = Ok (Some v) ->
  exists x, x ∈ l /\ body x = Ok (Some v).
Proof.
  induction l as [|x l IH]; simpl; [done|].
  destruct (body x) as [[w|]|e] eqn:Hx; simpl; [| |done].
  - intros Heq. assert (w = v) as -> by congruence.
    exists x. split; [left | done].
  - intros Hrest. destruct (IH Hrest) as (y & Hy & Hbody).
    exists y. split; [by right | done].
Qed.

Lemma verify_domain_range (author_id url : pyval) (score : Z) :
  _verify_domain urlparse self author_id url = Ok score ->
  score ∈ [0; 20; 35; 40].
Proof.
  clear MIN_AUTHENTICITY_SCORE.
  unfold _verify_domain.
  destruct (negb (truthy url)); [intros ?; simplify_eq; set_solver|].
  intros H. apply bind_Ok_inv in H as (official & _ & H).
  destruct (bool_decide (official = [])); [simplify_eq; set_solver|].
  destruct (match url with PStr u => netloc_domain urlparse u | _ => _ end)
    as [domain|e]; [|simplify_eq; set_solver].
  destruct (bool_decide (domain ∈ official)); [simplify_eq; set_solver|].
  apply bind_Ok_inv in H as ([v|] & Hloop & H); simplify_eq; simpl.
  - apply for_return_Some in Hloop as (d & _ & Hd).
    destruct (_ || _); simplify_eq; set_solver.
  - set_solver.
Qed.

Lemma verify_platform_range (author_id platform metadata : pyval) (score : Z) :
  _verify_platform urlparse self author_id platform metadata = Ok score ->
  score ∈ [0; 10; 15; 20; 25; 30; 40].
Proof.
  clear MIN_AUTHENTICITY_SCORE.
  unfold _verify_platform.
  destruct (negb (truthy platform)); [intros ?; simplify_eq; set_solver|].
  intros H. apply bind_Ok_inv in H as (cfg & _ & H).
  destruct (str_eq platform "twitter");
    [unfold _verify_twitter in H; simplify_eq; set_solver|].
  destruct (str_eq platform "youtube").
  { unfold _verify_youtube in H.
    apply bind_Ok_inv in H as (channel & _ & H).
    apply bind_Ok_inv in H as ([v|] & Hloop & H).
    - apply for_return_Some in Hloop as (ch & _ & Hch).
      destruct (opt_str_eq _ _); simplify_eq.
      simplify_eq. set_solver.
    - destruct (bool_decide _); simplify_eq; set_solver. }
  destruct (str_eq platform "blog").
  { unfold _verify_blog in H.
    apply bind_Ok_inv in H as (name & _ & H).
    apply bind_Ok_inv in H as (domain & _ & H).
    apply bind_Ok_inv in H as ([v|] & Hloop & H); simplify_eq; simpl.
    - apply for_return_Some in Hloop as (b & _ & Hb).
      destruct (opt_str_eq _ _); [simplify_eq; set_solver|].
      apply bind_Ok_inv in Hb as (d & _ & Hb).
      destruct (str_eq _ _); simplify_eq; set_solver.
    - set_solver. }
  destruct (str_eq platform "podcast").
  { unfold _verify_podcast in H.
    apply bind_Ok_inv in H as (name & _ & H).
    apply bind_Ok_inv in H as ([v|] & Hloop & H); simplify_eq; simpl.
    - apply for_return_Some in Hloop as (b & _ & Hb).
      destruct (opt_str_eq _ _); simplify_eq; set_solver.
    - set_solver. }
  destruct (str_eq platform "book").
  { unfold _verify_book in H.
    apply bind_Ok_inv in H as (name & _ & H).
    apply bind_Ok_inv in H as ([v|] & Hloop & H); simplify_eq; simpl.
    - apply for_return_Some in Hloop as (b & _ & Hb).
      destruct (opt_str_eq _ _); simplify_eq; set_solver.
    - set_solver. }
  simplify_eq. set_solver.
Qed.

Lemma verify_metadata_range (author_id metadata : pyval) (score : Z) :
  _verify_metadata self author_id metadata = Ok score ->
  score ∈ [0; 5; 10; 15; 20].
Proof.
  clear urlparse MIN_AUTHENTICITY_SCORE.
  unfold _verify_metadata. intros H.
  apply bind_Ok_inv in H as (cfg & _ & H).
  apply bind_Ok_inv in H as (wc & _ & H).
  apply bind_Ok_inv in H as (long & _ & H).
  apply bind_Ok_inv in H as (metrics & _ & H).
  apply bind_Ok_inv in H as (processed & _ & H).
  apply bind_Ok_inv in H as (n & _ & H).
  injection H as <-.
  destruct long, (truthy metrics), (truthy processed), (2 <? n); simpl;
    set_solver.
Qed.

Lemma calculate_sum (author_id platform url metadata : pyval) (score : Z) :
  _calculate_authenticity_score urlparse self author_id platform url metadata
  = Ok score ->
  exists d p m,
    _verify_domain urlparse self author_id url = Ok d /\
    _verify_platform urlparse self author_id platform metadata = Ok p /\
    _verify_metadata self author_id metadata = Ok m /\
    d ∈ [0; 20; 35; 40] /\
    p ∈ [0; 10; 15; 20; 25; 30; 40] /\
    m ∈ [0; 5; 10; 15; 20] /\
    score = d + p + m /\
    0 <= score <= 100.
Proof.
  clear MIN_AUTHENTICITY_SCORE.
  unfold _calculate_authenticity_score. intros H.
  apply bind_Ok_inv in H as (d & Hd & H).
  apply bind_Ok_inv in H as (p & Hp & H).
  apply bind_Ok_inv in H as (m & Hm & H).
  injection H as <-.
  pose proof (verify_domain_range _ _ _ Hd) as Rd.
  pose proof (verify_platform_range _ _ _ _ Hp) as Rp.
  pose proof (verify_metadata_range _ _ _ Hm) as Rm.
  exists d, p, m. repeat (split; [done|]).
  assert (0 <= d <= 40).
  { repeat (apply elem_of_cons in Rd as [->|Rd]; [lia|]).
    by apply elem_of_nil in Rd. }
  assert (0 <= p <= 40).
  { repeat (apply elem_of_cons in Rp as [->|Rp]; [lia|]).
    by apply elem_of_nil in Rp. }
  assert (0 <= m <= 20).
  { repeat (apply elem_of_cons in Rm as [->|Rm]; [lia|]).
    by apply elem_of_nil in Rm. }
  lia.
Qed.

(** X1.  Whatever the record and the configuration, when the score is
    computed it is the plain sum of a domain sub-score among 0, 20, 35, 40,
    a platform sub-score among 0, 10, 15, 20, 25, 30, 40 and a metadata
    sub-score among 0, 5, 10, 15, 20: the final clamp to 0..100 never
    changes it. *)
Theorem score_is_sum_of_subscores
    (author_id platform url metadata : pyval) (score : Z) :
  _calculate_authenticity_score urlparse self author_id platform url metadata
  = Ok score ->
  exists d p m,
    _verify_domain urlparse self author_id url = Ok d /\
    _verify_platform urlparse self author_id platform metadata = Ok p /\
    _verify_metadata self author_id metadata = Ok m /\
    d ∈ [0; 20; 35; 40] /\
    p ∈ [0; 10; 15; 20; 25; 30; 40] /\
    m ∈ [0; 5; 10; 15; 20] /\
    score = d + p + m /\
    0 <= score <= 100.
Proof. apply calculate_sum. Qed.

(** What [validate] leaves behind, case by case. *)
Lemma validate_cases (content : gmap string pyval) :
  let author_id := default PNone (content !! "author") in
  let outcome := validate urlparse MIN_AUTHENTICITY_SCORE self content in
  (truthy author_id = false /\
   outcome = (Ok (), <["authenticity_score" := PInt 0]> content)) \/
  (truthy author_id = true /\
   exists e, outcome = (Raise e, content)) \/
  (truthy author_id = true /\
   exists e score,
     0 <= score <= 100 /\
     outcome = (Raise e, <["authenticity_score" := PInt score]> content)) \/
  (truthy author_id = true /\
   exists score md validation,
     0 <= score <= 100 /\
     _calculate_authenticity_score urlparse self author_id
       (default (PStr "") (content !! "platform"))
       (default (PStr "") (content !! "url")) (PDict md) = Ok score /\
     content !! "metadata" = Some (PDict md) /\
     default (PDict ∅) (md !! "validation") = PDict validation /\
     outcome
     = (Ok (),
        <["metadata" :=
            PDict (<["validation" :=
                       PDict (<["passed" :=
                                  PBool (MIN_AUTHENTICITY_SCORE <=? score)]>
                                (<["authenticity_score" := PInt score]>
                                   validation))]> md)]>
          (<["authenticity_score" := PInt score]> content))).
Proof.
  intros author_id outcome. unfold outcome, validate. fold author_id.
  destruct (truthy author_id) eqn:Hauthor; simpl negb; cbv iota;
    [|left; split; reflexivity].
  right.
  destruct (_calculate_authenticity_score urlparse self author_id _ _ _)
    as [score|e] eqn:Hscore.
  2:{ left. split; [done|]. by exists e. }
  right.
  destruct (calculate_sum _ _ _ _ _ Hscore)
    as (d & p & m & _ & _ & _ & _ & _ & _ & _ & Hrange).
  rewrite lookup_insert_ne by done.
  destruct (content !! "metadata") as [metadata|] eqn:Hmd.
  2:{ left. split; [done|]. by exists (KeyError "metadata"), score. }
  destruct metadata as [| | | | |md];
    try (left; split; [done|]; by exists TypeError, score).
  simpl in Hscore.
  destruct (md !! "validation") as [old|] eqn:Hold.
  - rewrite Hold.
    destruct old as [| | | | |validation];
      try (left; split; [done|]; by exists TypeError, score).
    right. split; [done|]. exists score, md, validation.
    rewrite Hold. done.
  - rewrite lookup_insert_eq.
    right. split; [done|]. exists score, md, ∅.
    rewrite Hold. repeat (split; [done|]).
    by rewrite insert_insert_eq.
Qed.

(** X2.  When [validate] returns, the record holds an int score between
    0 and 100; for a record with an author the same score is written in the
    validation entry, with [passed] telling whether it reaches
    [MIN_AUTHENTICITY_SCORE]; for a record without author the score is 0
    and the metadata are not touched. *)
Theorem validate_writes_score_and_verdict (content validated : gmap string pyval) :
  validate urlparse MIN_AUTHENTICITY_SCORE self content = (Ok (), validated) ->
  exists score,
    0 <= score <= 100 /\
    validated !! "authenticity_score" = Some (PInt score) /\
    (truthy (default PNone (content !! "author")) = true ->
     verdict validated
     = Some (PInt score, PBool (MIN_AUTHENTICITY_SCORE <=? score))) /\
    (truthy (default PNone (content !! "author")) = false ->
     score = 0 /\ validated !! "metadata" = content !! "metadata").
Proof.
  intros Hrun.
  destruct (validate_cases content)
    as [[Ha Hv]|[[Ha (e & Hv)]|[[Ha (e & sc & _ & Hv)]
        |[Ha (sc & md & vd & Hrange & _ & _ & _ & Hv)]]]];
    rewrite Hrun in Hv; simplify_eq.
  - exists 0. split; [lia|]. split; [by rewrite lookup_insert_eq|].
    split; [congruence|]. intros _. split; [done|].
    by rewrite lookup_insert_ne.
  - exists sc. split; [done|].
    split; [by rewrite lookup_insert_ne, lookup_insert_eq|].
    split; [|congruence]. intros _.
    unfold verdict. rewrite lookup_insert_eq, lookup_insert_eq.
    by rewrite lookup_insert_ne, !lookup_insert_eq.
Qed.

(** X3.  [validate] alters nothing but the score and the validation
    entry: every other key of the record, and every other key of its
    metadata dict, is what it was, whether the call returns or raises. *)
Theorem validate_frame (content : gmap string pyval) (r : result unit)
    (validated : gmap string pyval) :
  validate urlparse MIN_AUTHENTICITY_SCORE self content = (r, validated) ->
  (forall key, key <> "authenticity_score" -> key <> "metadata" ->
     validated !! key = content !! key) /\
  match content !! "metadata" with
  | Some (PDict md) =>
      exists md', validated !! "metadata" = Some (PDict md') /\
        forall key, key <> "validation" -> md' !! key = md !! key
  | other => validated !! "metadata" = other
  end.
Proof.
  intros Hrun.
  assert (Hsame : forall c : gmap string pyval,
    match c !! "metadata" with
    | Some (PDict md) =>
        exists md', c !! "metadata" = Some (PDict md') /\
          forall key, key <> "validation" -> md' !! key = md !! key
    | other => c !! "metadata" = other
    end).
  { intros c. destruct (c !! "metadata") as [[| | | | |md]|]; eauto. }
  destruct (validate_cases content)
    as [[Ha Hv]|[[Ha (e & Hv)]|[[Ha (e & sc & _ & Hv)]
        |[Ha (sc & md & vd & Hrange & _ & Hmd & _ & Hv)]]]];
    rewrite Hrun in Hv; simplify_eq.
  - split; [intros; by rewrite lookup_insert_ne|].
    rewrite lookup_insert_ne by done. apply Hsame.
  - split; [done | apply Hsame].
  - split; [intros; by rewrite lookup_insert_ne|].
    rewrite lookup_insert_ne by done. apply Hsame.
  - split; [intros; by rewrite !lookup_insert_ne|].
    rewrite Hmd, lookup_insert_eq. eexists. split; [done|].
    intros key Hkey. by rewrite lookup_insert_ne.
Qed.

Lemma validated_alone_cases (content : gmap string pyval) :
  let out := validated_alone urlparse MIN_AUTHENTICITY_SCORE self content in
  (exists e validated,
     validate urlparse MIN_AUTHENTICITY_SCORE self content = (Raise e, validated) /\
     out = <["authenticity_score" := PInt 0]> content) \/
  (exists validated,
     validate urlparse MIN_AUTHENTICITY_SCORE self content = (Ok (), validated) /\
     out = validated).
Proof.
  intros out. unfold out, validated_alone.
  destruct (validate_cases content)
    as [[Ha Hv]|[[Ha (e & Hv)]|[[Ha (e & sc & _ & Hv)]
        |[Ha (sc & md & vd & Hrange & _ & Hmd & _ & Hv)]]]];
    rewrite Hv.
  - right. eauto.
  - left. eauto.
  - left. exists e. eexists. split; [done|]. by rewrite insert_insert_eq.
  - right. eauto.
Qed.

(** X4.  A record with an author and without a [metadata] key is never
    validated: [validate] raises on it, and [validate_batch] returns the
    record with the score 0 and nothing else changed. *)
Theorem validate_needs_metadata (content : gmap string pyval) :
  truthy (default PNone (content !! "author")) = true ->
  content !! "metadata" = None ->
  (exists e validated,
     validate urlparse MIN_AUTHENTICITY_SCORE self content = (Raise e, validated)) /\
  validate_batch urlparse MIN_AUTHENTICITY_SCORE self [content]
  = [<["authenticity_score" := PInt 0]> content].
Proof.
  intros Hauthor Hmissing.
  assert (Hraises : exists e validated,
    validate urlparse MIN_AUTHENTICITY_SCORE self content = (Raise e, validated)).
  { destruct (validate_cases content)
      as [[Ha Hv]|[[Ha (e & Hv)]|[[Ha (e & sc & _ & Hv)]
          |[Ha (sc & md & vd & Hrange & _ & Hmd & _ & Hv)]]]];
      try congruence; eauto. }
  split; [done|].
  unfold validate_batch. rewrite validate_batch_from_eq. simpl. f_equal.
  destruct (validated_alone_cases content)
    as [(e & v & _ & ->)|(v & Hv & _)]; [done|].
  destruct Hraises as (e & v' & Hraise). congruence.
Qed.

Lemma validated_alone_in_range (content : gmap string pyval) :
  scored_in_range (validated_alone urlparse MIN_AUTHENTICITY_SCORE self content).
Proof.
  destruct (validated_alone_cases content)
    as [(e & v & _ & ->)|(v & Hv & ->)].
  - exists 0. split; [by rewrite lookup_insert_eq | lia].
  - destruct (validate_cases content)
      as [[Ha Hv']|[[Ha (e & Hv')]|[[Ha (e & sc & _ & Hv')]
          |[Ha (sc & md & vd & Hrange & _ & _ & _ & Hv')]]]];
      rewrite Hv in Hv'; simplify_eq.
    + exists 0. split; [by rewrite lookup_insert_eq | lia].
    + exists sc. split; [|done].
      by rewrite lookup_insert_ne, lookup_insert_eq.
Qed.

Lemma validate_batch_in_range (contents : list (gmap string pyval)) :
  Forall scored_in_range
    (validate_batch urlparse MIN_AUTHENTICITY_SCORE self contents).
Proof.
  unfold validate_batch. rewrite validate_batch_from_eq. simpl.
  apply Forall_fmap, Forall_forall. intros content _.
  apply validated_alone_in_range.
Qed.

(** X5.  Every record that [validate_batch] returns holds an int score
    between 0 and 100 under [authenticity_score], whatever the input
    records were: a caller can read and compare it without a check. *)
Theorem validate_batch_scores_every_record (contents : list (gmap string pyval)) :
  forall content,
    content ∈ validate_batch urlparse MIN_AUTHENTICITY_SCORE self contents ->
    exists score,
      content !! "authenticity_score" = Some (PInt score) /\ 0 <= score <= 100.
Proof.
  intros content Hin.
  pose proof (validate_batch_in_range contents) as Hall.
  rewrite Forall_forall in Hall. exact (Hall content Hin).
Qed.

(** The score reads the metadata through its size and through keys other
    than [validation] only. *)
Lemma verify_platform_ext (author_id platform : pyval)
    (md md' : gmap string pyval) :
  (forall key, key <> "validation" -> md !! key = md' !! key) ->
  _verify_platform urlparse self author_id platform (PDict md)
  = _verify_platform urlparse self author_id platform (PDict md').
Proof.
  intros Hkeys. unfold _verify_platform.
  destruct (negb (truthy platform)); [done|].
  destruct (get_by_key (authors_config self) author_id no_config) as [cfg|e];
    [|done].
  rewrite !bind_Ok.
  unfold _verify_twitter, _verify_youtube, _verify_blog, _verify_podcast,
    _verify_book, py_get.
  rewrite !bind_Ok.
  by rewrite (Hkeys "channel_name"), (Hkeys "blog_name"), (Hkeys "domain"),
    (Hkeys "podcast_name"), (Hkeys "book_title").
Qed.

Lemma verify_metadata_ext (author_id : pyval) (md md' : gmap string pyval) :
  size md = size md' ->
  (forall key, key <> "validation" -> md !! key = md' !! key) ->
  _verify_metadata self author_id (PDict md)
  = _verify_metadata self author_id (PDict md').
Proof.
  intros Hsize Hkeys. unfold _verify_metadata, py_get, py_len.
  by rewrite Hsize, (Hkeys "word_count"), (Hkeys "metrics").
Qed.

Lemma calculate_ext (author_id platform url : pyval)
    (md md' : gmap string pyval) :
  size md = size md' ->
  (forall key, key <> "validation" -> md !! key = md' !! key) ->
  _calculate_authenticity_score urlparse self author_id platform url (PDict md)
  = _calculate_authenticity_score urlparse self author_id platform url
      (PDict md').
Proof.
  intros Hsize Hkeys. unfold _calculate_authenticity_score.
  by rewrite (verify_platform_ext author_id platform md md' Hkeys),
    (verify_metadata_ext author_id md md' Hsize Hkeys).
Qed.

Lemma size_insert_present {V} (m : gmap string V) (key : string) (old new : V) :
  m !! key = Some old -> size (<[key := new]> m) = size m.
Proof.
  intros Hold. rewrite <- (insert_delete_eq m key new).
  rewrite <- (insert_delete_id m key old Hold) at 2.
  rewrite !map_size_insert_None by apply lookup_delete_eq. done.
Qed.

(** X8.  Once a record carries a validation entry, validating it again
    changes nothing: [validate] maps what it returned for such a record to
    itself, so the score and the verdict of a record are stable from its
    second validation on. *)
Theorem validate_idempotent_on_annotated
    (content validated md validation : gmap string pyval) :
  content !! "metadata" = Some (PDict md) ->
  md !! "validation" = Some (PDict validation) ->
  validate urlparse MIN_AUTHENTICITY_SCORE self content = (Ok (), validated) ->
  validate urlparse MIN_AUTHENTICITY_SCORE self validated = (Ok (), validated).
Proof.
  intros Hmd Hvalidation Hrun.
  destruct (validate_cases content)
    as [[Ha Hv]|[[Ha (e & Hv)]|[[Ha (e & sc & _ & Hv)]
        |[Ha (sc & md0 & vd & Hrange & Hscore & Hmd0 & Hvd & Hv)]]]];
    rewrite Hrun in Hv; try discriminate Hv; injection Hv as ->.
  - (* no author: the score 0 is written again *)
    destruct (validate_cases (<["authenticity_score" := PInt 0]> content))
      as [[Ha' Hv']|[[Ha' _]|[[Ha' _]|[Ha' _]]]];
      rewrite lookup_insert_ne in Ha' by done; try congruence.
    rewrite Hv'. by rewrite insert_insert_eq.
  - rewrite Hmd in Hmd0. injection Hmd0 as <-.
    rewrite Hvalidation in Hvd. simpl in Hvd. injection Hvd as <-.
    set (entry := PDict (<["passed" := PBool (MIN_AUTHENTICITY_SCORE <=? sc)]>
                           (<["authenticity_score" := PInt sc]> validation))).
    set (md1 := <["validation" := entry]> md).
    set (c1 := <["metadata" := PDict md1]>
                 (<["authenticity_score" := PInt sc]> content)).
    unfold validate.
    assert (c1 !! "author" = content !! "author") as ->.
    { unfold c1. by rewrite !lookup_insert_ne. }
    rewrite Ha. simpl negb. cbv iota.
    assert (c1 !! "platform" = content !! "platform") as ->.
    { unfold c1. by rewrite !lookup_insert_ne. }
    assert (c1 !! "url" = content !! "url") as ->.
    { unfold c1. by rewrite !lookup_insert_ne. }
    assert (c1 !! "metadata" = Some (PDict md1)) as Hmd1.
    { unfold c1. by rewrite lookup_insert_eq. }
    rewrite Hmd1. simpl default.
    assert (_calculate_authenticity_score urlparse self
              (default PNone (content !! "author"))
              (default (PStr "") (content !! "platform"))
              (default (PStr "") (content !! "url")) (PDict md1) = Ok sc) as ->.
    { rewrite <- Hscore. apply calculate_ext.
      - unfold md1. by apply (size_insert_present md "validation"
                                (PDict validation)).
      - intros key Hkey. unfold md1. by rewrite lookup_insert_ne. }
    rewrite lookup_insert_ne by done. rewrite Hmd1.
    assert (md1 !! "validation" = Some entry) as Hentry.
    { unfold md1. by rewrite lookup_insert_eq. }
    rewrite Hentry. cbv iota. rewrite Hentry. unfold entry at 1. cbv iota.
    f_equal.
    assert (Hvd' :
      <["passed" := PBool (MIN_AUTHENTICITY_SCORE <=? sc)]>
        (<["authenticity_score" := PInt sc]>
           (<["passed" := PBool (MIN_AUTHENTICITY_SCORE <=? sc)]>
              (<["authenticity_score" := PInt sc]> validation)))
      = <["passed" := PBool (MIN_AUTHENTICITY_SCORE <=? sc)]>
          (<["authenticity_score" := PInt sc]> validation)).
    { apply map_eq. intros key.
      destruct (decide (key = "passed")) as [->|Hp];
        [by rewrite !lookup_insert_eq|].
      rewrite (lookup_insert_ne _ "passed" key) by done.
      destruct (decide (key = "authenticity_score")) as [->|Hs].
      - rewrite lookup_insert_eq, lookup_insert_ne by done.
        by rewrite lookup_insert_eq.
      - by rewrite (lookup_insert_ne _ "authenticity_score" key). }
    rewrite Hvd'. fold entry.
    apply map_eq. intros key. unfold c1, md1.
    destruct (decide (key = "metadata")) as [->|Hm].
    + rewrite !lookup_insert_eq. by rewrite insert_insert_eq.
    + rewrite !(lookup_insert_ne _ "metadata" key) by done.
      destruct (decide (key = "authenticity_score")) as [->|Hs].
      * by rewrite !lookup_insert_eq.
      * rewrite !(lookup_insert_ne _ "authenticity_score" key) by done.
        rewrite (lookup_insert_ne _ "metadata" key) by done.
        by rewrite (lookup_insert_ne _ "authenticity_score" key).
Qed.

Lemma add_blog_domains_adds (bs : list Blog) :
  forall domains domains',
    add_blog_domains urlparse bs domains = Ok domains' ->
    forall blog d,
      blog ∈ bs -> blog_url blog <> "" ->
      netloc_domain urlparse (blog_url blog) = Ok d -> d <> "" ->
      d ∈ domains'.
Proof.
  clear MIN_AUTHENTICITY_SCORE self.
  induction bs as [|b rest IH]; intros domains domains' Hrun blog d Hin Hurl Hd Hne.
  { by apply elem_of_nil in Hin. }
  simpl in Hrun.
  apply elem_of_cons in Hin as [->|Hin].
  - destruct (String.eqb_spec (blog_url b) ""); [done|]. simpl in Hrun.
    rewrite Hd, bind_Ok in Hrun.
    destruct (String.eqb_spec d ""); [done|]. simpl in Hrun.
    destruct (decide (d ∈ domains)) as [Hold|Hnew].
    + rewrite bool_decide_eq_true_2 in Hrun by done. simpl in Hrun.
      by apply (add_blog_domains_keeps urlparse rest domains domains').
    + rewrite bool_decide_eq_false_2 in Hrun by done. simpl in Hrun.
      apply (add_blog_domains_keeps urlparse rest _ domains' Hrun).
      apply elem_of_app. right. by apply list_elem_of_singleton.
  - destruct (negb (String.eqb (blog_url b) "")); [|by eapply IH].
    apply bind_Ok_inv in Hrun as (d0 & _ & Hrun).
    destruct (negb (String.eqb d0 "") && negb (bool_decide (d0 ∈ domains)));
      by eapply IH.
Qed.

Lemma add_blog_domains_only (bs : list Blog) :
  forall domains domains',
    add_blog_domains urlparse bs domains = Ok domains' ->
    forall d, d ∈ domains' ->
      d ∈ domains \/
      exists blog, blog ∈ bs /\ netloc_domain urlparse (blog_url blog) = Ok d.
Proof.
  clear MIN_AUTHENTICITY_SCORE self.
  induction bs as [|b rest IH]; intros domains domains' Hrun d Hd; simpl in Hrun.
  { injection Hrun as <-. by left. }
  assert (Hrest : forall ds, add_blog_domains urlparse rest ds = Ok domains' ->
            (forall x, x ∈ ds -> x ∈ domains \/
               netloc_domain urlparse (blog_url b) = Ok x) ->
            d ∈ domains \/
            exists blog, blog ∈ b :: rest /\
              netloc_domain urlparse (blog_url blog) = Ok d).
  { intros ds Hds Hfrom. destruct (IH ds domains' Hds d Hd) as [Hin|(blog & Hb & Hn)].
    - destruct (Hfrom d Hin) as [?|?]; [by left|].
      right. exists b. split; [left | done].
    - right. exists blog. split; [by right | done]. }
  destruct (negb (String.eqb (blog_url b) "")); [|apply (Hrest domains); eauto].
  apply bind_Ok_inv in Hrun as (d0 & Hd0 & Hrun).
  destruct (negb (String.eqb d0 "") && negb (bool_decide (d0 ∈ domains))).
  - apply (Hrest _ Hrun). intros x Hx.
    apply elem_of_app in Hx as [Hx|Hx]; [by left|].
    apply list_elem_of_singleton in Hx as ->. by right.
  - apply (Hrest domains); eauto.
Qed.

(** X9.  The whitelist that the validator builds for a configured author
    holds every configured official domain and the host (with "www."
    removed) of every configured blog url, and nothing else; so a url on
    the host of a configured blog gets the full domain sub-score 40 even
    when the official domains do not list that host. *)
Theorem whitelist_covers_blog_hosts (cfg : gmap string AuthorConfig)
    (validator : AuthenticityValidator) (author_id : string)
    (config : AuthorConfig) :
  new urlparse cfg = Ok validator ->
  cfg !! author_id = Some config ->
  let whitelist := default [] (official_domains validator !! author_id) in
  (forall d, d ∈ official_domains_cfg config -> d ∈ whitelist) /\
  (forall blog d,
     blog ∈ blogs config -> blog_url blog <> "" ->
     netloc_domain urlparse (blog_url blog) = Ok d -> d <> "" ->
     d ∈ whitelist) /\
  (forall d, d ∈ whitelist ->
     d ∈ official_domains_cfg config \/
     exists blog,
       blog ∈ blogs config /\ netloc_domain urlparse (blog_url blog) = Ok d) /\
  (forall url d,
     url <> "" -> netloc_domain urlparse url = Ok d -> d ∈ whitelist ->
     _verify_domain urlparse validator (PStr author_id) (PStr url) = Ok 40).
Proof.
  clear MIN_AUTHENTICITY_SCORE self.
  intros Hnew Hconfig whitelist. unfold new in Hnew.
  apply bind_Ok_inv in Hnew as (wl & Hbuild & Hnew). injection Hnew as <-.
  pose proof (whitelist_of_config urlparse cfg wl Hbuild author_id) as Hwl.
  rewrite Hconfig in Hwl. destruct Hwl as (domains & Hdomains & Hlookup & Hoff).
  assert (whitelist = domains) as ->.
  { unfold whitelist. simpl. by rewrite Hlookup. }
  unfold author_whitelist in Hdomains.
  split; [done|]. split.
  { intros blog d.
    exact (add_blog_domains_adds (blogs config) _ domains Hdomains blog d). }
  split.
  { intros d. exact (add_blog_domains_only (blogs config) _ domains Hdomains d). }
  intros url d Hurl Hd Hin.
  rewrite verify_domain_eq by done. simpl. rewrite Hlookup. simpl. rewrite Hd.
  rewrite bool_decide_eq_false_2.
  2:{ intros ->. by apply elem_of_nil in Hin. }
  by rewrite bool_decide_eq_true_2.
Qed.

Lemma www_step (c : ascii) (rest : string) :
  (exists tail, String c rest = "www." +:+ tail) \/
  (replace_www (String c rest) = String c (replace_www rest) /\
   occurs_www (String c rest) = occurs_www rest).
Proof.
  clear.
  destruct c as [[] [] [] [] [] [] [] []]; try (right; split; reflexivity).
  destruct rest as [|c2 rest]; [right; split; reflexivity|].
  destruct c2 as [[] [] [] [] [] [] [] []]; try (right; split; reflexivity).
  destruct rest as [|c3 rest]; [right; split; reflexivity|].
  destruct c3 as [[] [] [] [] [] [] [] []]; try (right; split; reflexivity).
  destruct rest as [|c4 rest]; [right; split; reflexivity|].
  destruct c4 as [[] [] [] [] [] [] [] []]; try (right; split; reflexivity).
  left. by exists rest.
Qed.

(** Where ["www."] does not occur, [replace] has nothing to remove. *)
Lemma replace_www_free (s : string) :
  occurs_www s = false -> replace_www s = s.
Proof.
  clear.
  induction s as [|c rest IH]; [done|].
  destruct (www_step c rest) as [(tail & ->)|[-> ->]]; [done|].
  intros Hfree. by rewrite IH.
Qed.

(** A network location that is a host name with ["www."] at most in
    front: [replace] strips that prefix and nothing else. *)
Lemma replace_www_host (location host : string) :
  location = host \/ location = "www." +:+ host ->
  occurs_www host = false ->
  replace_www location = host.
Proof.
  clear.
  intros [->| ->] Hfree; [by apply replace_www_free|].
  change (replace_www ("www." +:+ host)) with (replace_www host).
  by apply replace_www_free.
Qed.

Lemma add_blog_domains_from (bs : list Blog) :
  forall domains domains',
    add_blog_domains urlparse bs domains = Ok domains' ->
    forall d, d ∈ domains' ->
      d ∈ domains \/
      exists blog,
        blog ∈ bs /\ blog_url blog <> "" /\
        netloc_domain urlparse (blog_url blog) = Ok d /\ d <> "".
Proof.
  clear MIN_AUTHENTICITY_SCORE self.
  induction bs as [|b rest IH]; intros domains domains' Hrun d Hd; simpl in Hrun.
  { injection Hrun as <-. by left. }
  assert (Hrest : add_blog_domains urlparse rest domains = Ok domains' ->
            d ∈ domains \/
            exists blog,
              blog ∈ b :: rest /\ blog_url blog <> "" /\
              netloc_domain urlparse (blog_url blog) = Ok d /\ d <> "").
  { intros Hsame. destruct (IH _ _ Hsame d Hd) as [Hin|(blog & Hb & Hrest)].
    - by left.
    - right. exists blog. split; [by right | done]. }
  destruct (String.eqb_spec (blog_url b) "") as [Hempty|Hurl]; simpl in Hrun;
    [by apply Hrest|].
  apply bind_Ok_inv in Hrun as (d0 & Hd0 & Hrun).
  destruct (String.eqb_spec d0 "") as [Hnone|Hsome]; simpl in Hrun;
    [by apply Hrest|].
  destruct (bool_decide (d0 ∈ domains)); simpl in Hrun; [by apply Hrest|].
  destruct (IH _ _ Hrun d Hd) as [Hin|(blog & Hb & Hblog)].
  - apply elem_of_app in Hin as [Hin|Hin]; [by left|].
    apply list_elem_of_singleton in Hin as ->.
    right. exists b. split; [left | done].
  - right. exists blog. split; [by right | done].
Qed.

(** The whitelist that [__init__] builds for an author. *)
Lemma whitelist_of_author (cfg : gmap string AuthorConfig)
    (validator : AuthenticityValidator) (author_id : string) :
  new urlparse cfg = Ok validator ->
  forall d,
    d ∈ default [] (official_domains validator !! author_id)
    <-> whitelisted urlparse (default no_config (cfg !! author_id)) d.
Proof.
  clear MIN_AUTHENTICITY_SCORE self.
  intros Hnew d. unfold new in Hnew.
  apply bind_Ok_inv in Hnew as (wl & Hbuild & Hnew). injection Hnew as <-.
  pose proof (whitelist_of_config urlparse cfg wl Hbuild author_id) as Hwl.
  simpl. destruct (cfg !! author_id) as [config|]; simpl.
  - destruct Hwl as (domains & Hdomains & -> & Hoff). simpl.
    unfold author_whitelist in Hdomains. unfold whitelisted. split.
    + exact (add_blog_domains_from (blogs config) _ domains Hdomains d).
    + intros [Hin|(blog & Hb & Hurl & Hd & Hne)]; [by apply Hoff|].
      exact (add_blog_domains_adds (blogs config) _ domains Hdomains blog d
               Hb Hurl Hd Hne).
  - rewrite Hwl. simpl. unfold whitelisted. simpl. split.
    + intros Hin. by apply elem_of_nil in Hin.
    + intros [Hin|(blog & Hb & _)]; by apply elem_of_nil in Hin || apply elem_of_nil in Hb.
Qed.

(** C5, as amended.  Domain sub-score, on the validator that [__init__]
    builds from a configuration.  The domains an author is checked
    against are the whitelist: the configured official domains and the
    hosts of the configured blogs.  A missing (falsy) url scores 0.
    Otherwise the score is 20 when the whitelist is empty; and, for a url
    whose network location is a plain host name [host], or ["www."]
    followed by it, with no other ["www."] in it: 40 when [host] is in the
    whitelist, 35 when it is not but ends with a dot followed by one of
    its entries, 0 when neither holds for any entry.  A url that cannot be
    parsed scores 0 as well. *)
Theorem domain_subscore (cfg : gmap string AuthorConfig)
    (validator : AuthenticityValidator) (author_id url : string) :
  new urlparse cfg = Ok validator ->
  let config := default no_config (cfg !! author_id) in
  let official := default [] (official_domains validator !! author_id) in
  let score := _verify_domain urlparse validator (PStr author_id) (PStr url) in
  (forall d, d ∈ official <-> whitelisted urlparse config d) /\
  (forall missing, truthy missing = false ->
     _verify_domain urlparse validator (PStr author_id) missing = Ok 0) /\
  (url <> "" -> official = [] -> score = Ok 20) /\
  (url <> "" -> official <> [] ->
     forall parsed host,
       urlparse url = Ok parsed ->
       netloc parsed = host \/ netloc parsed = "www." +:+ host ->
       plain_host host = true ->
       occurs_www host = false ->
       (host ∈ official -> score = Ok 40) /\
       (host ∉ official ->
        (exists d, d ∈ official /\ endswith host ("." +:+ d) = true) ->
        score = Ok 35) /\
       ((forall d, d ∈ official ->
           host <> d /\ endswith host ("." +:+ d) = false) ->
        score = Ok 0)) /\
  (url <> "" -> official <> [] ->
     forall e, urlparse url = Raise e -> score = Ok 0).
Proof.
  clear MIN_AUTHENTICITY_SCORE self.
  intros Hnew config official score.
  pose proof (verify_domain_eq urlparse validator author_id url) as Hscore.
  simpl in Hscore. fold official score in Hscore.
  split; [exact (whitelist_of_author cfg validator author_id Hnew)|].
  split; [|split; [|split]].
  - intros missing Hm. unfold _verify_domain. by rewrite Hm.
  - intros Hurl Hoff. rewrite (Hscore Hurl).
    by rewrite bool_decide_eq_true_2.
  - intros Hurl Hoff parsed host Hparsed Hloc _ Hfree.
    assert (Hhost : netloc_domain urlparse url = Ok host).
    { unfold netloc_domain. rewrite Hparsed, bind_Ok.
      by rewrite (replace_www_host (netloc parsed) host Hloc Hfree). }
    rewrite (Hscore Hurl), Hhost.
    rewrite bool_decide_eq_false_2 by done.
    split; [|split].
    + intros Hin. by rewrite bool_decide_eq_true_2.
    + intros Hnin (d & Hd & Hsub).
      rewrite bool_decide_eq_false_2 by done.
      assert (existsb (fun d => endswith host ("." +:+ d) || String.eqb host d)
                official = true) as ->; [|done].
      apply existsb_true_iff. exists d. by rewrite Hsub.
    + intros Hnone.
      rewrite bool_decide_eq_false_2.
      2:{ intros Hin. by destruct (Hnone host Hin). }
      assert (existsb (fun d => endswith host ("." +:+ d) || String.eqb host d)
                official = false) as ->; [|done].
      apply existsb_false_iff. intros d Hd.
      destruct (Hnone d Hd) as [Hne ->]. simpl.
      by apply String.eqb_neq.
  - intros Hurl Hoff e He. rewrite (Hscore Hurl).
    unfold netloc_domain. rewrite He. simpl.
    by rewrite bool_decide_eq_false_2.
Qed.

End ScorerProperties.

(** ** Filtering *)

Section FilterProperties.

Import Validator Scoring Pipeline Examples.

Variable urlparse : string -> result ParseResult.
Variable MIN_AUTHENTICITY_SCORE : Z.
Variable self : AuthenticityValidator.

Lemma leb_bool_decide (m z : Z) : (m <=? z) = bool_decide (m <= z).
Proof.
  destruct (Z.leb_spec m z).
  - by rewrite bool_decide_eq_true_2.
  - rewrite bool_decide_eq_false_2; [done | lia].
Qed.

Lemma py_ge_comparable (content : gmap string pyval) (m : Z) :
  py_ge (default (PInt 0) (content !! "authenticity_score")) m
  = if comparable content then Ok (bool_decide (m <= score_of content))
    else Raise TypeError.
Proof.
  unfold comparable, score_of.
  destruct (default (PInt 0) (content !! "authenticity_score")); simpl;
    try done; by rewrite leb_bool_decide.
Qed.

Lemma keep_scored_eq (contents : list (gmap string pyval)) (m : Z) :
  keep_scored contents m
  = if forallb comparable contents
    then Ok (filter (fun content => m <= score_of content) contents)
    else Raise TypeError.
Proof.
  induction contents as [|content rest IH]; simpl; [done|].
  rewrite py_ge_comparable, IH.
  destruct (comparable content); simpl; [|done].
  destruct (forallb comparable rest); simpl; [|done].
  f_equal. rewrite filter_cons.
  destruct (decide (m <= score_of content)) as [Hle|Hgt].
  - by rewrite bool_decide_eq_true_2.
  - by rewrite bool_decide_eq_false_2.
Qed.

(** C10.  [filter_by_score] takes a threshold of 0 for a missing one:
    with 0 as with [None] it keeps, in their order, the records whose
    score reaches [MIN_AUTHENTICITY_SCORE], not every record, while any
    other threshold is applied as it is given (the call raising
    [TypeError] when a score is not a number); and a record without an
    [authenticity_score] key counts as scoring 0: it is kept exactly when
    the threshold applied is not positive. *)
Theorem filter_by_score_threshold (contents : list (gmap string pyval)) :
  let filtered_at (threshold : Z) :=
    if forallb comparable contents
    then Ok (filter (fun content => threshold <= score_of content) contents)
    else Raise TypeError in
  filter_by_score MIN_AUTHENTICITY_SCORE contents (Some 0)
  = filtered_at MIN_AUTHENTICITY_SCORE /\
  filter_by_score MIN_AUTHENTICITY_SCORE contents None
  = filtered_at MIN_AUTHENTICITY_SCORE /\
  (forall m, m <> 0 ->
     filter_by_score MIN_AUTHENTICITY_SCORE contents (Some m) = filtered_at m) /\
  forall min_score kept content,
    filter_by_score MIN_AUTHENTICITY_SCORE contents min_score = Ok kept ->
    content !! "authenticity_score" = None ->
    (content ∈ kept
     <-> content ∈ contents /\
         effective_min MIN_AUTHENTICITY_SCORE min_score <= 0).
Proof.
  clear urlparse self.
  intros filtered_at.
  split; [by rewrite filter_by_score_eq, keep_scored_eq|].
  split; [by rewrite filter_by_score_eq, keep_scored_eq|].
  split.
  { intros m Hm. rewrite filter_by_score_eq, keep_scored_eq. simpl.
    by destruct (Z.eqb_spec m 0). }
  intros min_score kept content Hkept Hnone.
  rewrite filter_by_score_eq, keep_scored_eq in Hkept.
  destruct (forallb comparable contents); [|done].
  injection Hkept as <-.
  rewrite list_elem_of_filter.
  assert (score_of content = 0) as ->.
  { unfold score_of. by rewrite Hnone. }
  tauto.
Qed.

(** X6.  [filter_by_score] returns exactly when every record's score is
    missing, an int or a bool, and then it returns, in their order, the
    records whose score (0 when missing) reaches the threshold; a score
    of any other kind, such as the [None] of a record that was never
    validated, makes the whole call raise [TypeError]. *)
Theorem filter_by_score_returns (contents : list (gmap string pyval))
    (min_score : option Z) :
  let threshold := effective_min MIN_AUTHENTICITY_SCORE min_score in
  (forallb comparable contents = true ->
   filter_by_score MIN_AUTHENTICITY_SCORE contents min_score
   = Ok (filter (fun content => threshold <= score_of content) contents)) /\
  (forallb comparable contents = false ->
   filter_by_score MIN_AUTHENTICITY_SCORE contents min_score = Raise TypeError).
Proof.
  intros threshold. rewrite filter_by_score_eq, keep_scored_eq. fold threshold.
  split; intros ->; done.
Qed.

Lemma scored_in_range_comparable (content : gmap string pyval) :
  scored_in_range content -> comparable content = true.
Proof. intros (score & Hscore & _). unfold comparable. by rewrite Hscore. Qed.

(** X7.  The pipeline of the orchestrator: filtering what [validate_batch]
    returned never raises, whatever the records and the threshold, and
    keeps the records whose score reaches the threshold. *)
Theorem filter_after_validate_batch (contents : list (gmap string pyval))
    (min_score : option Z) :
  let validated := validate_batch urlparse MIN_AUTHENTICITY_SCORE self contents in
  filter_by_score MIN_AUTHENTICITY_SCORE validated min_score
  = Ok (filter (fun content =>
                  effective_min MIN_AUTHENTICITY_SCORE min_score
                  <= score_of content) validated).
Proof.
  intros validated. rewrite filter_by_score_eq, keep_scored_eq.
  assert (forallb comparable validated = true) as ->; [|done].
  apply forallb_forall. intros content Hin.
  apply scored_in_range_comparable.
  pose proof (validate_batch_in_range urlparse MIN_AUTHENTICITY_SCORE self
                contents) as Hall.
  rewrite Forall_forall in Hall. apply Hall. by apply list_elem_of_In.
Qed.

End FilterProperties.

(** ** The scorer and the filter on concrete inputs *)

Section ScorerExamples.

Import Validator Scoring Pipeline Examples MoreExamples.

#[local] Abbreviation urlparse := UrlparseAscii.urlparse.

Lemma score_is_sum_of_subscores_witness :
  exists d p m,
    _verify_domain urlparse tim_validator (PStr "tim_ferriss")
      (PStr "https://tim.blog/x") = Ok d /\
    _verify_platform urlparse tim_validator (PStr "tim_ferriss") (PStr "blog")
      (PDict example_metadata) = Ok p /\
    _verify_metadata tim_validator (PStr "tim_ferriss") (PDict example_metadata)
    = Ok m /\
    d ∈ [0; 20; 35; 40] /\
    p ∈ [0; 10; 15; 20; 25; 30; 40] /\
    m ∈ [0; 5; 10; 15; 20] /\
    95 = d + p + m /\
    0 <= 95 <= 100.
Proof.
  apply (score_is_sum_of_subscores urlparse tim_validator (PStr "tim_ferriss")
           (PStr "blog") (PStr "https://tim.blog/x") (PDict example_metadata) 95).
  by_vm.
Defined.

Lemma validate_writes_score_and_verdict_witness :
  exists score,
    0 <= score <= 100 /\
    tweet_once !! "authenticity_score" = Some (PInt score) /\
    (truthy (default PNone (tweet !! "author")) = true ->
     verdict tweet_once = Some (PInt score, PBool (75 <=? score))) /\
    (truthy (default PNone (tweet !! "author")) = false ->
     score = 0 /\ tweet_once !! "metadata" = tweet !! "metadata").
Proof.
  apply (validate_writes_score_and_verdict urlparse 75 bare_validator tweet
           tweet_once).
  by_vm.
Defined.

Lemma validate_frame_witness :
  (forall key, key <> "authenticity_score" -> key <> "metadata" ->
     tweet_once !! key = tweet !! key) /\
  match tweet !! "metadata" with
  | Some (PDict md) =>
      exists md', tweet_once !! "metadata" = Some (PDict md') /\
        forall key, key <> "validation" -> md' !! key = md !! key
  | other => tweet_once !! "metadata" = other
  end.
Proof.
  apply (validate_frame urlparse 75 bare_validator tweet (Ok ()) tweet_once).
  by_vm.
Defined.

Lemma validate_needs_metadata_witness :
  (exists e validated,
     validate urlparse 75 bare_validator no_metadata = (Raise e, validated)) /\
  validate_batch urlparse 75 bare_validator [no_metadata]
  = [<["authenticity_score" := PInt 0]> no_metadata].
Proof.
  apply (validate_needs_metadata urlparse 75 bare_validator no_metadata);
    by_vm.
Defined.

Lemma validate_batch_scores_every_record_witness :
  exists score,
    tweet_once !! "authenticity_score" = Some (PInt score) /\ 0 <= score <= 100.
Proof.
  apply (validate_batch_scores_every_record urlparse 75 bare_validator
           [no_metadata; tweet] tweet_once).
  rewrite (proj2 batch_with_failure).
  apply elem_of_cons. right. apply list_elem_of_singleton. reflexivity.
Defined.

Lemma filter_by_score_returns_witness :
  filter_by_score 75 [scored 50; scored 80; ∅] None
  = Ok (filter (fun content => 75 <= score_of content) [scored 50; scored 80; ∅])
  /\ filter_by_score 75 [scored 80; unscored] None = Raise TypeError.
Proof.
  split.
  - apply (filter_by_score_returns 75 [scored 50; scored 80; ∅] None). by_vm.
  - apply (filter_by_score_returns 75 [scored 80; unscored] None). by_vm.
Defined.

Lemma validate_idempotent_on_annotated_witness :
  validate urlparse 75 bare_validator tweet_twice = (Ok (), tweet_twice).
Proof.
  apply (validate_idempotent_on_annotated urlparse 75 bare_validator
           tweet_once tweet_twice tweet_metadata_once
           (<["passed" := PBool false]>
              (<["authenticity_score" := PInt 70]> ∅)));
    by_vm.
Defined.

Example blogger_validator_built :
  new urlparse blogger_config = Ok blogger_validator.
Proof. by_vm. Qed.

Lemma whitelist_covers_blog_hosts_witness :
  _verify_domain urlparse blogger_validator (PStr "naval")
    (PStr "https://nav.al/feedback") = Ok 40.
Proof.
  destruct (whitelist_covers_blog_hosts urlparse blogger_config
              blogger_validator "naval" blogger blogger_validator_built eq_refl)
    as (_ & Hblog & _ & Hscore).
  apply (Hscore "https://nav.al/feedback" "nav.al").
  - discriminate.
  - by_vm.
  - apply (Hblog {| blog_name := Some "Naval"; blog_url := "https://www.nav.al/" |}).
    + apply list_elem_of_singleton. reflexivity.
    + discriminate.
    + by_vm.
    + discriminate.
Defined.

(** C5, counterexample.  A profile with a blog and no official domain
    gives 0, not 20, to a foreign url; and with the official domain
    [tim.blog], the host [tim.blog] written with its port scores 0, not
    40, the host [tim.www.blog] scores 40, not 0, and the subdomain
    [evilwww.tim.blog] scores 0, not 35. *)
Lemma domain_subscore_counterexample :
  (official_domains_cfg blogger = [] /\
   new urlparse blogger_config = Ok blogger_validator /\
   _verify_domain urlparse blogger_validator (PStr "naval")
     (PStr "https://evil.com/x") = Ok 0 /\
   _verify_domain urlparse blogger_validator (PStr "naval")
     (PStr "https://evil.com/x") <> Ok 20) /\
  (official_domains_cfg tim = ["tim.blog"] /\
   new urlparse tim_config = Ok tim_validator /\
   _verify_domain urlparse tim_validator (PStr "tim_ferriss")
     (PStr "https://tim.blog:443/x") = Ok 0 /\
   _verify_domain urlparse tim_validator (PStr "tim_ferriss")
     (PStr "https://tim.blog:443/x") <> Ok 40 /\
   _verify_domain urlparse tim_validator (PStr "tim_ferriss")
     (PStr "https://tim.www.blog/x") = Ok 40 /\
   _verify_domain urlparse tim_validator (PStr "tim_ferriss")
     (PStr "https://tim.www.blog/x") <> Ok 0 /\
   _verify_domain urlparse tim_validator (PStr "tim_ferriss")
     (PStr "https://evilwww.tim.blog/x") = Ok 0 /\
   _verify_domain urlparse tim_validator (PStr "tim_ferriss")
     (PStr "https://evilwww.tim.blog/x") <> Ok 35).
Proof.
  assert (H1 : _verify_domain urlparse blogger_validator (PStr "naval")
                 (PStr "https://evil.com/x") = Ok 0) by by_vm.
  assert (H2 : _verify_domain urlparse tim_validator (PStr "tim_ferriss")
                 (PStr "https://tim.blog:443/x") = Ok 0) by by_vm.
  assert (H3 : _verify_domain urlparse tim_validator (PStr "tim_ferriss")
                 (PStr "https://tim.www.blog/x") = Ok 40) by by_vm.
  assert (H4 : _verify_domain urlparse tim_validator (PStr "tim_ferriss")
                 (PStr "https://evilwww.tim.blog/x") = Ok 0) by by_vm.
  rewrite H1, H2, H3, H4.
  split.
  - split; [reflexivity|]. split; [by_vm|]. split; [reflexivity | discriminate].
  - split; [reflexivity|]. split; [by_vm|].
    repeat split; discriminate.
Qed.

Lemma domain_subscore_witness :
  _verify_domain urlparse tim_validator (PStr "tim_ferriss")
    (PStr "https://www.sub.tim.blog/x") = Ok 35.
Proof.
  destruct (domain_subscore urlparse tim_config tim_validator "tim_ferriss"
              "https://www.sub.tim.blog/x" ltac:(by_vm))
    as (_ & _ & _ & H & _).
  destruct (H ltac:(discriminate) ltac:(discriminate)
              {| scheme := "https"; netloc := "www.sub.tim.blog" |}
              "sub.tim.blog" ltac:(by_vm) ltac:(right; reflexivity)
              eq_refl eq_refl)
    as (_ & H35 & _).
  apply H35.
  - intros Hin. apply list_elem_of_singleton in Hin. discriminate.
  - exists "tim.blog". split; [apply list_elem_of_singleton | ]; reflexivity.
Defined.

Lemma filter_by_score_threshold_witness :
  filter_by_score 75 [scored 50; scored 80; ∅] (Some 0) = Ok [scored 80] /\
  (∅ : gmap string pyval) ∉ [scored 80].
Proof.
  destruct (filter_by_score_threshold 75 [scored 50; scored 80; ∅])
    as (Hzero & _ & _ & Hkey).
  split.
  - rewrite Hzero. by_vm.
  - intros Hin.
    apply (Hkey (Some 0) [scored 80] ∅) in Hin; [|by_vm | reflexivity].
    destruct Hin as [_ Hle]. vm_compute in Hle. by apply Hle.
Defined.

End ScorerExamples.

(** ** The fetch gateway: accounting, waits and the robots cache *)

Section GatewayProperties.

Import BaseScraper Gateway.

Variable urlparse : string -> result ParseResult.
Variable read_robots : string -> result RobotFileParser.
Variable MAX_RETRIES : Z.
Variable USER_AGENT : string.

(** What one attempt does to the counters, the request log and the waits,
    from any state. *)
Lemma fetch_url_body_effects (env : attempt_env) (url method : string)
    (s : State) (r : result Response) (s' : State) :
  fetch_url_body urlparse read_robots USER_AGENT env url method s = (r, s') ->
  slept s' = slept s /\
  items_scraped (stats s') = items_scraped (stats s) /\
  items_filtered (stats s') = items_filtered (stats s) /\
  ((is_Ok r = false /\ stats s' = stats s /\
    requests_sent s' = requests_sent s) \/
   (requests_sent s' = requests_sent s ++ [(method, url)] /\
    total_requests (stats s') = total_requests (stats s) + 1 /\
    r = attempt_result (outcome env) /\
    match r with
    | Ok _ =>
        successful_requests (stats s') = successful_requests (stats s) + 1 /\
        failed_requests (stats s') = failed_requests (stats s)
    | Raise e =>
        successful_requests (stats s') = successful_requests (stats s) /\
        failed_requests (stats s')
        = failed_requests (stats s) + (if is_RequestException e then 1 else 0)
    end)).
Proof.
  rewrite fetch_url_body_eq.
  destruct (can_fetch_frame urlparse read_robots USER_AGENT url s)
    as [(Hrl & Hstats & _ & Hsent & Hslept) _].
  destruct (can_fetch urlparse read_robots USER_AGENT url s) as [[[|]|e] s1];
    simpl in *.
  - destruct (RateLimiter.wait_if_needed (tick env) (clock s1) (rate_limiter s1))
      as [[[now'|ex] now] rl]; simpl.
    + intros [= <- <-].
      destruct (attempt_result (outcome env)) as [resp|e] eqn:Hattempt;
        [|destruct (is_RequestException e) eqn:Hreq]; simpl;
        rewrite ?Hstats, ?Hsent, ?Hslept;
        (split; [done|]); (split; [done|]); (split; [done|]);
        right; rewrite ?Hreq; repeat split; simpl;
        rewrite ?Hstats, ?Hsent; first [reflexivity | lia].
    + intros [= <- <-]. simpl. rewrite Hstats.
      split; [done|]. split; [done|]. split; [done|]. by left.
  - intros [= <- <-]. rewrite Hstats.
    split; [done|]. split; [done|]. split; [done|]. by left.
  - intros [= <- <-]. rewrite Hstats.
    split; [done|]. split; [done|]. split; [done|]. by left.
Qed.

Lemma retrying_accounting (env : Z -> attempt_env) (url method : string)
    (fuel : nat) :
  forall (a : Z) (s : State) (r : result Response) (s' : State),
    retrying urlparse read_robots MAX_RETRIES USER_AGENT fuel a env url method s
    = Some (r, s') ->
    total_requests (stats s') - total_requests (stats s)
    = Z.of_nat (length (requests_sent s')) - Z.of_nat (length (requests_sent s)) /\
    successful_requests (stats s')
    = successful_requests (stats s) + (if is_Ok r then 1 else 0) /\
    failed_requests (stats s) <= failed_requests (stats s') /\
    successful_requests (stats s') + failed_requests (stats s')
      - total_requests (stats s')
    <= successful_requests (stats s) + failed_requests (stats s)
       - total_requests (stats s) /\
    items_scraped (stats s') = items_scraped (stats s) /\
    items_filtered (stats s') = items_filtered (stats s).
Proof.
  assert (Hone : forall (e : attempt_env) s r1 s1,
    fetch_url_body urlparse read_robots USER_AGENT e url method s = (r1, s1) ->
    total_requests (stats s1) - total_requests (stats s)
    = Z.of_nat (length (requests_sent s1)) - Z.of_nat (length (requests_sent s)) /\
    successful_requests (stats s1)
    = successful_requests (stats s) + (if is_Ok r1 then 1 else 0) /\
    failed_requests (stats s) <= failed_requests (stats s1) /\
    successful_requests (stats s1) + failed_requests (stats s1)
      - total_requests (stats s1)
    <= successful_requests (stats s) + failed_requests (stats s)
       - total_requests (stats s) /\
    items_scraped (stats s1) = items_scraped (stats s) /\
    items_filtered (stats s1) = items_filtered (stats s)).
  { intros e s r1 s1 Hbody.
    destruct (fetch_url_body_effects e url method s r1 s1 Hbody)
      as (_ & Hi1 & Hi2 & [(Hr & Hst & Hsent)|(Hsent & Htot & _ & Hr)]).
    - rewrite Hst, Hsent, Hr. repeat split; lia.
    - rewrite Hsent, length_app. simpl.
      destruct r1 as [resp|ex]; simpl; destruct Hr as [Hs Hf].
      + repeat split; lia.
      + destruct (is_RequestException ex); repeat split; lia. }
  induction fuel as [|fuel IH]; intros a s r s'; simpl;
    destruct (fetch_url_body urlparse read_robots USER_AGENT (env a) url method s)
      as [[resp|e] s1] eqn:Hbody;
    pose proof (Hone _ _ _ _ Hbody) as H1.
  - intros [= <- <-]. exact H1.
  - destruct (retry_if_exception_type e);
      [destruct (stop_after_attempt MAX_RETRIES a); [|done]|];
      intros [= <- <-]; exact H1.
  - intros [= <- <-]. exact H1.
  - destruct (retry_if_exception_type e);
      [destruct (stop_after_attempt MAX_RETRIES a)|];
      try (intros [= <- <-]; exact H1).
    intros Hrest. apply IH in Hrest. simpl in *. lia.
Qed.

(** X10.  The counters of [fetch_url] account for what happened:
    [total_requests] grows by the number of requests sent through the
    session, [successful_requests] grows by one exactly when the call
    returns a response, [failed_requests] never decreases, and successful
    plus failed never overtakes the total (they fall short of it by the
    attempts that ended in an exception that is no [RequestException]);
    the item counters are not touched. *)
Theorem fetch_url_accounting (env : Z -> attempt_env) (url method : string)
    (s : State) (r : result Response) (s' : State) :
  fetch_url urlparse read_robots MAX_RETRIES USER_AGENT env url method s
  = Some (r, s') ->
  total_requests (stats s') - total_requests (stats s)
  = Z.of_nat (length (requests_sent s')) - Z.of_nat (length (requests_sent s)) /\
  successful_requests (stats s')
  = successful_requests (stats s) + (if is_Ok r then 1 else 0) /\
  failed_requests (stats s) <= failed_requests (stats s') /\
  successful_requests (stats s') + failed_requests (stats s')
    - total_requests (stats s')
  <= successful_requests (stats s) + failed_requests (stats s)
     - total_requests (stats s) /\
  items_scraped (stats s') = items_scraped (stats s) /\
  items_filtered (stats s') = items_filtered (stats s).
Proof. apply retrying_accounting. Qed.

Lemma backoff_bounds (n : Z) : 4 <= backoff n <= 10.
Proof. unfold backoff. lia. Qed.

Lemma backoff_mono (n m : Z) : 1 <= n <= m -> backoff n <= backoff m.
Proof.
  intros H. unfold backoff.
  assert (2 ^ (n - 1) <= 2 ^ (m - 1)) by (apply Z.pow_le_mono_r; lia).
  lia.
Qed.

Lemma retrying_waits (env : Z -> attempt_env) (url method : string)
    (fuel : nat) :
  forall (a : Z) (s : State) (r : result Response) (s' : State),
    1 <= a ->
    retrying urlparse read_robots MAX_RETRIES USER_AGENT fuel a env url method s
    = Some (r, s') ->
    exists k, 0 <= k /\ a + k <= Z.max a MAX_RETRIES /\
      slept s' = slept s ++ map backoff (seqZ a k).
Proof.
  induction fuel as [|fuel IH]; intros a s r s' Ha; simpl;
    destruct (fetch_url_body urlparse read_robots USER_AGENT (env a) url method s)
      as [[resp|e] s1] eqn:Hbody;
    destruct (fetch_url_body_effects _ _ _ _ _ _ Hbody) as (Hslept & _).
  1,3: intros [= <- <-]; exists 0; rewrite Hslept, app_nil_r;
       (split; [lia|]); (split; [lia | done]).
  - destruct (retry_if_exception_type e);
      [destruct (stop_after_attempt MAX_RETRIES a); [|done]|];
      intros [= <- <-]; exists 0; rewrite Hslept, app_nil_r;
      (split; [lia|]); (split; [lia | done]).
  - destruct (retry_if_exception_type e).
    2:{ intros [= <- <-]. exists 0. rewrite Hslept, app_nil_r.
        split; [lia|]. split; [lia | done]. }
    unfold stop_after_attempt. destruct (Z.leb_spec MAX_RETRIES a) as [Hstop|Hgo].
    { intros [= <- <-]. exists 0. rewrite Hslept, app_nil_r.
      split; [lia|]. split; [lia | done]. }
    intros Hrest. apply IH in Hrest as (k & Hk & Hbound & Hwaits); [|lia].
    exists (k + 1). split; [lia|]. split; [lia|].
    rewrite Hwaits. simpl. rewrite Hslept, <- app_assoc. f_equal.
    rewrite wait_exponential_backoff.
    rewrite (seqZ_cons a (k + 1)) by lia. simpl. do 3 f_equal; lia.
Qed.

(** X11.  The waits of one call of [fetch_url], from any state and for any
    url: there are fewer of them than [max(1, MAX_RETRIES)], each lasts
    between 4 and 10 seconds, and they never get shorter from one retry to
    the next. *)
Theorem fetch_url_waits (env : Z -> attempt_env) (url method : string)
    (s : State) (r : result Response) (s' : State) :
  fetch_url urlparse read_robots MAX_RETRIES USER_AGENT env url method s
  = Some (r, s') ->
  exists waits,
    slept s' = slept s ++ waits /\
    Z.of_nat (length waits) < Z.max 1 MAX_RETRIES /\
    Forall (fun w => 4 <= w <= 10) waits /\
    forall i j w w', (i <= j)%nat ->
      waits !! i = Some w -> waits !! j = Some w' -> w <= w'.
Proof.
  intros Hrun. unfold fetch_url in Hrun.
  apply retrying_waits in Hrun as (k & Hk & Hbound & Hwaits); [|lia].
  exists (map backoff (seqZ 1 k)). split; [done|].
  split; [rewrite length_map, length_seqZ; lia|].
  split.
  - apply Forall_fmap, Forall_forall. intros n _. apply backoff_bounds.
  - intros i j w w' Hij Hi Hj.
    rewrite list_lookup_fmap in Hi, Hj.
    destruct (seqZ 1 k !! i) as [n|] eqn:Hn; [|done].
    destruct (seqZ 1 k !! j) as [m|] eqn:Hm; [|done].
    simpl in Hi, Hj. injection Hi as <-. injection Hj as <-.
    apply lookup_seqZ in Hn as [-> _]. apply lookup_seqZ in Hm as [-> _].
    apply backoff_mono. lia.
Qed.

(** X12.  The robots cache: after a first query for a url, a query for any
    url on the same scheme and host answers from the cache, without loading
    robots.txt again and without changing the scraper in any way; and it
    gives the same answer as the first one when it is for the same url. *)
Theorem robots_loaded_once (url url' : string) (parsed parsed' : ParseResult)
    (s : State) :
  urlparse url = Ok parsed ->
  urlparse url' = Ok parsed' ->
  base_url_of parsed' = base_url_of parsed ->
  let first := can_fetch urlparse read_robots USER_AGENT url s in
  exists rp,
    robot_parsers first.2 !! base_url_of parsed = Some rp /\
    first.1 = Ok (allows USER_AGENT rp url) /\
    can_fetch urlparse read_robots USER_AGENT url' first.2
    = (Ok (allows USER_AGENT rp url'), first.2).
Proof.
  intros Hurl Hurl' Hbase first. unfold first.
  rewrite !can_fetch_eq, Hurl, Hurl'. simpl. rewrite Hbase.
  destruct (robot_parsers s !! base_url_of parsed) as [rp|] eqn:Hcache; simpl.
  - exists rp. by rewrite Hcache.
  - exists (loaded read_robots (base_url_of parsed)).
    by rewrite lookup_insert_eq.
Qed.

(** X13.  The robots check fails open: when robots.txt of a host cannot be
    loaded, the first query for a url on that host answers yes, and so
    does every later query for a url on that host, whatever was fetched in
    between. *)
Theorem robots_unavailable_allows (url url' : string)
    (parsed parsed' : ParseResult) (e : exn) (s later : State) :
  urlparse url = Ok parsed ->
  urlparse url' = Ok parsed' ->
  base_url_of parsed' = base_url_of parsed ->
  robot_parsers s !! base_url_of parsed = None ->
  read_robots (base_url_of parsed +:+ "/robots.txt") = Raise e ->
  cache_extends read_robots
    (can_fetch urlparse read_robots USER_AGENT url s).2 later ->
  (can_fetch urlparse read_robots USER_AGENT url s).1 = Ok true /\
  robots_loaded (can_fetch urlparse read_robots USER_AGENT url s).2
  = robots_loaded s ++ [base_url_of parsed +:+ "/robots.txt"] /\
  can_fetch urlparse read_robots USER_AGENT url' later = (Ok true, later).
Proof.
  intros Hurl Hurl' Hbase Hcold Hread Hlater.
  rewrite can_fetch_eq, Hurl in Hlater. simpl in Hlater.
  rewrite Hcold in Hlater. simpl in Hlater.
  rewrite !can_fetch_eq, Hurl, Hurl'. simpl. rewrite Hcold, Hbase. simpl.
  assert (Hnone : loaded read_robots (base_url_of parsed) = None).
  { unfold loaded. by rewrite Hread. }
  rewrite Hnone. simpl. split; [done|]. split; [done|].
  destruct (Hlater (base_url_of parsed)) as [Hsame|[Habsent _]].
  - simpl in Hsame. rewrite lookup_insert_eq in Hsame.
    by rewrite Hsame, Hnone.
  - simpl in Habsent. by rewrite lookup_insert_eq in Habsent.
Qed.

Lemma fetch_url_body_cache (env : attempt_env) (url method : string)
    (s : State) :
  cache_extends read_robots s
    (fetch_url_body urlparse read_robots USER_AGENT env url method s).2.
Proof.
  rewrite fetch_url_body_eq.
  destruct (can_fetch_frame urlparse read_robots USER_AGENT url s) as [_ Hext].
  destruct (can_fetch urlparse read_robots USER_AGENT url s) as [[[|]|e] s1];
    simpl in *; try done.
  destruct (RateLimiter.wait_if_needed (tick env) (clock s1) (rate_limiter s1))
    as [[[now'|ex] now] rl]; simpl; [|done].
  destruct (attempt_result (outcome env)) as [resp|e];
    [|destruct (is_RequestException e)]; done.
Qed.

Lemma retrying_cache (env : Z -> attempt_env) (url method : string)
    (fuel : nat) :
  forall (a : Z) (s : State) (r : result Response) (s' : State),
    retrying urlparse read_robots MAX_RETRIES USER_AGENT fuel a env url method s
    = Some (r, s') ->
    cache_extends read_robots s s'.
Proof.
  induction fuel as [|fuel IH]; intros a s r s'; simpl;
    pose proof (fetch_url_body_cache (env a) url method s) as Hext;
    destruct (fetch_url_body urlparse read_robots USER_AGENT (env a) url method s)
      as [[resp|e] s1]; simpl in Hext.
  - by intros [= <- <-].
  - destruct (retry_if_exception_type e);
      [destruct (stop_after_attempt MAX_RETRIES a); [|done]|];
      by intros [= <- <-].
  - by intros [= <- <-].
  - destruct (retry_if_exception_type e);
      [destruct (stop_after_attempt MAX_RETRIES a)|];
      try by intros [= <- <-].
    intros Hrest. apply IH in Hrest.
    apply (cache_extends_trans read_robots s (sleep (wait_exponential 1 4 10 a) s1));
      [|done].
    intros base_url. apply Hext.
Qed.

(** X14.  A call of [fetch_url] never replaces or drops an entry of the
    robots cache: a host that was cached keeps its parser (or its
    "unavailable" mark), and a host that is cached afterwards and was not
    before holds what loading its robots.txt gives. *)
Theorem fetch_url_keeps_robots_cache (env : Z -> attempt_env)
    (url method : string) (s : State) (r : result Response) (s' : State) :
  fetch_url urlparse read_robots MAX_RETRIES USER_AGENT env url method s
  = Some (r, s') ->
  forall base_url,
    match robot_parsers s !! base_url with
    | Some rp => robot_parsers s' !! base_url = Some rp
    | None =>
        robot_parsers s' !! base_url = None \/
        robot_parsers s' !! base_url = Some (loaded read_robots base_url)
    end.
Proof.
  intros Hrun base_url. apply retrying_cache in Hrun.
  destruct (Hrun base_url) as [->|[-> ->]].
  - destruct (robot_parsers s !! base_url); [done | by left].
  - by right.
Qed.

End GatewayProperties.

(** ** The fetch gateway on more concrete inputs *)

Section GatewayExamples.

Import BaseScraper Gateway Examples MoreExamples.

#[local] Abbreviation urlparse := UrlparseAscii.urlparse.
#[local] Abbreviation UA := "ContentScraperBot/1.0".

Example fetch_404_state :
  fetch_url urlparse robots_missing 3 UA (always 404) "https://tim.blog/x" "GET"
    fresh_scraper
  = Some (Raise RetryError, after_404).
Proof. by_vm. Qed.

Lemma fetch_url_accounting_witness :
  total_requests (stats after_404) - total_requests (stats fresh_scraper)
  = Z.of_nat (length (requests_sent after_404))
    - Z.of_nat (length (requests_sent fresh_scraper)) /\
  successful_requests (stats after_404)
  = successful_requests (stats fresh_scraper)
    + (if is_Ok (Raise RetryError : result Response) then 1 else 0) /\
  failed_requests (stats fresh_scraper) <= failed_requests (stats after_404) /\
  successful_requests (stats after_404) + failed_requests (stats after_404)
    - total_requests (stats after_404)
  <= successful_requests (stats fresh_scraper)
     + failed_requests (stats fresh_scraper)
     - total_requests (stats fresh_scraper) /\
  items_scraped (stats after_404) = items_scraped (stats fresh_scraper) /\
  items_filtered (stats after_404) = items_filtered (stats fresh_scraper).
Proof.
  apply (fetch_url_accounting urlparse robots_missing 3 UA (always 404)
           "https://tim.blog/x" "GET" fresh_scraper (Raise RetryError) after_404).
  exact fetch_404_state.
Defined.

Lemma fetch_url_waits_witness :
  exists waits,
    slept after_404 = slept fresh_scraper ++ waits /\
    Z.of_nat (length waits) < Z.max 1 3 /\
    Forall (fun w => 4 <= w <= 10) waits /\
    forall i j w w', (i <= j)%nat ->
      waits !! i = Some w -> waits !! j = Some w' -> w <= w'.
Proof.
  apply (fetch_url_waits urlparse robots_missing 3 UA (always 404)
           "https://tim.blog/x" "GET" fresh_scraper (Raise RetryError) after_404).
  exact fetch_404_state.
Defined.

Lemma fetch_url_keeps_robots_cache_witness :
  robot_parsers after_404 !! "https://tim.blog" = None \/
  robot_parsers after_404 !! "https://tim.blog"
  = Some (loaded robots_missing "https://tim.blog").
Proof.
  exact (fetch_url_keeps_robots_cache urlparse robots_missing 3 UA (always 404)
           "https://tim.blog/x" "GET" fresh_scraper (Raise RetryError) after_404
           fetch_404_state "https://tim.blog").
Defined.

Lemma robots_loaded_once_witness :
  exists rp,
    robot_parsers
      (can_fetch urlparse robots_missing UA "https://tim.blog/x" fresh_scraper).2
      !! "https://tim.blog" = Some rp /\
    (can_fetch urlparse robots_missing UA "https://tim.blog/x" fresh_scraper).1
    = Ok (allows UA rp "https://tim.blog/x") /\
    can_fetch urlparse robots_missing UA "https://tim.blog/about"
      (can_fetch urlparse robots_missing UA "https://tim.blog/x" fresh_scraper).2
    = (Ok (allows UA rp "https://tim.blog/about"),
       (can_fetch urlparse robots_missing UA "https://tim.blog/x" fresh_scraper).2).
Proof.
  apply (robots_loaded_once urlparse robots_missing UA
           "https://tim.blog/x" "https://tim.blog/about"
           {| scheme := "https"; netloc := "tim.blog" |}
           {| scheme := "https"; netloc := "tim.blog" |} fresh_scraper);
    by_vm.
Defined.

Lemma robots_unavailable_allows_witness :
  (can_fetch urlparse robots_missing UA "https://tim.blog/x" fresh_scraper).1
  = Ok true /\
  robots_loaded
    (can_fetch urlparse robots_missing UA "https://tim.blog/x" fresh_scraper).2
  = robots_loaded fresh_scraper ++ ["https://tim.blog" +:+ "/robots.txt"] /\
  can_fetch urlparse robots_missing UA "https://tim.blog/about" after_404
  = (Ok true, after_404).
Proof.
  apply (robots_unavailable_allows urlparse robots_missing UA
           "https://tim.blog/x" "https://tim.blog/about"
           {| scheme := "https"; netloc := "tim.blog" |}
           {| scheme := "https"; netloc := "tim.blog" |} OtherError
           fresh_scraper after_404); try by_vm.
  intros base_url. left. reflexivity.
Defined.

End GatewayExamples.

(** ** The rate limiter: when it blocks *)

Section LimiterProperties.

Import RateLimiter Limiter.

Lemma ascending_snoc (ts : list Z) (t : Z) :
  ascending ts -> Forall (fun x => x <= t) ts -> ascending (ts ++ [t]).
Proof.
  induction ts as [|t0 ts IH]; simpl.
  - intros _ _. split; [constructor | done].
  - intros [Hhead Hrest] Hle. apply Forall_cons in Hle as [Ht0 Hle].
    split.
    + apply Forall_app. split; [done|]. by repeat constructor.
    + by apply IH.
Qed.

Lemma evict_suffix (now P : Z) (ts : list Z) :
  ascending ts ->
  ascending (evict now P ts) /\
  Forall (fun t => now - P < t) (evict now P ts) /\
  (forall bound, Forall (fun t => t <= bound) ts ->
     Forall (fun t => t <= bound) (evict now P ts)).
Proof.
  induction ts as [|t0 ts IH]; simpl.
  - intros _. split; [done|]. split; [constructor | done].
  - intros [Hhead Hrest].
    destruct (Z.leb_spec t0 (now - P)) as [Hdrop|Hkeep].
    + destruct (IH Hrest) as (Ha & Hw & Hb). split; [done|]. split; [done|].
      intros bound Hbound. apply Forall_cons in Hbound as [_ Hbound].
      by apply Hb.
    + split; [done|]. split; [|done].
      constructor; [done|].
      eapply Forall_impl; [exact Hhead | simpl; intros; lia].
Qed.

(** The deque stays in ascending order and in the past. *)
Lemma wait_if_needed_ascending (e : elapse) (now0 : Z) (rl : t)
    (r : result Z) (now1 : Z) (rl' : t) :
  honest e ->
  ascending (timestamps rl) ->
  Forall (fun x => x <= now0) (timestamps rl) ->
  wait_if_needed e now0 rl = (r, now1, rl') ->
  now0 <= now1 /\
  ascending (timestamps rl') /\
  Forall (fun x => x <= now1) (timestamps rl').
Proof.
  intros [Hgap Hover] Hasc Hpast. unfold wait_if_needed.
  set (now := now0 + gap e).
  destruct (evict_suffix now (period rl) (timestamps rl) Hasc)
    as (Hasc1 & Hwin1 & Hb1).
  pose proof (Hb1 now0 Hpast) as Hpast1.
  set (ts := evict now (period rl) (timestamps rl)) in *.
  assert (Hrecord : forall now' ts',
    now0 <= now' -> ascending ts' -> Forall (fun x => x <= now0) ts' ->
    now0 <= now' /\ ascending (ts' ++ [now']) /\
    Forall (fun x => x <= now') (ts' ++ [now'])).
  { intros now' ts' Hle Ha Hp.
    assert (Forall (fun x => x <= now') ts')
      by (eapply Forall_impl; [exact Hp | simpl; intros; lia]).
    split; [done|]. split; [by apply ascending_snoc|].
    apply Forall_app. split; [done|]. by repeat constructor. }
  destruct (calls rl <=? Z.of_nat (length ts)).
  - destruct ts as [|t0 ts0] eqn:Ets.
    + intros [= <- <- <-]. simpl. split; [lia|]. split; [done | constructor].
    + destruct (Z.ltb_spec 0 (period rl - (now - t0))) as [Hsleep|Hno].
      * intros [= <- <- <-].
        destruct (evict_suffix (now + (period rl - (now - t0)) + over e)
                    (period rl) (t0 :: ts0) Hasc1) as (Hasc2 & _ & Hb2).
        apply (Hrecord (now + (period rl - (now - t0)) + over e)
                 (evict (now + (period rl - (now - t0)) + over e)
                    (period rl) (t0 :: ts0)));
          [unfold now; lia | done | by apply Hb2].
      * intros [= <- <- <-].
        apply (Hrecord now (t0 :: ts0)); [unfold now; lia | done | done].
  - intros [= <- <- <-].
    apply (Hrecord now ts); [unfold now; lia | done | done].
Qed.

Lemma acquire_all_ascending (es : list elapse) :
  forall (now0 : Z) (rl : t) (h : list Z) (now1 : Z) (rl' : t),
    Forall honest es ->
    ascending (timestamps rl) ->
    Forall (fun x => x <= now0) (timestamps rl) ->
    acquire_all es now0 rl = (h, now1, rl') ->
    ascending (timestamps rl') /\
    Forall (fun x => x <= now1) (timestamps rl').
Proof.
  induction es as [|e es IH]; intros now0 rl h now1 rl' Hes Hasc Hpast; simpl.
  - by intros [= <- <- <-].
  - destruct (wait_if_needed e now0 rl) as [[r c1] rl1] eqn:Hstep.
    destruct (acquire_all es c1 rl1) as [[h1 c2] rl2] eqn:Hrest.
    intros [= <- <- <-].
    apply Forall_cons in Hes as [He Hes].
    destruct (wait_if_needed_ascending e now0 rl r c1 rl1 He Hasc Hpast Hstep)
      as (_ & Hasc1 & Hpast1).
    exact (IH c1 rl1 h1 c2 rl2 Hes Hasc1 Hpast1 Hrest).
Qed.

(** After any run, evicting at [now] leaves in the deque exactly the
    recorded timestamps that are inside the window at [now]. *)
Lemma evicted_deque_is_window (N P : Z) (now0 : Z) (rl : t) (hist : list Z)
    (now : Z) :
  inv N P now0 rl hist ->
  ascending (timestamps rl) ->
  now0 <= now ->
  evict now P (timestamps rl) = in_window P now hist /\
  length (in_window P now hist) = window_count P now hist.
Proof.
  intros [Hc Hp (old & Hhist & Hold) Hpast Hlen Hwin] Hasc Hnow.
  destruct (evict_split now P (timestamps rl)) as (d & Hsplit & Hd & _).
  destruct (evict_suffix now P (timestamps rl) Hasc) as (_ & Hinside & _).
  assert (Hout : forall l, Forall (fun x => x <= now - P) l ->
            filter (fun t => now - P < t) l = []).
  { intros l Hl. induction Hl as [|x l Hx _ IH]; [done|].
    rewrite filter_cons_False; [done | lia]. }
  assert (Hin : forall l, Forall (fun x => now - P < x) l ->
            filter (fun t => now - P < t) l = l).
  { intros l Hl. induction Hl as [|x l Hx _ IH]; [done|].
    rewrite filter_cons_True by done. by rewrite IH. }
  split.
  - unfold in_window. rewrite Hhist. rewrite Hsplit at 2.
    rewrite !filter_app.
    rewrite (Hout old), (Hout d), (Hin _ Hinside); [done | done |].
    eapply Forall_impl; [exact Hold | simpl; intros; lia].
  - unfold in_window, window_count. f_equal.
    assert (Hle : Forall (fun x => x <= now) hist)
      by (eapply Forall_impl; [exact Hpast | simpl; intros; lia]).
    clear -Hle. induction Hle as [|x l Hx _ IH]; [done|].
    destruct (decide (now - P < x)) as [Hin|Hout].
    + rewrite !filter_cons_True by lia. by rewrite IH.
    + rewrite !filter_cons_False by lia. exact IH.
Qed.

(** X15.  The limiter blocks exactly when it has to.  On a limiter of
    capacity [N >= 1] that has served any sequence of calls, the next
    call, entered at [now], records [now] itself, without sleeping, when
    fewer than [N] recorded timestamps lie in the window [(now - P, now]];
    and when the window is full it records the oldest of them plus the
    period (plus the overshoot of the sleep), the first instant at which
    that one has left the window. *)
Theorem blocks_exactly_when_full (N P c0 : Z) (es : list elapse) (e : elapse)
    (hist : list Z) (now0 : Z) (rl : t) :
  1 <= N ->
  Forall honest es -> honest e ->
  acquire_all es c0 (init N P) = (hist, now0, rl) ->
  let now := now0 + gap e in
  let recorded := (wait_if_needed e now0 rl).1.1 in
  (Z.of_nat (window_count P now hist) < N -> recorded = Ok now) /\
  (N <= Z.of_nat (window_count P now hist) ->
   exists oldest,
     head (in_window P now hist) = Some oldest /\
     now - P < oldest <= now /\
     recorded = Ok (oldest + P + over e)).
Proof.
  intros HN Hes He Hrun now recorded.
  destruct (acquire_all_inv N P es c0 (init N P) [] hist now0 rl
              ltac:(lia) Hes (inv_init N P c0 ltac:(lia)) Hrun) as [Hinv _].
  simpl in Hinv.
  destruct (acquire_all_ascending es c0 (init N P) hist now0 rl Hes I
              ltac:(constructor) Hrun) as [Hasc Hpast].
  destruct He as [Hgap Hover].
  destruct (evicted_deque_is_window N P now0 rl hist now Hinv Hasc
              ltac:(unfold now; lia)) as [Hev Hcount].
  destruct (evict_suffix now P (timestamps rl) Hasc) as (_ & Hinside & Hbound).
  pose proof (Hbound now0 Hpast) as Hle.
  destruct Hinv as [Hc Hp _ _ _ _].
  unfold recorded, wait_if_needed. rewrite Hc, Hp. fold now.
  rewrite Hev in *. rewrite <- Hcount.
  split.
  - intros Hroom.
    destruct (Z.leb_spec N (Z.of_nat (length (in_window P now hist))));
      [lia | done].
  - intros Hfull.
    destruct (Z.leb_spec N (Z.of_nat (length (in_window P now hist))));
      [|lia].
    destruct (in_window P now hist) as [|oldest rest]; [simpl in *; lia|].
    apply Forall_cons in Hinside as [Hin _].
    apply Forall_cons in Hle as [Hpast0 _].
    exists oldest. split; [done|]. split; [unfold now; lia|].
    destruct (Z.ltb_spec 0 (P - (now - oldest))); [|lia].
    simpl. f_equal. lia.
Qed.

Lemma blocks_exactly_when_full_witness :
  (Z.of_nat (window_count 60 0 [0; 0]) < 2 ->
   (wait_if_needed (Elapse 0 0) 0 (mk 2 60 [0; 0])).1.1 = Ok 0) /\
  (2 <= Z.of_nat (window_count 60 0 [0; 0]) ->
   exists oldest,
     head (in_window 60 0 [0; 0]) = Some oldest /\
     0 - 60 < oldest <= 0 /\
     (wait_if_needed (Elapse 0 0) 0 (mk 2 60 [0; 0])).1.1
     = Ok (oldest + 60 + 0)).
Proof.
  apply (blocks_exactly_when_full 2 60 0 [Elapse 0 0; Elapse 0 0] (Elapse 0 0)
           [0; 0] 0 (mk 2 60 [0; 0])).
  - lia.
  - repeat constructor; simpl; lia.
  - split; simpl; lia.
  - reflexivity.
Defined.

End LimiterProperties.

(** ** The rate limiter on double-precision time *)

Section LimiterOnDoubles.

Import Double RateLimiterOnDoubles MoreExamples.

(** [0.1], [0.3] and the duration of the sleep, [60 - (0.3 - 0.1)], which
    rounds to the double [59.8], below the exact difference. *)
Example doubles_of_the_run :
  tenth = SpecFloat.S754_finite false 7205759403792794 (-56) /\
  three_tenths = SpecFloat.S754_finite false 5404319552844595 (-54) /\
  sub (of_int 60) (sub three_tenths tenth)
  = SpecFloat.S754_finite false 8416101803648614 (-47) /\
  add three_tenths (sub (of_int 60) (sub three_tenths tenth))
  = just_under_a_minute_later.
Proof. repeat split; by vm_compute. Qed.

(** On readings that are whole seconds the doubles behave as the integer
    clock does: of three immediate calls with [calls = 2], the third
    sleeps a full period and finds the window empty when it wakes. *)
Example whole_seconds_on_doubles :
  let first := wait_if_needed (punctual (of_int 0)) (init 2 60) in
  let second := wait_if_needed (punctual (of_int 0)) first.2 in
  let third := wait_if_needed (punctual (of_int 0)) second.2 in
  timestamps second.2 = [of_int 0; of_int 0] /\
  third = (Ok (of_int 60), mk 2 60 [of_int 60]).
Proof. split; by vm_compute. Qed.


End LimiterOnDoubles.

(** ** The adaptive rate limiter *)

Section AdaptiveProperties.

Import Limiter AdaptiveRateLimiter.

Lemma tracks_record (N P clock now' : Z) (old ts hist : list Z) :
  clock <= now' ->
  hist = old ++ ts ->
  Forall (fun x => x <= now' - P) old ->
  Forall (fun x => x <= clock) hist ->
  Z.of_nat (length ts) < N ->
  (forall t, Z.of_nat (RateLimiter.window_count P t hist) <= N) ->
  tracks N P now' (ts ++ [now']) (hist ++ [now']).
Proof.
  intros Hclk Hhist Hold Hpast Hlen Hwin.
  destruct (inv_record N P clock now' old ts hist ltac:(lia) Hclk Hhist Hold
              Hpast Hlen Hwin) as [_ _ Ho Hp Hl Hw].
  by split.
Qed.

Lemma throttle_down_configured (I P m : Z) (rl : t) :
  0 <= m -> configured I P m rl -> configured I P m (throttle_down rl).
Proof.
  intros Hm [Hi Hp Hmin Hc Hk]. unfold throttle_down. simpl.
  destruct (Z.ltb_spec (min_calls rl) (calls rl)) as [Hlt|Hge].
  - split; simpl; try done; [|lia].
    pose proof (Z.div_pos (calls rl) 2 ltac:(lia) ltac:(lia)).
    assert (calls rl / 2 <= calls rl)
      by (apply Z.div_le_upper_bound; lia).
    lia.
  - split; simpl; try done. lia.
Qed.

Lemma throttle_up_configured (I P m : Z) (rl : t) :
  0 <= m -> configured I P m rl -> configured I P m (throttle_up rl).
Proof.
  intros Hm [Hi Hp Hmin Hc Hk]. unfold throttle_up.
  destruct (Z.ltb_spec 0 (consecutive_rate_limits rl)) as [Hpos|Hzero].
  - split; simpl; try done. lia.
  - destruct (Z.ltb_spec (calls rl) (initial_calls rl)) as [Hlt|Hge].
    + split; simpl; try done.
      assert (calls rl <= 3 * calls rl ÷ 2)
        by (apply Z.quot_le_lower_bound; lia).
      lia.
    + by split.
Qed.

(** One call to [wait_if_needed] touches the deque only, and keeps it a
    faithful record of the window for any bound the limit stays under. *)
Lemma adaptive_wait_tracks (N P : Z) (e : RateLimiter.elapse) (clock : Z)
    (rl : t) (hist : list Z) (r : result Z) (clock' : Z) (rl' : t) :
  RateLimiter.honest e ->
  period rl = P ->
  calls rl <= N ->
  tracks N P clock (timestamps rl) hist ->
  wait_if_needed e clock rl = (r, clock', rl') ->
  clock <= clock' /\
  tracks N P clock' (timestamps rl')
    (match r with Ok now => hist ++ [now] | Raise _ => hist end) /\
  rl' = set_timestamps (timestamps rl') rl /\
  (1 <= calls rl -> is_Ok r = true).
Proof.
  intros [Hgap Hover] Hp Hc [(old & Hhist & Hold) Hpast Hlen Hwin].
  unfold wait_if_needed. rewrite Hp.
  set (now := clock + RateLimiter.gap e).
  destruct (evict_split now P (timestamps rl)) as (d & Hsplit & Hd & Hhd).
  pose proof (evict_length now P (timestamps rl)) as Hel.
  set (ts := RateLimiter.evict now P (timestamps rl)) in *.
  assert (Hold' : Forall (fun x => x <= now - P) (old ++ d)).
  { apply Forall_app. split; [|done].
    eapply Forall_impl; [exact Hold | simpl; intros; lia]. }
  assert (Hhist' : hist = (old ++ d) ++ ts).
  { by rewrite Hhist, Hsplit at 1; rewrite app_assoc. }
  destruct (Z.leb_spec (calls rl) (Z.of_nat (length ts))) as [Hfull|Hroom].
  - destruct ts as [|t0 ts0] eqn:Ets.
    + intros [= <- <- <-]. simpl in Hfull.
      split; [lia|]. split; [|split; [done | lia]].
      split; simpl.
      * exists (old ++ d). split; [exact Hhist' | exact Hold'].
      * eapply Forall_impl; [exact Hpast | simpl; intros; lia].
      * lia.
      * done.
    + destruct (Z.ltb_spec 0 (P - (now - t0))) as [Hsleep|Hno]; [|lia].
      set (now' := now + (P - (now - t0)) + RateLimiter.over e).
      assert (Hnow' : t0 <= now' - P) by (unfold now'; lia).
      assert (Hev : RateLimiter.evict now' P (t0 :: ts0)
                    = RateLimiter.evict now' P ts0).
      { simpl. destruct (Z.leb_spec t0 (now' - P)); [done | lia]. }
      rewrite Hev. intros [= <- <- <-].
      destruct (evict_split now' P ts0) as (d' & Hsplit' & Hd' & _).
      pose proof (evict_length now' P ts0) as Hel'.
      split; [unfold now'; lia|]. split; [|done]. simpl timestamps.
      apply (tracks_record N P clock now' ((old ++ d) ++ t0 :: d')
               (RateLimiter.evict now' P ts0) hist).
      * unfold now'. lia.
      * rewrite Hhist'. rewrite Hsplit' at 1.
        by rewrite <- !app_assoc.
      * apply Forall_app. split.
        -- eapply Forall_impl; [exact Hold' | simpl; intros; unfold now'; lia].
        -- by constructor.
      * done.
      * simpl in Hel. lia.
      * done.
  - intros [= <- <- <-].
    split; [lia|]. split; [|done]. simpl timestamps.
    apply (tracks_record N P clock now (old ++ d) ts hist); try done; lia.
Qed.

Lemma set_timestamps_configured (I P m : Z) (ts : list Z) (rl : t) :
  configured I P m rl -> configured I P m (set_timestamps ts rl).
Proof. intros [Hi Hp Hmin Hc Hk]. by split. Qed.

Lemma wait_if_needed_frame (e : RateLimiter.elapse) (clock : Z) (rl : t) :
  (wait_if_needed e clock rl).2
  = set_timestamps (timestamps (wait_if_needed e clock rl).2) rl.
Proof.
  unfold wait_if_needed.
  destruct (calls rl <=? _); [|done].
  destruct (RateLimiter.evict _ _ _); [done|].
  by destruct (0 <? _).
Qed.

Lemma run_configured (I P m : Z) (ops : list op) :
  forall (clock : Z) (rl : t),
    0 <= m -> configured I P m rl -> configured I P m (run ops clock rl).2.
Proof.
  induction ops as [|[e| |] ops IH]; intros clock rl Hm Hcfg; simpl.
  - done.
  - pose proof (wait_if_needed_frame e clock rl) as Hframe.
    destruct (wait_if_needed e clock rl) as [[r clock1] rl1].
    simpl in Hframe.
    specialize (IH clock1 rl1 Hm).
    destruct (run ops clock1 rl1) as [[h clock2] rl2]. simpl in *.
    apply IH. rewrite Hframe. by apply set_timestamps_configured.
  - apply IH; [done|]. by apply throttle_down_configured.
  - apply IH; [done|]. by apply throttle_up_configured.
Qed.

Lemma run_tracks (I P m : Z) (ops : list op) :
  forall (clock : Z) (rl : t) (hist h : list Z) (clock' : Z) (rl' : t),
    0 <= m ->
    Forall honest_op ops ->
    configured I P m rl ->
    tracks I P clock (timestamps rl) hist ->
    run ops clock rl = (h, clock', rl') ->
    tracks I P clock' (timestamps rl') (hist ++ h) /\
    (1 <= m -> length h = waits ops).
Proof.
  induction ops as [|[e| |] ops IH];
    intros clock rl hist h clock' rl' Hm Hops Hcfg Htr; simpl.
  - intros [= <- <- <-]. by rewrite app_nil_r.
  - destruct (wait_if_needed e clock rl) as [[r clock1] rl1] eqn:Hstep.
    destruct (run ops clock1 rl1) as [[h1 clock2] rl2] eqn:Hrest.
    intros [= <- <- <-].
    apply Forall_cons in Hops as [He Hops].
    destruct Hcfg as [Hi Hp Hmin Hc Hk].
    destruct (adaptive_wait_tracks I P e clock rl hist r clock1 rl1 He Hp
                ltac:(lia) Htr Hstep) as (_ & Htr1 & Hframe & Hok).
    assert (Hcfg1 : configured I P m rl1).
    { rewrite Hframe. apply set_timestamps_configured. by split. }
    destruct (IH _ _ _ _ _ _ Hm Hops Hcfg1 Htr1 Hrest) as [Htr2 Hlen].
    destruct r as [now|ex]; simpl.
    + rewrite <- app_assoc in Htr2. split; [done|].
      intros H1. simpl. by rewrite Hlen.
    + split; [done|]. intros H1.
      specialize (Hok ltac:(lia)). done.
  - apply Forall_cons in Hops as [_ Hops].
    apply (IH clock (throttle_down rl) hist h clock' rl' Hm Hops).
    + by apply throttle_down_configured.
    + unfold throttle_down. simpl. by destruct (min_calls rl <? calls rl).
  - apply Forall_cons in Hops as [_ Hops].
    apply (IH clock (throttle_up rl) hist h clock' rl' Hm Hops).
    + by apply throttle_up_configured.
    + unfold throttle_up.
      destruct (0 <? _); [done|]. by destruct (calls rl <? _).
Qed.

Lemma init_configured (I P m : Z) :
  0 <= m <= I -> configured I P m (init I P m).
Proof. intros Hm. split; simpl; try done; lia. Qed.

(** X16.  Whatever the sequence of [wait_if_needed], [throttle_down] and
    [throttle_up] calls on an adaptive limiter constructed with
    [0 <= min_calls <= initial_calls], the current limit stays between
    [min_calls] and [initial_calls], the count of consecutive rate limits
    never goes below zero, and the three constructor arguments are kept. *)
Theorem adaptive_limit_stays_in_range (I P m c0 : Z) (ops : list op) :
  0 <= m <= I ->
  I <= 2 ^ 51 ->
  let rl := (run ops c0 (init I P m)).2 in
  m <= calls rl <= I /\
  0 <= consecutive_rate_limits rl /\
  initial_calls rl = I /\ period rl = P /\ min_calls rl = m.
Proof.
  intros Hm _ rl.
  destruct (run_configured I P m ops c0 (init I P m) ltac:(lia)
              (init_configured I P m Hm)) as [Hi Hp Hmin Hc Hk].
  done.
Qed.

(** X17.  The adaptive limiter never lets more than [initial_calls]
    timestamps into one trailing window, however the limit was throttled
    in between (clock and sleep being honest); the deque never holds more
    than [initial_calls] entries; and with [min_calls >= 1] every call to
    [wait_if_needed] returns and records its timestamp. *)
Theorem adaptive_window_bounded (I P m c0 : Z) (ops : list op)
    (hist : list Z) (clock : Z) (rl : t) :
  0 <= m <= I ->
  I <= 2 ^ 51 ->
  Forall honest_op ops ->
  run ops c0 (init I P m) = (hist, clock, rl) ->
  (forall t, Z.of_nat (RateLimiter.window_count P t hist) <= I) /\
  Z.of_nat (length (timestamps rl)) <= I /\
  (1 <= m -> length hist = waits ops).
Proof.
  intros Hm _ Hops Hrun.
  assert (Htr : tracks I P c0 (timestamps (init I P m)) []).
  { split; simpl.
    - exists []. split; [done | constructor].
    - constructor.
    - lia.
    - intros t. unfold RateLimiter.window_count. simpl. lia. }
  destruct (run_tracks I P m ops c0 (init I P m) [] hist clock rl
              ltac:(lia) Hops (init_configured I P m Hm) Htr Hrun)
    as [[_ _ Hlen Hwin] Hcount].
  done.
Qed.

Lemma iter_throttle_down (rl : t) (k : nat) :
  0 <= calls rl ->
  min_calls rl <= calls rl ->
  let rl' := Nat.iter k throttle_down rl in
  calls rl' = Z.max (min_calls rl) (calls rl / 2 ^ Z.of_nat k) /\
  consecutive_rate_limits rl'
  = consecutive_rate_limits rl + Z.of_nat k /\
  initial_calls rl' = initial_calls rl /\
  min_calls rl' = min_calls rl.
Proof.
  intros Hpos Hmin. induction k as [|k IH]; simpl.
  - rewrite Z.div_1_r. repeat split; lia.
  - destruct IH as (Hc & Hk & Hi & Hm).
    set (rl1 := Nat.iter k throttle_down rl) in *.
    assert (Hpow : 2 ^ Z.of_nat (S k) = 2 ^ Z.of_nat k * 2).
    { rewrite Nat2Z.inj_succ, Z.pow_succ_r by lia. lia. }
    assert (Hpk : 0 < 2 ^ Z.of_nat k) by (apply Z.pow_pos_nonneg; lia).
    assert (Hdiv : calls rl / 2 ^ Z.of_nat (S k)
                   = calls rl / 2 ^ Z.of_nat k / 2).
    { rewrite Hpow. symmetry. apply Z.div_div; lia. }
    assert (Hq : 0 <= calls rl / 2 ^ Z.of_nat k)
      by (apply Z.div_pos; lia).
    assert (Hhalf : calls rl / 2 ^ Z.of_nat k / 2 <= calls rl / 2 ^ Z.of_nat k)
      by (apply Z.div_le_upper_bound; lia).
    unfold throttle_down. simpl.
    destruct (Z.ltb_spec (min_calls rl1) (calls rl1)) as [Hlt|Hge]; simpl.
    + assert (Hcq : calls rl1 = calls rl / 2 ^ Z.of_nat k) by lia.
      split; [by rewrite Hdiv, Hm, Hcq|]. split; [lia | done].
    + split; [rewrite Hdiv; lia|]. split; [lia | done].
Qed.

Lemma iter_throttle_up_counter (rl : t) (j : nat) :
  Z.of_nat j <= consecutive_rate_limits rl ->
  Nat.iter j throttle_up rl
  = set_consecutive_rate_limits (consecutive_rate_limits rl - Z.of_nat j) rl.
Proof.
  induction j as [|j IH]; intros Hj.
  - simpl. rewrite Z.sub_0_r. by destruct rl.
  - simpl. rewrite IH by lia. unfold throttle_up. simpl.
    destruct (Z.ltb_spec 0 (consecutive_rate_limits rl - Z.of_nat j)); [|lia].
    unfold set_consecutive_rate_limits. simpl. f_equal. lia.
Qed.

(** X18.  Throttling in closed form.  After [k] rate-limit signals on a
    fresh adaptive limiter the limit is [initial_calls // 2 ^ k], floored
    at [min_calls]; and the first [k] successes that follow do not raise
    it: each of them only takes one off the count of consecutive rate
    limits. *)
Theorem throttle_closed_form (I P m : Z) (k j : nat) :
  0 <= I -> m <= I -> (j <= k)%nat ->
  let rl := Nat.iter j throttle_up (Nat.iter k throttle_down (init I P m)) in
  calls rl = Z.max m (I / 2 ^ Z.of_nat k) /\
  consecutive_rate_limits rl = Z.of_nat k - Z.of_nat j.
Proof.
  intros HI Hm Hjk rl.
  destruct (iter_throttle_down (init I P m) k HI Hm) as (Hc & Hk & _ & _).
  simpl in Hc, Hk. unfold rl.
  rewrite iter_throttle_up_counter by lia. simpl. lia.
Qed.

Lemma run_stuck (ops : list op) :
  forall (clock : Z) (rl : t),
    0 <= calls rl <= 1 ->
    0 <= calls (run ops clock rl).2 <= calls rl.
Proof.
  induction ops as [|[e| |] ops IH]; intros clock rl Hc; simpl.
  - lia.
  - pose proof (wait_if_needed_frame e clock rl) as Hframe.
    destruct (wait_if_needed e clock rl) as [[r clock1] rl1].
    simpl in Hframe.
    assert (Hsame : calls rl1 = calls rl) by (by rewrite Hframe).
    specialize (IH clock1 rl1 ltac:(lia)).
    destruct (run ops clock1 rl1) as [[h clock2] rl2]. simpl in *. lia.
  - assert (Hd : 0 <= calls (throttle_down rl) <= calls rl).
    { unfold throttle_down. simpl.
      destruct (Z.ltb_spec (min_calls rl) (calls rl)); simpl; [|lia].
      assert (calls rl / 2 = 0) by (apply Z.div_small; lia). lia. }
    specialize (IH clock (throttle_down rl) ltac:(lia)). lia.
  - assert (Hu : calls (throttle_up rl) = calls rl).
    { unfold throttle_up.
      destruct (0 <? _); [done|].
      destruct (Z.ltb_spec (calls rl) (initial_calls rl)); simpl; [|done].
      assert (Hq : 3 * calls rl ÷ 2 = calls rl).
      { destruct (decide (calls rl = 0)) as [->|]; [done|].
        assert (calls rl = 1) as -> by lia. done. }
      lia. }
    specialize (IH clock (throttle_up rl) ltac:(lia)). lia.
Qed.

(** X19.  A limit of one call per period is final.  Once the limit of an
    adaptive limiter is 1 (or 0), no sequence of method calls raises it
    again: [throttle_up] computes [int(1 * 1.5)], which is 1. *)
Theorem adaptive_limit_of_one_is_final (ops : list op) (clock : Z) (rl : t) :
  0 <= calls rl <= 1 ->
  0 <= calls (run ops clock rl).2 <= calls rl.
Proof. apply run_stuck. Qed.

End AdaptiveProperties.

(** ** The adaptive rate limiter on concrete inputs *)

Section AdaptiveExamples.

Import Limiter AdaptiveRateLimiter MoreExamples.

(** Two rate-limit signals, three calls, three successes. *)
Example throttled_run :
  run [ThrottleDown; ThrottleDown;
       WaitIfNeeded (RateLimiter.Elapse 0 0);
       WaitIfNeeded (RateLimiter.Elapse 0 0);
       WaitIfNeeded (RateLimiter.Elapse 0 0);
       ThrottleUp; ThrottleUp; ThrottleUp] 0 (init 10 60 1)
  = ([0; 0; 60], 60, mk 3 10 60 1 [60] 0).
Proof. reflexivity. Qed.

Lemma adaptive_limit_stays_in_range_witness :
  1 <= calls (mk 3 10 60 1 [60] 0) <= 10 /\
  0 <= consecutive_rate_limits (mk 3 10 60 1 [60] 0) /\
  initial_calls (mk 3 10 60 1 [60] 0) = 10 /\
  period (mk 3 10 60 1 [60] 0) = 60 /\
  min_calls (mk 3 10 60 1 [60] 0) = 1.
Proof.
  apply (adaptive_limit_stays_in_range 10 60 1 0
           [ThrottleDown; ThrottleDown;
            WaitIfNeeded (RateLimiter.Elapse 0 0);
            WaitIfNeeded (RateLimiter.Elapse 0 0);
            WaitIfNeeded (RateLimiter.Elapse 0 0);
            ThrottleUp; ThrottleUp; ThrottleUp]).
  - lia.
  - by vm_compute.
Defined.

Lemma adaptive_window_bounded_witness :
  (forall t, Z.of_nat (RateLimiter.window_count 60 t [0; 0; 60]) <= 10) /\
  Z.of_nat (length (timestamps (mk 3 10 60 1 [60] 0))) <= 10 /\
  (1 <= 1 ->
   length [0; 0; 60]
   = waits [ThrottleDown; ThrottleDown;
            WaitIfNeeded (RateLimiter.Elapse 0 0);
            WaitIfNeeded (RateLimiter.Elapse 0 0);
            WaitIfNeeded (RateLimiter.Elapse 0 0);
            ThrottleUp; ThrottleUp; ThrottleUp]).
Proof.
  apply (adaptive_window_bounded 10 60 1 0
           [ThrottleDown; ThrottleDown;
            WaitIfNeeded (RateLimiter.Elapse 0 0);
            WaitIfNeeded (RateLimiter.Elapse 0 0);
            WaitIfNeeded (RateLimiter.Elapse 0 0);
            ThrottleUp; ThrottleUp; ThrottleUp]) with (clock := 60).
  - lia.
  - by vm_compute.
  - repeat constructor; simpl; lia.
  - reflexivity.
Defined.

Lemma throttle_closed_form_witness :
  calls (Nat.iter 3 throttle_up (Nat.iter 4 throttle_down (init 10 60 1)))
  = Z.max 1 (10 / 2 ^ Z.of_nat 4) /\
  consecutive_rate_limits
    (Nat.iter 3 throttle_up (Nat.iter 4 throttle_down (init 10 60 1)))
  = Z.of_nat 4 - Z.of_nat 3.
Proof.
  apply (throttle_closed_form 10 60 1 4 3).
  - lia.
  - lia.
  - lia.
Defined.

(** Four rate-limit signals bring a limit of 10 down to 1. *)
Example four_signals : Nat.iter 4 throttle_down (init 10 60 1) = throttled.
Proof. reflexivity. Qed.

Lemma adaptive_limit_of_one_is_final_witness :
  0 <= calls (run [ThrottleUp; ThrottleUp; ThrottleUp; ThrottleUp; ThrottleUp;
                   ThrottleUp; ThrottleUp; ThrottleUp] 0 throttled).2
    <= calls throttled.
Proof.
  apply (adaptive_limit_of_one_is_final
           [ThrottleUp; ThrottleUp; ThrottleUp; ThrottleUp; ThrottleUp;
            ThrottleUp; ThrottleUp; ThrottleUp] 0 throttled).
  simpl. lia.
Defined.

End AdaptiveExamples.

(** ** Content objects *)

Section ContentProperties.

Import Validator Scoring Pipeline ContentObjects.

Variable urlparse : string -> result ParseResult.
Variable MIN_AUTHENTICITY_SCORE : Z.
Variable self : AuthenticityValidator.
Variable sha256_hexdigest : string -> string.
Variable author_id author_name : string.
Variable MIN_CONTENT_LENGTH : Z.

Lemma forallb_false_elem {A} (test : A -> bool) (x : A) (l : list A) :
  x ∈ l -> test x = false -> forallb test l = false.
Proof.
  induction 1 as [x l|x y l _ IH]; simpl; intros Hx.
  - by rewrite Hx.
  - rewrite IH by done. by destruct (test y).
Qed.

Lemma substring_prefix_app (n : nat) :
  forall a b : string,
    (n <= String.length a)%nat ->
    substring 0 n (a +:+ b) = substring 0 n a.
Proof.
  induction n as [|n IH]; intros a b Hn.
  - assert (H0 : forall s, substring 0 0 s = "") by (by intros []).
    by rewrite !H0.
  - destruct a as [|c a]; simpl in *; [lia|].
    f_equal. apply IH. lia.
Qed.

(** X20.  The id of a content object depends on the url and on the first
    1000 characters of the text only: two texts at one url that agree on
    a prefix of 1000 characters or more get the same id, whatever
    follows. *)
Theorem content_id_ignores_tail (head tail1 tail2 url : string) :
  (1000 <= String.length head)%nat ->
  generate_content_id sha256_hexdigest (head +:+ tail1) url
  = generate_content_id sha256_hexdigest (head +:+ tail2) url.
Proof.
  intros Hlen. unfold generate_content_id.
  by rewrite !(substring_prefix_app 1000 head) by done.
Qed.

Section Created.

Variables title content url : string.
Variable date_published : option string.
Variables platform content_type : string.
Variable metadata : option (gmap string pyval).
Variable date_scraped : string.

#[local] Abbreviation created :=
  (create_content_object sha256_hexdigest author_id author_name
     title content url date_published platform content_type metadata
     date_scraped).

Lemma or_empty_lacks (k : string) :
  (forall md, metadata = Some md -> md !! k = None) ->
  or_empty metadata !! k = None.
Proof.
  intros Hmd. unfold or_empty. destruct metadata as [md|]; [|done].
  destruct (truthy (PDict md)); [by apply Hmd | done].
Qed.

Lemma created_fields :
  created !! "author" = Some (PStr author_id) /\
  created !! "platform" = Some (PStr platform) /\
  created !! "title" = Some (PStr title) /\
  created !! "content" = Some (PStr content) /\
  created !! "url" = Some (PStr url) /\
  created !! "authenticity_score" = Some PNone /\
  created !! "metadata"
  = Some (PDict (<["word_count" := PInt (Z.of_nat (length (split content)))]>
                   (or_empty metadata))).
Proof.
  unfold create_content_object.
  repeat split; lookup_insert; reflexivity.
Qed.

(** X21.  What the scrapers build and then check: [validate_content] on a
    record fresh from [create_content_object] never raises, and accepts
    it exactly when title, text and url are non-empty and the text has at
    least [MIN_CONTENT_LENGTH] characters. *)
Theorem created_object_accepted :
  validate_content MIN_CONTENT_LENGTH created
  = Ok (negb (String.eqb title "") && negb (String.eqb content "")
        && negb (String.eqb url "")
        && (MIN_CONTENT_LENGTH <=? Z.of_nat (String.length content))).
Proof.
  destruct created_fields as (_ & _ & Ht & Hc & Hu & _ & _).
  unfold validate_content. cbn [for_return].
  rewrite Ht, Hc, Hu. simpl default. simpl truthy.
  destruct (String.eqb title ""); simpl; [done|].
  destruct (String.eqb content ""); simpl; [done|].
  destruct (String.eqb url ""); simpl; [done|].
  rewrite Z.leb_antisym.
  by destruct (Z.of_nat (String.length content) <? MIN_CONTENT_LENGTH).
Qed.

(** X22.  A record fresh from [create_content_object] carries the score
    [None]: a list that holds one cannot be filtered by score, the call
    raises [TypeError] whatever the threshold. *)
Theorem unvalidated_object_breaks_filter
    (contents : list (gmap string pyval)) (min_score : option Z) :
  created ∈ contents ->
  filter_by_score MIN_AUTHENTICITY_SCORE contents min_score = Raise TypeError.
Proof.
  intros Hin. rewrite filter_by_score_eq, keep_scored_eq.
  assert (Hnot : comparable created = false).
  { destruct created_fields as (_ & _ & _ & _ & _ & Hs & _).
    unfold comparable. by rewrite Hs. }
  by rewrite (forallb_false_elem comparable _ contents Hin Hnot).
Qed.

Lemma verify_domain_total (url' : string) :
  is_Ok (_verify_domain urlparse self (PStr author_id) (PStr url')) = true.
Proof.
  destruct (decide (url' = "")) as [->|Hurl]; [done|].
  rewrite (verify_domain_eq urlparse self author_id url' Hurl). simpl.
  destruct (bool_decide _); [done|].
  destruct (netloc_domain urlparse url'); [|done].
  destruct (bool_decide _); [done|].
  by destruct (existsb _ _).
Qed.

Lemma verify_platform_total (platform' : string) (md : gmap string pyval) :
  blogs_parse urlparse (default no_config (authors_config self !! author_id)) ->
  is_Ok (_verify_platform urlparse self (PStr author_id) (PStr platform')
           (PDict md)) = true.
Proof.
  intros Hparse. unfold _verify_platform. simpl get_by_key.
  set (cfg := default no_config (authors_config self !! author_id)) in *.
  destruct (negb (truthy (PStr platform'))); [done|].
  rewrite bind_Ok.
  destruct (str_eq (PStr platform') "twitter"); [done|].
  destruct (str_eq (PStr platform') "youtube").
  { unfold _verify_youtube. simpl. rewrite for_return_test. simpl.
    destruct (existsb _ _); [done|]. by destruct (bool_decide _). }
  destruct (str_eq (PStr platform') "blog").
  { unfold _verify_blog, py_get. rewrite !bind_Ok.
    pose proof (verify_blog_loop urlparse md (blogs cfg) Hparse) as Hloop.
    unfold field in Hloop. by rewrite Hloop, bind_Ok. }
  destruct (str_eq (PStr platform') "podcast").
  { unfold _verify_podcast. simpl. by rewrite for_return_test. }
  destruct (str_eq (PStr platform') "book").
  { unfold _verify_book. simpl. by rewrite for_return_test. }
  done.
Qed.

(** X23.  Scraped records can always be scored.  On a record fresh from
    [create_content_object], [validate] returns, without raising, and
    leaves an int score between 0 and 100 in it, provided the blog urls
    configured for the author can be parsed and the scraper's metadata
    have no [validation] entry of their own. *)
Theorem created_object_validates :
  blogs_parse urlparse (default no_config (authors_config self !! author_id)) ->
  (forall md, metadata = Some md -> md !! "validation" = None) ->
  exists score validated,
    validate urlparse MIN_AUTHENTICITY_SCORE self created = (Ok (), validated) /\
    validated !! "authenticity_score" = Some (PInt score) /\
    0 <= score <= 100.
Proof.
  intros Hparse Hfresh.
  destruct created_fields as (Ha & Hp & _ & _ & Hu & _ & Hm).
  set (n := Z.of_nat (length (split content))) in *.
  set (md := <["word_count" := PInt n]> (or_empty metadata)) in *.
  destruct (truthy (PStr author_id)) eqn:Hauthor.
  2:{ exists 0, (<["authenticity_score" := PInt 0]> created).
      split; [|split; [by rewrite lookup_insert_eq | lia]].
      unfold validate. rewrite Ha. cbn [default]. unfold id.
      rewrite Hauthor. reflexivity. }
  pose proof (verify_domain_total url) as Hdom.
  destruct (_verify_domain urlparse self (PStr author_id) (PStr url))
    as [d|] eqn:Hd; [|done].
  pose proof (verify_platform_total platform md Hparse) as Hplat.
  destruct (_verify_platform urlparse self (PStr author_id) (PStr platform)
              (PDict md)) as [p|] eqn:Hpl; [|done].
  assert (Hwc : default (PInt 0) (md !! "word_count") = PInt n)
    by (unfold md; by rewrite lookup_insert_eq).
  pose proof (verify_metadata_eq self author_id md n Hwc) as Hmeta.
  set (m := check (50 <? n) + _ + _ + _) in Hmeta.
  assert (Hcalc : _calculate_authenticity_score urlparse self (PStr author_id)
                    (default (PStr "") (created !! "platform"))
                    (default (PStr "") (created !! "url")) (PDict md)
                  = Ok (Z.min 100 (Z.max 0 (0 + d + p + m)))).
  { rewrite Hp, Hu. simpl default. unfold _calculate_authenticity_score.
    by rewrite Hd, bind_Ok, Hpl, bind_Ok, Hmeta, bind_Ok. }
  assert (Hnew : md !! "validation" = None).
  { unfold md. rewrite lookup_insert_ne by done. by apply or_empty_lacks. }
  eexists _, _. split; [|split].
  - exact (validate_fresh urlparse self created md (PStr author_id) _
             MIN_AUTHENTICITY_SCORE Ha Hauthor Hm Hnew Hcalc).
  - rewrite lookup_insert_ne by done. by rewrite lookup_insert_eq.
  - lia.
Qed.

End Created.

End ContentProperties.

(** ** Content objects on concrete inputs *)

Section ContentExamples.

Import Validator Scoring Pipeline ContentObjects Examples MoreExamples.

#[local] Abbreviation urlparse := UrlparseAscii.urlparse.

Lemma content_id_ignores_tail_witness :
  generate_content_id plain_digest (thousand_chars +:+ " first ending")
    "https://tim.blog/x"
  = generate_content_id plain_digest (thousand_chars +:+ " second ending")
      "https://tim.blog/x".
Proof.
  apply (content_id_ignores_tail plain_digest thousand_chars).
  apply Nat.leb_le. vm_compute. reflexivity.
Defined.

(** The post has three words and fifteen characters: too short to be
    kept. *)
Example post_too_short : validate_content 100 post = Ok false.
Proof. by_vm. Qed.

Lemma unvalidated_object_breaks_filter_witness :
  filter_by_score 75 [scored 90; post] None = Raise TypeError.
Proof.
  apply (unvalidated_object_breaks_filter 75 plain_digest "tim_ferriss"
           "Tim Ferriss" "On writing" "Write every day"
           "https://tim.blog/writing" None "blog" "article"
           (Some post_metadata) "2024-01-01T00:00:00").
  right. left.
Defined.

Lemma created_object_validates_witness :
  exists score validated,
    validate urlparse 75 tim_validator post = (Ok (), validated) /\
    validated !! "authenticity_score" = Some (PInt score) /\
    0 <= score <= 100.
Proof.
  apply (created_object_validates urlparse 75 tim_validator plain_digest
           "tim_ferriss" "Tim Ferriss" "On writing" "Write every day"
           "https://tim.blog/writing" None "blog" "article"
           (Some post_metadata) "2024-01-01T00:00:00").
  - repeat constructor.
  - intros md [= <-]. reflexivity.
Defined.

End ContentExamples.
